(** * PubMed-Author-Scan: the core pipeline of [pubmed_authorscan/core.py]

    A shallow embedding of the affiliation classifier, the email extractor,
    the article parser, the three external email resolvers and the
    search/fetch orchestrator, with the properties of the specification
    stated and proved over it.

    Conventions.
    - A Python [str] is a [string] holding its UTF-8 bytes.  Substring
      tests, joins, emptiness tests and the ASCII-only character classes of
      the regular expressions give the same answers on the bytes as on the
      code points.
    - [str.lower], [str.strip] and [int] are builtins of the interpreter;
      the development is parametric in them (Section variables), so every
      theorem holds for the real ones.  The examples run with the ASCII
      instances [ascii_lower], [ascii_strip] and [dec_int].
    - Network traffic and pauses are recorded in a trace; the remote
      services are a function from the trace so far and the request to a
      response, so a service may answer the same request differently at
      different times. *)

From Stdlib Require Import List String Ascii Bool ZArith Lia Arith DecimalString.
Import ListNotations.
Local Open Scope list_scope.
Local Open Scope string_scope.
Set Warnings "-register-all".

(** * Part I: the model *)

(** ** Python strings *)

Module PyStr.

(** [hay.startswith(p)]. *)
Fixpoint startswith (p hay : string) : bool :=
  match p, hay with
  | EmptyString, _ => true
  | String _ _, EmptyString => false
  | String a p', String b hay' => Ascii.eqb a b && startswith p' hay'
  end.

(** [needle in hay] on strings. *)
Fixpoint contains (needle hay : string) : bool :=
  startswith needle hay ||
  match hay with
  | EmptyString => false
  | String _ rest => contains needle rest
  end.

(** Truth value of a string: non-empty. *)
Definition truthy (s : string) : bool :=
  match s with EmptyString => false | String _ _ => true end.

(** Truth value of an optional string ([None] is false). *)
Definition otruthy (o : option string) : bool :=
  match o with None => false | Some s => truthy s end.

(** [sep.join(parts)]. *)
Definition join (sep : string) (parts : list string) : string :=
  String.concat sep parts.

(** [s[n:]]. *)
Fixpoint drop (n : nat) (s : string) : string :=
  match n, s with
  | S n', String _ rest => drop n' rest
  | _, _ => s
  end.

(** [s[:n]]. *)
Fixpoint take (n : nat) (s : string) : string :=
  match n, s with
  | S n', String c rest => String c (take n' rest)
  | _, _ => EmptyString
  end.

(** [s.replace(a, b)] for one-character [a] and [b]. *)
Fixpoint replace_char (a b : ascii) (s : string) : string :=
  match s with
  | EmptyString => EmptyString
  | String c rest =>
      String (if Ascii.eqb c a then b else c) (replace_char a b rest)
  end.

(** A UTF-8 continuation byte, 0x80-0xBF. *)
Definition is_continuation (c : ascii) : bool :=
  let n := nat_of_ascii c in (128 <=? n)%nat && (n <=? 191)%nat.

(** The characters of a string, as iteration over a [str] yields them:
    each lead byte with the continuation bytes that follow it. *)
Fixpoint chars (s : string) : list string :=
  match s with
  | EmptyString => []
  | String c rest =>
      match chars rest with
      | (String d _ as chunk) :: more =>
          if is_continuation d then String c chunk :: more
          else String c EmptyString :: chunk :: more
      | other => String c EmptyString :: other
      end
  end.

Definition is_upper (c : ascii) : bool :=
  let n := nat_of_ascii c in (65 <=? n)%nat && (n <=? 90)%nat.

Definition is_lower (c : ascii) : bool :=
  let n := nat_of_ascii c in (97 <=? n)%nat && (n <=? 122)%nat.

Definition is_digit (c : ascii) : bool :=
  let n := nat_of_ascii c in (48 <=? n)%nat && (n <=? 57)%nat.

Definition lower_char (c : ascii) : ascii :=
  if is_upper c then ascii_of_nat (nat_of_ascii c + 32) else c.

(** [str.lower] on ASCII text: A-Z are folded, every other byte is kept. *)
Fixpoint ascii_lower (s : string) : string :=
  match s with
  | EmptyString => EmptyString
  | String c rest => String (lower_char c) (ascii_lower rest)
  end.

(** The ASCII characters [str.strip] removes: space, \t \n \v \f \r and
    the separators 0x1c-0x1f. *)
Definition is_space (c : ascii) : bool :=
  let n := nat_of_ascii c in
  (n =? 32)%nat || ((9 <=? n)%nat && (n <=? 13)%nat)
  || ((28 <=? n)%nat && (n <=? 31)%nat).

Fixpoint lstrip (s : string) : string :=
  match s with
  | EmptyString => EmptyString
  | String c rest => if is_space c then lstrip rest else s
  end.

Fixpoint rstrip (s : string) : string :=
  match s with
  | EmptyString => EmptyString
  | String c rest =>
      match rstrip rest with
      | EmptyString => if is_space c then EmptyString else String c EmptyString
      | r => String c r
      end
  end.

(** [str.strip] on ASCII text. *)
Definition ascii_strip (s : string) : string := rstrip (lstrip s).

End PyStr.

(** ** Affiliation classifier *)

(* List of common academic keywords to filter out academic affiliations *)
Definition ACADEMIC_KEYWORDS : list string :=
  [ "university"; "college"; "institute"; "school"; "hospital"; "faculty";
    "department"; "center"; "centre"; "academy"; "université"; "universidad";
    "università"; "clinic" ]%list.

(* List of common pharma/biotech keywords *)
Definition PHARMA_KEYWORDS : list string :=
  [ "pharma"; "biotech"; "therapeutics"; "laboratories"; "inc"; "ltd"; "gmbh";
    "s.a."; "s.r.l."; "corp"; "llc" ]%list.

(** [any(word in text for word in keywords)]. *)
Definition any_keyword (keywords : list string) (text : string) : bool :=
  existsb (fun word => PyStr.contains word text) keywords.

(** ** Regular expressions

    The two patterns of the source are sequences of quantified character
    classes.  [match_here] is the backtracking matcher of [re]: every
    quantifier is greedy, it first takes the longest run allowed and gives
    characters back one at a time until the rest of the pattern matches. *)

Module Re.

Record item := Item { cls : ascii -> bool; rmin : nat; rmax : option nat }.

(** One literal character. *)
Definition lit (c : ascii) : item := Item (Ascii.eqb c) 1 (Some 1).

(** [[class]+] *)
Definition plus (p : ascii -> bool) : item := Item p 1 None.

(** [[class]{n,}] *)
Definition at_least (n : nat) (p : ascii -> bool) : item := Item p n None.

Fixpoint lits (s : string) : list item :=
  match s with
  | EmptyString => []
  | String c rest => lit c :: lits rest
  end.

(** Length of the longest prefix of [s] made of characters of the class. *)
Fixpoint run (p : ascii -> bool) (s : string) : nat :=
  match s with
  | String c rest => if p c then S (run p rest) else 0
  | EmptyString => 0
  end.

Definition cap (n : nat) (m : option nat) : nat :=
  match m with Some k => Nat.min n k | None => n end.

(** Try [k], [k-1], ..., [lo]: the first success wins. *)
Fixpoint try_down (f : nat -> option nat) (lo k : nat) : option nat :=
  if (k <? lo)%nat then None
  else match f k with
       | Some r => Some r
       | None => match k with
                 | O => None
                 | S k' => try_down f lo k'
                 end
       end.

(** Match the items at the start of [s]; the result is the length matched. *)
Fixpoint match_here (items : list item) (s : string) : option nat :=
  match items with
  | [] => Some 0
  | it :: rest =>
      try_down
        (fun k => option_map (Nat.add k) (match_here rest (PyStr.drop k s)))
        (rmin it) (cap (run (cls it) s) (rmax it))
  end%list.

(** [re.search]: the leftmost position where the items match, with the
    length matched there; [pos] is the offset of [s] in the whole text. *)
Fixpoint search_from (items : list item) (s : string) (pos : nat)
  : option (nat * nat) :=
  match match_here items s with
  | Some len => Some (pos, len)
  | None =>
      match s with
      | EmptyString => None
      | String _ rest => search_from items rest (S pos)
      end
  end.

Definition search (items : list item) (s : string) : option (nat * nat) :=
  search_from items s 0.

(** [[A-Za-z]] *)
Definition alpha (c : ascii) : bool := PyStr.is_upper c || PyStr.is_lower c.

Definition one_of (set : string) (c : ascii) : bool :=
  existsb (Ascii.eqb c) (list_ascii_of_string set).

(** [[A-Za-z0-9._%+-]] *)
Definition local_char (c : ascii) : bool :=
  alpha c || PyStr.is_digit c || one_of "._%+-" c.

(** [[A-Za-z0-9.-]] *)
Definition domain_char (c : ascii) : bool :=
  alpha c || PyStr.is_digit c || one_of ".-" c.

(** [[A-Za-z0-9._%+-]+@[A-Za-z0-9.-]+\.[A-Za-z]{2,}] *)
Definition EMAIL : list item :=
  [ plus local_char; lit "@"; plus domain_char; lit "."; at_least 2 alpha ]%list.

(** [mailto:([A-Za-z0-9._%+-]+@[A-Za-z0-9.-]+\.[A-Za-z]{2,})] *)
Definition MAILTO : list item := (lits "mailto:" ++ EMAIL)%list.

End Re.

(** Extract email address from affiliation string if present using regex. *)
Definition extract_email_from_affil (affil : string) : option string :=
  match Re.search Re.EMAIL affil with
  | Some (start, len) => Some (substring start len affil)
  | None => None
  end.

(** ** XML elements ([xml.etree.ElementTree]) *)

Module ET.

Inductive Element : Type :=
  Elem (tag : string) (attrib : list (string * string))
       (text tail : option string) (children : list Element).

Definition tag (e : Element) : string :=
  match e with Elem t _ _ _ _ => t end.
Definition attrib (e : Element) : list (string * string) :=
  match e with Elem _ a _ _ _ => a end.
Definition text (e : Element) : option string :=
  match e with Elem _ _ t _ _ => t end.
Definition tail (e : Element) : option string :=
  match e with Elem _ _ _ t _ => t end.
Definition children (e : Element) : list Element :=
  match e with Elem _ _ _ _ c => c end.

Definition has_tag (name : string) (e : Element) : bool :=
  String.eqb (tag e) name.

(** [d.get(key, default)] on an attribute dictionary. *)
Fixpoint attrib_get (d : list (string * string)) (key default : string)
  : string :=
  match d with
  | [] => default
  | (k, v) :: rest => if String.eqb k key then v else attrib_get rest key default
  end%list.

(** [e.findall("a/b/c")], the path given as its list of steps: the matches
    of each step are searched, in order, for children of the next tag. *)
Fixpoint findall_in (path : list string) (es : list Element) : list Element :=
  match path with
  | [] => es
  | step :: rest =>
      findall_in rest
        (flat_map (fun e => filter (has_tag step) (children e)) es)
  end%list.

Definition findall (path : list string) (e : Element) : list Element :=
  findall_in path [e]%list.

(** [e.find(path)]: the first match. *)
Definition find (path : list string) (e : Element) : option Element :=
  hd_error (findall path e).

(** [e.findtext(tag)]: the text of the first match; an element without
    text gives the empty string, no match gives [None]. *)
Definition findtext (name : string) (e : Element) : option string :=
  match find [name]%list e with
  | None => None
  | Some c => Some (match text c with Some t => t | None => "" end)
  end.

(** The proper descendants of an element, in document order. *)
Fixpoint descendants (e : Element) : list Element :=
  match e with
  | Elem _ _ _ _ cs => flat_map (fun c => c :: descendants c)%list cs
  end.

(** [e.findall(".//name")]. *)
Definition findall_desc (name : string) (e : Element) : list Element :=
  filter (has_tag name) (descendants e).

Definition text_fragment (o : option string) : list string :=
  match o with
  | Some t => if PyStr.truthy t then [t] else []
  | None => []
  end%list.

(** [e.itertext()]: the element's own text, then for each child its texts
    followed by its tail. *)
Fixpoint itertext (e : Element) : list string :=
  match e with
  | Elem _ _ t _ cs =>
      (text_fragment t ++
       flat_map (fun c => itertext c ++ text_fragment (tail c)) cs)%list
  end.

End ET.

(** ** Decoded JSON: the Python values [resp.json()] produces

    [JNull] is [None].  A number is kept as an integer: the code looks at
    the type and the truth value of a decoded number only, and a float
    stands as any integer of the same truth value.  A dictionary is the
    list of its items, keys distinct. *)

Module Py.

Inductive value : Type :=
| JNull
| JBool (b : bool)
| JNum (n : Z)
| JStr (s : string)
| JArr (items : list value)
| JObj (items : list (string * value)).

(** The exception classes the pipeline can meet; all derive from
    [Exception]. *)
Inductive exn : Type :=
| RequestException   (* connection failure or timeout in [requests.get] *)
| HTTPError          (* [raise_for_status] *)
| ValueError         (* undecodable JSON body, bad [int] literal *)
| ParseError         (* [ET.fromstring] *)
| KeyError
| IndexError
| TypeError
| AttributeError.

Definition result (A : Type) : Type := (exn + A)%type.

Definition truthy (v : value) : bool :=
  match v with
  | JNull => false
  | JBool b => b
  | JNum n => negb (Z.eqb n 0)
  | JStr s => PyStr.truthy s
  | JArr l => match l with [] => false | _ => true end
  | JObj m => match m with [] => false | _ => true end
  end%list.

Fixpoint lookup (m : list (string * value)) (key : string) : option value :=
  match m with
  | [] => None
  | (k, v) :: rest => if String.eqb k key then Some v else lookup rest key
  end%list.

(** [v.get(key, default)]: only a dictionary has the method. *)
Definition get (v : value) (key : string) (default : value) : result value :=
  match v with
  | JObj m => inr (match lookup m key with Some x => x | None => default end)
  | _ => inl AttributeError
  end.

(** [v[key]] for a string key. *)
Definition getitem (v : value) (key : string) : result value :=
  match v with
  | JObj m => match lookup m key with Some x => inr x | None => inl KeyError end
  | _ => inl TypeError
  end.

(** [v[0]]. *)
Definition index0 (v : value) : result value :=
  match v with
  | JArr (x :: _) => inr x
  | JArr [] => inl IndexError
  | JStr s => match PyStr.chars s with
              | c :: _ => inr (JStr c)
              | [] => inl IndexError
              end
  | JObj _ => inl KeyError
  | _ => inl TypeError
  end%list.

(** [for x in v]: the items of a list, the keys of a dictionary, the
    characters of a string. *)
Definition iter (v : value) : result (list value) :=
  match v with
  | JArr l => inr l
  | JObj m => inr (map (fun kv => JStr (fst kv)) m)
  | JStr s => inr (map JStr (PyStr.chars s))
  | _ => inl TypeError
  end.

(** [needle in v] for a string [needle]. *)
Definition contains (needle : string) (v : value) : result bool :=
  match v with
  | JStr s => inr (PyStr.contains needle s)
  | JArr l =>
      inr (existsb (fun x => match x with
                             | JStr s => String.eqb needle s
                             | _ => false
                             end) l)
  | JObj m => inr (match lookup m needle with Some _ => true | None => false end)
  | _ => inl TypeError
  end.

(** [isinstance(v, str)]. *)
Definition is_str (v : value) : bool :=
  match v with JStr _ => true | _ => false end.

(** [re.search(pattern, v)] with the group that starts [skip] characters
    into the match: the text must be a string. *)
Definition re_search (items : list Re.item) (skip : nat) (v : value)
  : result (option string) :=
  match v with
  | JStr s =>
      inr (match Re.search items s with
           | Some (start, len) => Some (substring (start + skip) (len - skip) s)
           | None => None
           end)
  | _ => inl TypeError
  end.

End Py.

(** ** Effects: requests, pauses and exceptions *)

Module Eff.

(** The five endpoints, each with the parameters the code sends. *)
Inductive request : Type :=
| ESearch (term : string) (retmax retstart : Z)  (* esearch.fcgi, db=pubmed, retmode=json *)
| EFetch (id : string)                           (* efetch.fcgi, db=pubmed, retmode=xml *)
| CrossRef (doi : string)                        (* api.crossref.org/works/{doi} *)
| EuropePMCSearch (pmid : string)                (* europepmc search, EXT_ID:{pmid} AND SRC:MED *)
| EuropePMCEmails (pmid : string).               (* europepmc MED/{pmid}/emails/json *)

Inductive event : Type :=
| Get (r : request)
| Sleep (ms : Z).

Definition trace : Type := list event.

(** A response body: decodable as JSON, parseable as XML, or neither. *)
Inductive body : Type :=
| Json (v : Py.value)
| Xml (root : ET.Element)
| Garbled.

Record response : Type := Response { status_code : Z; content : body }.

(** The remote services: given the trace so far and a request, a response,
    or [None] when [requests.get] raises. *)
Definition remote : Type := trace -> request -> option response.

(** A computation that may raise and that extends the trace. *)
Definition M (A : Type) : Type := trace -> Py.result A * trace.

Definition ret {A} (a : A) : M A := fun tr => (inr a, tr).

Definition bind {A B} (m : M A) (k : A -> M B) : M B :=
  fun tr =>
    match m tr with
    | (inl e, tr') => (inl e, tr')
    | (inr a, tr') => k a tr'
    end.

(** A pure step that may raise. *)
Definition lift {A} (r : Py.result A) : M A := fun tr => (r, tr).

(** [try: m except Exception: h]. *)
Definition try_except {A} (m : M A) (h : M A) : M A :=
  fun tr =>
    match m tr with
    | (inl _, tr') => h tr'
    | (inr a, tr') => (inr a, tr')
    end.

(** [time.sleep], the pause in milliseconds. *)
Definition sleep (ms : Z) : M unit := fun tr => (inr tt, tr ++ [Sleep ms])%list.

(** [resp.json()]. *)
Definition json (resp : response) : Py.result Py.value :=
  match content resp with
  | Json v => inr v
  | _ => inl Py.ValueError
  end.

(** [ET.fromstring(resp.content)]. *)
Definition fromstring (resp : response) : Py.result ET.Element :=
  match content resp with
  | Xml root => inr root
  | _ => inl Py.ParseError
  end.

(** [resp.raise_for_status()]: statuses 400 to 599 raise. *)
Definition raise_for_status (resp : response) : Py.result unit :=
  if (400 <=? status_code resp)%Z && (status_code resp <? 600)%Z
  then inl Py.HTTPError else inr tt.

(** The same computation with [f] applied to its result. *)
Definition fmap {A B} (f : A -> B) (m : M A) : M B :=
  fun tr =>
    match m tr with
    | (inl e, tr') => (inl e, tr')
    | (inr a, tr') => (inr (f a), tr')
    end.

(** [for x in l: s = body(s, x)]. *)
Fixpoint for_each {A S} (l : list A) (body : S -> A -> M S) (s : S) : M S :=
  match l with
  | [] => ret s
  | x :: rest => bind (body s x) (for_each rest body)
  end%list.

(** The requests of a trace, in order. *)
Definition requests (tr : trace) : list request :=
  flat_map (fun ev => match ev with Get r => [r] | Sleep _ => [] end)%list tr.

End Eff.

Notation "x <- m ;; k" := (Eff.bind m (fun x => k))
  (at level 61, m at next level, right associativity).

Notation "'let?' x := r 'in' k" :=
  (match r with inl e => inl e | inr x => k end)
  (at level 10, x name, r at level 100, k at level 200).

Record ParsedRecord : Type := {
  PubmedID : option string;
  Title : string;
  PublicationDate : string;
  NonAcademicAuthors : string;        (* "Non-academic Author(s)" *)
  CompanyAffiliations : string;       (* "Company Affiliation(s)" *)
  CorrespondingAuthorEmail : Py.value (* "Corresponding Author Email" *)
}.

(** The three lists the author loop of [parse_pubmed_article] fills. *)
Record collected : Type := {
  non_acad_authors : list string;
  company_affils : list string;
  possible_emails : list string
}.

(* Add throttle constant for PubMed E-utilities (max 3 requests/sec without API key) *)
Definition THROTTLE_SECONDS : Z := 340.   (* 0.34 s *)

Definition RESOLVER_DELAY : Z := 200.     (* time.sleep(0.2) *)

Section Pipeline.

(** [str.lower] and [str.strip]. *)
Variables lower strip : string -> string.

(** [int(v)] on a decoded value. *)
Variable py_int : Py.value -> Py.result Z.

Variable service : Eff.remote.

(** [requests.get]: the request is recorded, the service answers. *)
Definition http_get (r : Eff.request) : Eff.M Eff.response :=
  fun tr =>
    (match service tr r with
     | Some resp => inr resp
     | None => inl Py.RequestException
     end, tr ++ [Eff.Get r])%list.

(** *** Affiliation classifier *)

(** Return True if the affiliation is likely non-academic (pharma/biotech). *)
Definition is_non_academic_affiliation (affil : option string) : bool :=
  match affil with
  | None => false
  | Some a =>
      if negb (PyStr.truthy a) then false
      else
        let affil_lower := lower a in
        if any_keyword ACADEMIC_KEYWORDS affil_lower then false
        else if any_keyword PHARMA_KEYWORDS affil_lower then true
        else false
  end.

(** *** Field extraction *)

(** Extract DOI from PubMedArticle XML if available. *)
Definition get_doi_from_pubmed_xml (article : ET.Element) : option string :=
  let article_ids := ET.findall_desc "ArticleId" article in
  match
    List.find
      (fun aid =>
         String.eqb (lower (ET.attrib_get (ET.attrib aid) "IdType" "")) "doi"
         && PyStr.otruthy (ET.text aid))
      article_ids
  with
  | Some aid => option_map strip (ET.text aid)
  | None => None
  end.

(** Extract publication date as 'Year-Month-Day'. *)
Definition extract_pub_date (article_info : ET.Element) : string :=
  match ET.find ["Journal"; "JournalIssue"; "PubDate"]%list article_info with
  | Some date =>
      let year := ET.findtext "Year" date in
      let month := ET.findtext "Month" date in
      let day := ET.findtext "Day" date in
      PyStr.join "-"
        (flat_map (fun o => match o with
                            | Some t => if PyStr.truthy t then [t] else []
                            | None => []
                            end)%list
                  [year; month; day]%list)
  | None => ""
  end.

(** Extract author name as 'LastName, Initials'; 'Unknown' if not available. *)
Definition extract_author_name (author : ET.Element) : string :=
  let last := ET.findtext "LastName" author in
  let initials := ET.findtext "Initials" author in
  match last, initials with
  | Some l, Some i =>
      if PyStr.truthy l && PyStr.truthy i then l ++ ", " ++ i
      else if PyStr.truthy l then l else "Unknown"
  | Some l, None => if PyStr.truthy l then l else "Unknown"
  | None, _ => "Unknown"
  end.

(** *** The author loop of [parse_pubmed_article] *)

(** The affiliation texts of an author, empty ones dropped. *)
Definition author_affils (author : ET.Element) : list string :=
  flat_map (fun affil => ET.text_fragment (ET.text affil))
           (ET.findall ["AffiliationInfo"; "Affiliation"]%list author).

(** The email embedded in the author element: the last "email" identifier
    with text, overwritten by the last electronic address with text. *)
Definition embedded_email (author : ET.Element) : option string :=
  let email_from_identifier :=
    fold_left
      (fun acc identifier =>
         if String.eqb (lower (ET.attrib_get (ET.attrib identifier) "Source" "")) "email"
            && PyStr.otruthy (ET.text identifier)
         then ET.text identifier else acc)
      (ET.findall ["Identifier"]%list author) None in
  fold_left
    (fun acc elec_addr =>
       if PyStr.otruthy (ET.text elec_addr) then ET.text elec_addr else acc)
    (ET.findall ["ElectronicAddress"]%list author) email_from_identifier.

(** One affiliation of one author. *)
Definition affil_step (author : ET.Element) (st : collected) (affil : string)
  : collected :=
  if is_non_academic_affiliation (Some affil) then
    let name := extract_author_name author in
    let authors' := (non_acad_authors st ++ [name])%list in
    let affils' := (company_affils st ++ [affil])%list in
    let emails' :=
      match extract_email_from_affil affil with
      | Some email =>
          if PyStr.truthy email then
            if PyStr.contains "corresponding" (lower affil)
            then (email :: possible_emails st)%list
            else (possible_emails st ++ [email])%list
          else possible_emails st
      | None => possible_emails st
      end in
    {| non_acad_authors := authors';
       company_affils := affils';
       possible_emails := emails' |}
  else st.

(** One author. *)
Definition author_step (st : collected) (author : ET.Element) : collected :=
  let affils := author_affils author in
  let email_from_identifier := embedded_email author in
  let st1 :=
    match email_from_identifier with
    | Some e =>
        if PyStr.truthy e
        then {| non_acad_authors := non_acad_authors st;
                company_affils := company_affils st;
                possible_emails := (possible_emails st ++ [e])%list |}
        else st
    | None => st
    end in
  match affils with
  | [] => st1                                   (* continue *)
  | _ => fold_left (affil_step author) affils st1
  end%list.

Definition empty_collected : collected :=
  {| non_acad_authors := []; company_affils := []; possible_emails := [] |}%list.

(** The [Author] elements the loop visits. *)
Definition article_authors (article_info : ET.Element) : list ET.Element :=
  match ET.find ["AuthorList"]%list article_info with
  | Some authors => ET.findall ["Author"]%list authors
  | None => []%list
  end.

Definition collect (article_info : ET.Element) : collected :=
  fold_left author_step (article_authors article_info) empty_collected.

(** [article_info], when the article has one. *)
Definition article_info_of (article : ET.Element) : option ET.Element :=
  match ET.find ["MedlineCitation"]%list article with
  | Some medline => ET.find ["Article"]%list medline
  | None => None
  end.

(** *** External email resolvers *)

(** First loop of [get_email_from_crossref]: the first author with a true
    [email] field; a string is returned as it is, anything else through
    [email[0]].  [Some v] is [return v], [None] is the end of the loop. *)
Fixpoint crossref_author_email (authors : list Py.value)
  : Py.result (option Py.value) :=
  match authors with
  | [] => inr None
  | author :: rest =>
      let? email := Py.get author "email" Py.JNull in
      if Py.truthy email then
        if Py.is_str email then inr (Some email)
        else let? first := Py.index0 email in inr (Some first)
      else crossref_author_email rest
  end%list.

(** Inner loop of the second pass: the affiliation entries of one author. *)
Fixpoint crossref_mailto_affils (affils : list Py.value)
  : Py.result (option Py.value) :=
  match affils with
  | [] => inr None
  | affil :: rest =>
      let? name := Py.get affil "name" (Py.JStr "") in
      let? hit := Py.contains "mailto:" name in
      if hit then
        let? name' := Py.getitem affil "name" in
        let? found := Py.re_search Re.MAILTO 7 name' in
        match found with
        | Some email => inr (Some (Py.JStr email))
        | None => crossref_mailto_affils rest
        end
      else crossref_mailto_affils rest
  end%list.

(** Second loop: the first "mailto:" address in an affiliation name. *)
Fixpoint crossref_mailto (authors : list Py.value)
  : Py.result (option Py.value) :=
  match authors with
  | [] => inr None
  | author :: rest =>
      let? affils := Py.get author "affiliation" (Py.JArr []) in
      let? entries := Py.iter affils in
      let? found := crossref_mailto_affils entries in
      match found with
      | Some email => inr (Some email)
      | None => crossref_mailto rest
      end
  end%list.

(** The body of the [try] of [get_email_from_crossref] after the status
    check. *)
Definition crossref_scan (resp : Eff.response) : Py.result Py.value :=
  let? data := Eff.json resp in
  let? message := Py.get data "message" (Py.JObj []) in
  let? authors := Py.get message "author" (Py.JArr []) in
  let? entries := Py.iter authors in
  let? direct := crossref_author_email entries in
  match direct with
  | Some email => inr email
  | None =>
      let? linked := crossref_mailto entries in
      inr (match linked with Some email => email | None => Py.JNull end)
  end.

(** Query CrossRef API for a DOI and try to extract a corresponding author
    email. *)
Definition get_email_from_crossref (doi : string) : Eff.M Py.value :=
  Eff.try_except
    (resp <- http_get (Eff.CrossRef doi) ;;
     if negb (Eff.status_code resp =? 200)%Z then Eff.ret Py.JNull
     else Eff.lift (crossref_scan resp))
    (Eff.ret Py.JNull).

(** The author loop of [get_email_from_europepmc]. *)
Fixpoint europepmc_author_email (authors : list Py.value)
  : Py.result (option Py.value) :=
  match authors with
  | [] => inr None
  | author :: rest =>
      let? has := Py.contains "email" author in
      if has then let? email := Py.getitem author "email" in inr (Some email)
      else europepmc_author_email rest
  end%list.

(** The result loop of [get_email_from_europepmc]. *)
Fixpoint europepmc_results (results : list Py.value)
  : Py.result (option Py.value) :=
  match results with
  | [] => inr None
  | result :: rest =>
      let? has_list := Py.contains "authorList" result in
      let? from_authors :=
        (if has_list then
           let? author_list := Py.getitem result "authorList" in
           let? authors := Py.getitem author_list "author" in
           let? entries := Py.iter authors in
           europepmc_author_email entries
         else inr None) in
      match from_authors with
      | Some email => inr (Some email)
      | None =>
          let? has_affil := Py.contains "affiliation" result in
          let? has_at :=
            (if has_affil then
               let? affil := Py.getitem result "affiliation" in
               Py.contains "@" affil
             else inr false) in
          if has_at then
            let? affil := Py.getitem result "affiliation" in
            let? found := Py.re_search Re.EMAIL 0 affil in
            match found with
            | Some email => inr (Some (Py.JStr email))
            | None => europepmc_results rest
            end
          else europepmc_results rest
      end
  end%list.

Definition europepmc_scan (resp : Eff.response) : Py.result Py.value :=
  let? data := Eff.json resp in
  let? result_list := Py.get data "resultList" (Py.JObj []) in
  let? results := Py.get result_list "result" (Py.JArr []) in
  if negb (Py.truthy results) then inr Py.JNull
  else
    let? entries := Py.iter results in
    let? found := europepmc_results entries in
    inr (match found with Some email => email | None => Py.JNull end).

(** Query Europe PMC API for a PubMed ID and try to extract a corresponding
    author email. *)
Definition get_email_from_europepmc (pmid : string) : Eff.M Py.value :=
  Eff.try_except
    (resp <- http_get (Eff.EuropePMCSearch pmid) ;;
     if negb (Eff.status_code resp =? 200)%Z then Eff.ret Py.JNull
     else Eff.lift (europepmc_scan resp))
    (Eff.ret Py.JNull).

Definition emails_scan (resp : Eff.response) : Py.result Py.value :=
  let? data := Eff.json resp in
  let? email_list := Py.get data "emailList" (Py.JObj []) in
  let? emails := Py.get email_list "email" (Py.JArr []) in
  if Py.truthy emails then Py.index0 emails else inr Py.JNull.

(** Query Europe PMC's /emails endpoint for a PubMed ID. *)
Definition get_email_from_europepmc_emails_endpoint (pmid : string)
  : Eff.M Py.value :=
  Eff.try_except
    (resp <- http_get (Eff.EuropePMCEmails pmid) ;;
     if negb (Eff.status_code resp =? 200)%Z then Eff.ret Py.JNull
     else Eff.lift (emails_scan resp))
    (Eff.ret Py.JNull).

(** *** Article parser *)

(** The [else] branch of the email resolution: the resolver cascade. *)
Definition resolve_email (article medline : ET.Element) : Eff.M Py.value :=
  let doi := get_doi_from_pubmed_xml article in
  let pmid := ET.findtext "PMID" medline in
  e1 <- match doi with
        | Some d =>
            if PyStr.truthy d then
              e <- get_email_from_crossref d ;;
              _ <- Eff.sleep RESOLVER_DELAY ;;
              Eff.ret e
            else Eff.ret Py.JNull
        | None => Eff.ret Py.JNull
        end ;;
  e2 <- match pmid with
        | Some p =>
            if negb (Py.truthy e1) && PyStr.truthy p then
              e <- get_email_from_europepmc p ;;
              _ <- Eff.sleep RESOLVER_DELAY ;;
              Eff.ret e
            else Eff.ret e1
        | None => Eff.ret e1
        end ;;
  match pmid with
  | Some p =>
      if negb (Py.truthy e2) && PyStr.truthy p then
        e <- get_email_from_europepmc_emails_endpoint p ;;
        _ <- Eff.sleep RESOLVER_DELAY ;;
        Eff.ret e
      else Eff.ret e2
  | None => Eff.ret e2
  end.

(** Parse a PubMedArticle XML element and extract required fields.
    Returns a record or None if no non-academic author is found. *)
Definition parse_pubmed_article (article : ET.Element)
  : Eff.M (option ParsedRecord) :=
  match ET.find ["MedlineCitation"]%list article with
  | None => Eff.ret None
  | Some medline =>
      match ET.find ["Article"]%list medline with
      | None => Eff.ret None
      | Some article_info =>
          let pmid := ET.findtext "PMID" medline in
          let title :=
            match ET.find ["ArticleTitle"]%list article_info with
            | Some title_elem => strip (PyStr.join "" (ET.itertext title_elem))
            | None => ""
            end in
          let pub_date := extract_pub_date article_info in
          let st := collect article_info in
          match non_acad_authors st with
          | [] => Eff.ret None
          | _ =>
              corresponding_email <-
                match possible_emails st with
                | first :: _ => Eff.ret (Py.JStr first)
                | [] => resolve_email article medline
                end ;;
              Eff.ret (Some {|
                PubmedID := pmid;
                Title := title;
                PublicationDate := pub_date;
                NonAcademicAuthors := PyStr.join "; " (non_acad_authors st);
                CompanyAffiliations := PyStr.join "; " (company_affils st);
                CorrespondingAuthorEmail :=
                  if Py.truthy corresponding_email then corresponding_email
                  else Py.JStr "" |})
          end%list
      end
  end.

(** *** Search/fetch orchestrator *)

Definition BATCH_SIZE : nat := 100.  (* NCBI allows up to 100 IDs per EFetch request *)

(** [range(0, stop, step)]. *)
Definition range_step (stop step : nat) : list nat :=
  map (fun k => k * step) (seq 0 ((stop + step - 1) / step)).

(** The inner loop of [fetch_pubmed_details]: parse every article of one
    response and keep the records. *)
Definition parse_articles (articles : list ET.Element)
  (results : list ParsedRecord) : Eff.M (list ParsedRecord) :=
  Eff.for_each articles
    (fun results article =>
       result <- parse_pubmed_article article ;;
       Eff.ret (match result with
                | Some r => (results ++ [r])%list
                | None => results
                end))
    results.

(** One iteration of the batch loop, for the offset [i]. *)
Definition fetch_batch (pubmed_ids : list string)
  (results : list ParsedRecord) (i : nat) : Eff.M (list ParsedRecord) :=
  let batch_ids := firstn BATCH_SIZE (skipn i pubmed_ids) in
  resp <- http_get (Eff.EFetch (PyStr.join "," batch_ids)) ;;
  _ <- Eff.lift (Eff.raise_for_status resp) ;;
  _ <- (if (i + BATCH_SIZE <? List.length pubmed_ids)%nat
        then Eff.sleep THROTTLE_SECONDS else Eff.ret tt) ;;
  root <- Eff.lift (Eff.fromstring resp) ;;
  parse_articles (ET.findall_desc "PubmedArticle" root) results.

(** Fetch details for a list of PubMed IDs using the EFetch API. *)
Definition fetch_pubmed_details (pubmed_ids : list string)
  : Eff.M (list ParsedRecord) :=
  match pubmed_ids with
  | [] => Eff.ret []
  | _ =>
      Eff.for_each (range_step (List.length pubmed_ids) BATCH_SIZE)
        (fetch_batch pubmed_ids) []
  end%list.

(** The [while True] loop of [fetch_pubmed_ids]; [None] when the fuel runs
    out before the loop breaks. *)
Fixpoint fetch_pages (fuel : nat) (query : string) (retmax : Z)
  (all_ids : list Py.value) (retstart : Z) (total : option Z)
  : Eff.M (option (list Py.value)) :=
  match fuel with
  | O => Eff.ret None
  | S fuel' =>
      resp <- http_get (Eff.ESearch query retmax retstart) ;;
      _ <- Eff.lift (Eff.raise_for_status resp) ;;
      _ <- Eff.sleep THROTTLE_SECONDS ;;
      data <- Eff.lift (Eff.json resp) ;;
      total' <- match total with
                | None =>
                    Eff.lift (let? result := Py.getitem data "esearchresult" in
                              let? count := Py.getitem result "count" in
                              py_int count)
                | Some t => Eff.ret t
                end ;;
      ids <- Eff.lift (let? result := Py.getitem data "esearchresult" in
                       let? idlist := Py.get result "idlist" (Py.JArr []) in
                       Py.iter idlist) ;;
      let all_ids' := (all_ids ++ ids)%list in
      let retstart' := (retstart + retmax)%Z in
      if (retstart' >=? total')%Z then Eff.ret (Some all_ids')
      else fetch_pages fuel' query retmax all_ids' retstart' (Some total')
  end.

(** Clean up query input to avoid invalid characters. *)
Definition clean_query (query : string) : string :=
  PyStr.replace_char (ascii_of_nat 9) " "
    (PyStr.replace_char (ascii_of_nat 10) " " (strip query)).

(** Fetch all PubMed IDs for a given query using the ESearch API. *)
Definition fetch_pubmed_ids (fuel : nat) (query : string) (retmax : Z)
  : Eff.M (option (list Py.value)) :=
  fetch_pages fuel (clean_query query) retmax [] 0%Z None.

End Pipeline.

(** [int] on the decoded values: an integer is itself, a boolean is 0 or
    1, a string of decimal digits with an optional sign is its number. *)
Module PyInt.

Fixpoint digits (s : string) (acc : Z) : option Z :=
  match s with
  | EmptyString => Some acc
  | String c rest =>
      if PyStr.is_digit c
      then digits rest (10 * acc + Z.of_nat (nat_of_ascii c - 48))%Z
      else None
  end.

Definition unsigned (s : string) : option Z :=
  match s with
  | EmptyString => None
  | _ => digits s 0%Z
  end.

Definition dec_int (v : Py.value) : Py.result Z :=
  match v with
  | Py.JNum n => inr n
  | Py.JBool b => inr (if b then 1 else 0)%Z
  | Py.JStr (String "-" rest) =>
      match unsigned rest with Some n => inr (- n)%Z | None => inl Py.ValueError end
  | Py.JStr (String "+" rest) =>
      match unsigned rest with Some n => inr n | None => inl Py.ValueError end
  | Py.JStr s =>
      match unsigned s with Some n => inr n | None => inl Py.ValueError end
  | _ => inl Py.TypeError
  end.

End PyInt.

(** ** Vocabulary of the specification *)

(** [needle] occurs in [hay]. *)
Definition substring_of (needle hay : string) : Prop :=
  exists pre post, hay = pre ++ needle ++ post.

(** Some keyword of the list occurs in the text. *)
Definition has_keyword (keywords : list string) (text : string) : Prop :=
  exists word, In word keywords /\ substring_of word text.

(** Every character of [s] is in the class. *)
Fixpoint all_chars (p : ascii -> bool) (s : string) : bool :=
  match s with
  | EmptyString => true
  | String c rest => p c && all_chars p rest
  end.

(** An email-shaped string: a non-empty local part of [[A-Za-z0-9._%+-]],
    an "@", a non-empty domain of [[A-Za-z0-9.-]], a "." and at least two
    letters. *)
Definition email_shaped (e : string) : Prop :=
  exists l d t,
    e = l ++ "@" ++ d ++ "." ++ t
    /\ all_chars Re.local_char l = true /\ l <> ""
    /\ all_chars Re.domain_char d = true /\ d <> ""
    /\ all_chars Re.alpha t = true /\ 2 <= String.length t.

(** The items match a prefix of [s] of length [n]: each item takes a number
    of characters of its class within its bounds. *)
Inductive Matches : list Re.item -> string -> nat -> Prop :=
| Matches_nil s : Matches [] s 0
| Matches_cons it rest s k n :
    Re.rmin it <= k ->
    k <= Re.cap (Re.run (Re.cls it) s) (Re.rmax it) ->
    Matches rest (PyStr.drop k s) n ->
    Matches (it :: rest) s (k + n).

Section ParserVocabulary.

Variable lower : string -> string.

(** The affiliations of an author the classifier accepts. *)
Definition qualifying_affils (author : ET.Element) : list string :=
  filter (fun affil => is_non_academic_affiliation lower (Some affil))
         (author_affils author).

(** The (name, affiliation) hits of a list of authors, in document order:
    each author gives one pair per qualifying affiliation. *)
Definition non_academic_hits (authors : list ET.Element)
  : list (string * string) :=
  flat_map (fun author =>
              map (pair (extract_author_name author)) (qualifying_affils author))
           authors.

(** Some author of the article has an affiliation classified
    non-academic. *)
Definition has_non_academic_author (article : ET.Element) : Prop :=
  exists info author affil,
    article_info_of article = Some info
    /\ In author (article_authors info)
    /\ In affil (ET.findall ["AffiliationInfo"; "Affiliation"]%list author)
    /\ is_non_academic_affiliation lower (ET.text affil) = true.

(** The email of a qualifying affiliation, by kind: [true] selects the
    affiliations that contain "corresponding", [false] the others. *)
Definition affil_email (corresponding : bool) (affil : string) : list string :=
  if is_non_academic_affiliation lower (Some affil)
     && Bool.eqb (PyStr.contains "corresponding" (lower affil)) corresponding
  then match extract_email_from_affil affil with
       | Some email => [email]
       | None => []
       end
  else [].

(** The emails of the "corresponding" qualifying affiliations of the
    article, in document order. *)
Definition corresponding_emails (authors : list ET.Element) : list string :=
  flat_map (fun author => flat_map (affil_email true) (author_affils author))
           authors.

(** The other candidates of an author: the embedded email, then the emails
    of the qualifying affiliations without "corresponding". *)
Definition other_emails (author : ET.Element) : list string :=
  (match embedded_email lower author with
   | Some e => if PyStr.truthy e then [e] else []
   | None => []
   end ++ flat_map (affil_email false) (author_affils author))%list.

(** The electronic addresses of an author that carry text. *)
Definition electronic_addresses (author : ET.Element) : list ET.Element :=
  filter (fun e => PyStr.otruthy (ET.text e))
         (ET.findall ["ElectronicAddress"]%list author).

(** The "email" identifiers of an author that carry text. *)
Definition email_identifiers (author : ET.Element) : list ET.Element :=
  filter (fun e =>
            String.eqb (lower (ET.attrib_get (ET.attrib e) "Source" "")) "email"
            && PyStr.otruthy (ET.text e))
         (ET.findall ["Identifier"]%list author).

End ParserVocabulary.

(** What a resolver returns for an answer of its service: the value its
    scan finds in a 200 response, and none for no answer, another status or
    a scan that raises. *)
Definition resolver_answer (scan : Eff.response -> Py.result Py.value)
  (answer : option Eff.response) : Py.value :=
  match answer with
  | Some resp =>
      if (Eff.status_code resp =? 200)%Z
      then match scan resp with inr v => v | inl _ => Py.JNull end
      else Py.JNull
  | None => Py.JNull
  end.

(** A string that is present and non-empty. *)
Definition present (o : option string) : option string :=
  match o with
  | Some s => if PyStr.truthy s then Some s else None
  | None => None
  end.

(** [corresponding_email or ""]. *)
Definition or_empty (v : Py.value) : Py.value :=
  if Py.truthy v then v else Py.JStr "".

(** A resolver run absorbs every failure of its service: from any trace it
    returns a value (it does not raise) after exactly one request, and the
    value is none when [requests.get] raises, when the status is not 200,
    when the body is not JSON and when the scan of the decoded body
    raises. *)
Definition absorbs_failures (service : Eff.remote) (run : Eff.M Py.value)
  (req : Eff.request) (scan : Eff.response -> Py.result Py.value) : Prop :=
  forall tr,
    exists v,
      run tr = (inr v, (tr ++ [Eff.Get req])%list)
      /\ (service tr req = None -> v = Py.JNull)
      /\ (forall resp, service tr req = Some resp ->
            Eff.status_code resp <> 200%Z -> v = Py.JNull)
      /\ (forall resp, service tr req = Some resp ->
            (forall j, Eff.content resp <> Eff.Json j) -> v = Py.JNull)
      /\ (forall resp e, service tr req = Some resp ->
            scan resp = inl e -> v = Py.JNull).

(** *** The resolver cascade in the words of the specification

    A sequence of lookups applied in order, each followed by the fixed
    pause, with early termination on the first non-empty value. *)

Definition olist {A : Type} (o : option A) : list A :=
  match o with Some a => [a] | None => [] end.

(** A stage: the request of a resolver and the scan of its response. *)
Definition stage : Type := (Eff.request * (Eff.response -> Py.result Py.value))%type.

(** The events of running the given stages. *)
Definition stage_events (stages : list stage) : Eff.trace :=
  flat_map (fun s => [Eff.Get (fst s); Eff.Sleep RESOLVER_DELAY]) stages.

(** CrossRef by DOI when a DOI is present, then the Europe PMC search and
    the Europe PMC emails endpoint by PMID when a PMID is present. *)
Definition resolver_stages (doi pmid : option string) : list stage :=
  (olist (option_map (fun d => (Eff.CrossRef d, crossref_scan)) doi)
   ++ olist (option_map (fun p => (Eff.EuropePMCSearch p, europepmc_scan)) pmid)
   ++ olist (option_map (fun p => (Eff.EuropePMCEmails p, emails_scan)) pmid))%list.

Fixpoint spec_cascade (service : Eff.remote) (stages : list stage)
  (tr : Eff.trace) : Py.value * Eff.trace :=
  match stages with
  | [] => (Py.JNull, tr)
  | (req, scan) :: rest =>
      let v := resolver_answer scan (service tr req) in
      let tr' := (tr ++ [Eff.Get req; Eff.Sleep RESOLVER_DELAY])%list in
      if Py.truthy v then (v, tr') else spec_cascade service rest tr'
  end%list.

(** The record [parse_pubmed_article] builds once the email is resolved. *)
Definition make_record (lower strip : string -> string)
  (medline info : ET.Element) (email : Py.value) : ParsedRecord :=
  {| PubmedID := ET.findtext "PMID" medline;
     Title := match ET.find ["ArticleTitle"]%list info with
              | Some title_elem => strip (PyStr.join "" (ET.itertext title_elem))
              | None => ""
              end;
     PublicationDate := extract_pub_date info;
     NonAcademicAuthors := PyStr.join "; " (non_acad_authors (collect lower info));
     CompanyAffiliations := PyStr.join "; " (company_affils (collect lower info));
     CorrespondingAuthorEmail := or_empty email |}.

(** *** The detail fetch in the words of the specification

    The ID list is split into batches; one request is issued per batch,
    with the throttle pause between batches but not after the last; every
    returned article is parsed, the none-results are dropped, and the
    records are concatenated. *)

Section DetailsSpec.

Variables lower strip : string -> string.
Variable service : Eff.remote.

(** Parse the articles in order and keep the records. *)
Fixpoint parse_all (articles : list ET.Element) : Eff.M (list ParsedRecord) :=
  match articles with
  | [] => Eff.ret []
  | article :: rest =>
      result <- parse_pubmed_article lower strip service article ;;
      records <- parse_all rest ;;
      Eff.ret (olist result ++ records)%list
  end%list.

(** One request for a batch; [more] tells that another batch follows. *)
Definition request_batch (batch : list string) (more : bool)
  : Eff.M (list ParsedRecord) :=
  resp <- http_get service (Eff.EFetch (PyStr.join "," batch)) ;;
  _ <- Eff.lift (Eff.raise_for_status resp) ;;
  _ <- (if more then Eff.sleep THROTTLE_SECONDS else Eff.ret tt) ;;
  root <- Eff.lift (Eff.fromstring resp) ;;
  parse_all (ET.findall_desc "PubmedArticle" root).

Fixpoint spec_details (batches : list (list string))
  : Eff.M (list ParsedRecord) :=
  match batches with
  | [] => Eff.ret []
  | batch :: rest =>
      records <- request_batch batch (match rest with [] => false | _ => true end) ;;
      more <- spec_details rest ;;
      Eff.ret (records ++ more)%list
  end%list.

End DetailsSpec.

(** The batch that starts at offset [i]: [pubmed_ids[i:i + BATCH_SIZE]]. *)
Definition batch_at (pubmed_ids : list string) (i : nat) : list string :=
  firstn BATCH_SIZE (skipn i pubmed_ids).

(** The batches of [fetch_pubmed_details], in order. *)
Definition id_batches (pubmed_ids : list string) : list (list string) :=
  map (batch_at pubmed_ids) (range_step (List.length pubmed_ids) BATCH_SIZE).

(** The [id] parameters of the EFetch requests of a trace, in order. *)
Definition efetch_ids (tr : Eff.trace) : list string :=
  flat_map (fun req => match req with Eff.EFetch id => [id] | _ => [] end)%list
           (Eff.requests tr).

(** The detail service answers every EFetch request, whenever it comes,
    with a status outside 400-599 and an XML body. *)
Definition efetch_available (service : Eff.remote) : Prop :=
  forall tr id,
    exists status root,
      service tr (Eff.EFetch id) = Some (Eff.Response status (Eff.Xml root))
      /\ ((400 <=? status)%Z && (status <? 600)%Z) = false.

(** *** Search pages *)

(** A search response that passes the status check and whose decoded body
    holds, under "esearchresult", an "idlist" that yields [ids]. *)
Definition page_ids (resp : Eff.response) (ids : list Py.value) : Prop :=
  Eff.raise_for_status resp = inr tt
  /\ exists data result idlist,
       Eff.json resp = inr data
       /\ Py.getitem data "esearchresult" = inr result
       /\ Py.get result "idlist" (Py.JArr []) = inr idlist
       /\ Py.iter idlist = inr ids.

(** A search response whose "count" field converts to [total]. *)
Definition page_count (py_int : Py.value -> Py.result Z)
  (resp : Eff.response) (total : Z) : Prop :=
  exists data result count,
    Eff.json resp = inr data
    /\ Py.getitem data "esearchresult" = inr result
    /\ Py.getitem result "count" = inr count
    /\ py_int count = inr total.

(** The offset of page [k]. *)
Definition page_offset (retmax : Z) (k : nat) : Z := (Z.of_nat k * retmax)%Z.

(** The events of the first [n] page requests: each request is followed by
    the throttle pause. *)
Definition page_events (query : string) (retmax : Z) (n : nat) : Eff.trace :=
  flat_map (fun k => [Eff.Get (Eff.ESearch query retmax (page_offset retmax k));
                      Eff.Sleep THROTTLE_SECONDS])
           (seq 0 n).

(** The number of pages for a total: at least one, and as many as it takes
    for the offset to reach the total. *)
Definition pages_needed (total retmax : Z) : nat :=
  Z.to_nat (Z.max 1 ((total + retmax - 1) / retmax)).

(** ** Sample data *)

Module Sample.

Definition leaf (tag text : string) : ET.Element :=
  ET.Elem tag [] (Some text) None [].

Definition node (tag : string) (children : list ET.Element) : ET.Element :=
  ET.Elem tag [] None None children.

Definition author (last initials : string) (extra : list ET.Element)
  (affils : list string) : ET.Element :=
  node "Author"
    ([leaf "LastName" last; leaf "Initials" initials] ++ extra ++
     map (fun a => node "AffiliationInfo" [leaf "Affiliation" a]) affils)%list.

Definition info (authors : list ET.Element) : ET.Element :=
  node "Article"
    [ ET.Elem "ArticleTitle" [] (Some "Effects of ") None
        [ ET.Elem "i" [] (Some "X") (Some " on Y") [] ];
      node "AuthorList" authors ]%list.

Definition medline (pmid : string) (authors : list ET.Element) : ET.Element :=
  node "MedlineCitation" [ leaf "PMID" pmid; info authors ]%list.

Definition article (pmid : string) (ids : list ET.Element)
  (authors : list ET.Element) : ET.Element :=
  node "PubmedArticle"
    [ medline pmid authors;
      node "PubmedData" [ node "ArticleIdList" ids ] ]%list.

Definition doi_id (doi : string) : ET.Element :=
  ET.Elem "ArticleId" [("IdType", "doi")] (Some doi) None [].

(** A service that never answers. *)
Definition offline : Eff.remote := fun _ _ => None.

Definition acme_corresponding : string :=
  "Acme Pharma Inc, corresponding author a@acme.com".
Definition univ_corresponding : string :=
  "University of X. Corresponding author: r@univ.edu".
Definition beta_corresponding : string :=
  "Beta Biotech Ltd, Corresponding: c@beta.com".

(** Three authors: a company affiliation naming a corresponding author, a
    university one doing the same, and a second company one. *)
Definition three_authors : list ET.Element :=
  [ author "Doe" "J" [] [acme_corresponding];
    author "Roe" "R" [] [univ_corresponding];
    author "Poe" "E" [] [beta_corresponding; "Gamma LLC"] ]%list.

(** One company author without any address; the article has a DOI. *)
Definition no_inline_email : list ET.Element :=
  [ author "Doe" "J" [] ["Acme Pharma Inc"] ]%list.

(** An "email" identifier and an electronic address on one author, whose
    only affiliation is academic. *)
Definition both_fields : ET.Element :=
  author "Roe" "R"
    [ ET.Elem "Identifier" [("Source", "Email")] (Some "id@univ.edu") None [];
      leaf "ElectronicAddress" "addr@univ.edu" ]
    ["University of X"].

(** A service where only CrossRef answers, with an author email. *)
Definition crossref_answers : Eff.remote :=
  fun _ req =>
    match req with
    | Eff.CrossRef _ =>
        Some (Eff.Response 200
                (Eff.Json
                   (Py.JObj
                      [("message",
                        Py.JObj
                          [("author",
                            Py.JArr
                              [Py.JObj [("family", Py.JStr "Doe")];
                               Py.JObj [("email", Py.JStr "jane@acme.com")]])])])))
    | _ => None
    end.

(** A service that answers every request with status 500. *)
Definition failing : Eff.remote :=
  fun _ _ => Some (Eff.Response 500 Eff.Garbled).

(** A service that answers 200 with a JSON list where an object is
    expected. *)
Definition misshapen : Eff.remote :=
  fun _ _ => Some (Eff.Response 200 (Eff.Json (Py.JArr [Py.JNum 1]))).

(** A detail service: every EFetch request is answered with one document
    that holds the three-author article and an academic one. *)
Definition pubmed : Eff.remote :=
  fun _ req =>
    match req with
    | Eff.EFetch _ =>
        Some (Eff.Response 200
                (Eff.Xml (node "PubmedArticleSet"
                            [ article "123" [] three_authors;
                              article "7" [] [both_fields] ])))
    | _ => None
    end.

(** The identifiers [start], [start+1], ..., as JSON strings of digits. *)
Definition id_strings (start n : nat) : list Py.value :=
  map (fun k => Py.JStr (NilZero.string_of_uint (Nat.to_uint k))) (seq start n).

(** A search service with 250 results: page at offset [retstart] holds the
    identifiers from [retstart] on, at most [retmax] of them; only the first
    page reports the true count. *)
Definition esearch : Eff.remote :=
  fun _ req =>
    match req with
    | Eff.ESearch _ retmax retstart =>
        let start := Z.to_nat retstart in
        let n := Nat.min (Z.to_nat retmax) (250 - start) in
        Some (Eff.Response 200
                (Eff.Json
                   (Py.JObj
                      [("header", Py.JObj [("type", Py.JStr "esearch")]);
                       ("esearchresult",
                        Py.JObj
                          [("count",
                            Py.JStr (if (retstart =? 0)%Z then "250" else "0"));
                           ("idlist", Py.JArr (id_strings start n))])])))
    | _ => None
    end.

(** A search service that reports 250 results on every page and lists no
    identifier. *)
Definition esearch_empty_pages : Eff.remote :=
  fun _ req =>
    match req with
    | Eff.ESearch _ _ _ =>
        Some (Eff.Response 200
                (Eff.Json
                   (Py.JObj
                      [("esearchresult",
                        Py.JObj [("count", Py.JStr "250");
                                 ("idlist", Py.JArr [])])])))
    | _ => None
    end.

(** A Europe PMC service: the search has one result with two authors, the
    second with an email, and an affiliation text with another address;
    the emails endpoint answers with a single string under "email". *)
Definition europepmc_answers : Eff.remote :=
  fun _ req =>
    match req with
    | Eff.EuropePMCSearch _ =>
        Some (Eff.Response 200
                (Eff.Json
                   (Py.JObj
                      [("resultList",
                        Py.JObj
                          [("result",
                            Py.JArr
                              [Py.JObj
                                 [("affiliation", Py.JStr "Acme, x@acme.org");
                                  ("authorList",
                                   Py.JObj
                                     [("author",
                                       Py.JArr
                                         [Py.JObj [("fullName", Py.JStr "Roe R")];
                                          Py.JObj [("fullName", Py.JStr "Doe J");
                                                   ("email", Py.JStr "doe@acme.com")]])])]])])])))
    | Eff.EuropePMCEmails _ =>
        Some (Eff.Response 200
                (Eff.Json
                   (Py.JObj
                      [("emailList",
                        Py.JObj [("email", Py.JStr "doe@acme.com")])])))
    | _ => None
    end.

End Sample.

(** ** Vocabulary of the further properties *)

(** A character an extracted address can hold: one of the local-part class
    or the "@". *)
Definition email_char (c : ascii) : bool :=
  Re.local_char c || Ascii.eqb c "@".

(** An [ArticleId] that [get_doi_from_pubmed_xml] accepts: type "doi"
    (case-insensitive) and some text. *)
Definition is_doi_id (lower : string -> string) (aid : ET.Element) : bool :=
  String.eqb (lower (ET.attrib_get (ET.attrib aid) "IdType" "")) "doi"
  && PyStr.otruthy (ET.text aid).

(** A request to one of the three email resolvers. *)
Definition is_resolver_request (req : Eff.request) : bool :=
  match req with
  | Eff.CrossRef _ | Eff.EuropePMCSearch _ | Eff.EuropePMCEmails _ => true
  | _ => false
  end.

(** The events of resolver calls: each request with its pause. *)
Definition resolver_events (reqs : list Eff.request) : Eff.trace :=
  flat_map (fun r => [Eff.Get r; Eff.Sleep RESOLVER_DELAY]) reqs.

(** The number of throttle pauses in a trace. *)
Definition throttle_pauses (tr : Eff.trace) : nat :=
  List.length
    (filter (fun ev => match ev with
                       | Eff.Sleep ms => (ms =? THROTTLE_SECONDS)%Z
                       | Eff.Get _ => false
                       end) tr).

(** A CrossRef author entry without a usable [email] field: an object whose
    [email] is missing or false. *)
Definition no_direct_email (v : Py.value) : Prop :=
  exists m,
    v = Py.JObj m
    /\ Py.truthy (match Py.lookup m "email" with
                  | Some x => x
                  | None => Py.JNull
                  end) = false.

(** A Europe PMC author entry without an [email] key. *)
Definition no_email_key (v : Py.value) : Prop :=
  exists m, v = Py.JObj m /\ Py.lookup m "email" = None.

(** The search service answers every page request for the query, whenever
    it comes, with a well-formed page that reports [total]. *)
Definition esearch_always (py_int : Py.value -> Py.result Z)
  (service : Eff.remote) (query : string) (retmax total : Z) : Prop :=
  forall tr retstart,
    exists resp ids,
      service tr (Eff.ESearch query retmax retstart) = Some resp
      /\ page_ids resp ids
      /\ page_count py_int resp total.

(** * Part II: properties *)

(** ** Strings *)

Lemma append_assoc (a b c : string) : (a ++ b) ++ c = a ++ b ++ c.
Proof. induction a as [|x a IH]; simpl; [reflexivity|now rewrite IH]. Qed.

Lemma append_nil_r (a : string) : a ++ "" = a.
Proof. induction a as [|x a IH]; simpl; [reflexivity|now rewrite IH]. Qed.

Lemma length_append (a b : string) :
  String.length (a ++ b) = String.length a + String.length b.
Proof. induction a as [|x a IH]; simpl; [reflexivity|now rewrite IH]. Qed.

Lemma drop_app_length (a b : string) : PyStr.drop (String.length a) (a ++ b) = b.
Proof. induction a as [|x a IH]; simpl; [now destruct b|assumption]. Qed.

Lemma take_app_length (a b : string) : PyStr.take (String.length a) (a ++ b) = a.
Proof. induction a as [|x a IH]; simpl; [now destruct b|now rewrite IH]. Qed.

Lemma take_drop (n : nat) (s : string) : PyStr.take n s ++ PyStr.drop n s = s.
Proof.
  revert s; induction n as [|n IH]; intros [|c s]; simpl; try reflexivity.
  now rewrite IH.
Qed.

Lemma length_take (n : nat) (s : string) :
  n <= String.length s -> String.length (PyStr.take n s) = n.
Proof.
  revert s; induction n as [|n IH]; intros [|c s]; simpl; intros H; try lia.
  rewrite IH; lia.
Qed.

Lemma drop_drop (a b : nat) (s : string) :
  PyStr.drop a (PyStr.drop b s) = PyStr.drop (b + a) s.
Proof.
  revert s; induction b as [|b IH]; intros s; simpl; [reflexivity|].
  destruct s as [|c s]; [now destruct a|apply IH].
Qed.

Lemma drop_0 (s : string) : PyStr.drop 0 s = s.
Proof. now destruct s. Qed.

Lemma substring_take_drop (n m : nat) (s : string) :
  substring n m s = PyStr.take m (PyStr.drop n s).
Proof.
  revert s; induction n as [|n IH]; intros s.
  - rewrite drop_0. revert s. induction m as [|m IHm]; intros [|c s]; simpl;
      try reflexivity. now rewrite IHm.
  - destruct s as [|c s]; simpl; [now destruct m|apply IH].
Qed.

Lemma startswith_app (p s : string) : PyStr.startswith p (p ++ s) = true.
Proof.
  induction p as [|c p IH]; simpl; [reflexivity|].
  now rewrite Ascii.eqb_refl.
Qed.

Lemma startswith_split (p s : string) :
  PyStr.startswith p s = true -> exists t, s = p ++ t.
Proof.
  revert s; induction p as [|c p IH]; intros s H.
  - now exists s.
  - destruct s as [|d s]; simpl in H; [discriminate|].
    apply andb_true_iff in H as [Hc Hp].
    apply Ascii.eqb_eq in Hc as ->.
    destruct (IH _ Hp) as [t ->]. now exists t.
Qed.

(** [contains] decides the substring relation. *)
Lemma contains_spec (needle hay : string) :
  PyStr.contains needle hay = true <-> substring_of needle hay.
Proof.
  unfold substring_of. split.
  - induction hay as [|c hay IH]; simpl; intros H.
    + rewrite orb_false_r in H. apply startswith_split in H as [t ->].
      now exists "", t.
    + apply orb_true_iff in H as [H|H].
      * apply startswith_split in H as [t ->]. now exists "", t.
      * destruct (IH H) as (pre & post & ->). now exists (String c pre), post.
  - intros (pre & post & ->). induction pre as [|c pre IH].
    + change ("" ++ needle ++ post) with (needle ++ post).
      destruct (needle ++ post) eqn:E; simpl; rewrite <- E, startswith_app;
        reflexivity.
    + simpl. simpl in IH. rewrite IH. apply orb_true_r.
Qed.

Lemma any_keyword_spec (keywords : list string) (text : string) :
  any_keyword keywords text = true <-> has_keyword keywords text.
Proof.
  unfold any_keyword, has_keyword. rewrite existsb_exists.
  split; intros (w & Hin & H); exists w; split; auto; now apply contains_spec.
Qed.

Lemma any_keyword_false (keywords : list string) (text : string) :
  any_keyword keywords text = false <-> ~ has_keyword keywords text.
Proof.
  rewrite <- any_keyword_spec. destruct (any_keyword keywords text); split;
    congruence.
Qed.

(** ** Affiliation classifier *)

Section ClassifierFacts.

Variable lower : string -> string.

(** C3. The classifier answers false on an absent or empty affiliation,
    false as soon as the lowered text holds an academic keyword (also when
    it holds a commercial one), false when it holds no commercial keyword,
    and true exactly on a non-empty text with no academic keyword and some
    commercial keyword. *)
Theorem is_non_academic_affiliation_spec :
  is_non_academic_affiliation lower None = false
  /\ is_non_academic_affiliation lower (Some "") = false
  /\ (forall a, has_keyword ACADEMIC_KEYWORDS (lower a) ->
        is_non_academic_affiliation lower (Some a) = false)
  /\ (forall a, ~ has_keyword PHARMA_KEYWORDS (lower a) ->
        is_non_academic_affiliation lower (Some a) = false)
  /\ (forall affil,
        is_non_academic_affiliation lower affil = true <->
        exists a, affil = Some a /\ a <> ""
                  /\ ~ has_keyword ACADEMIC_KEYWORDS (lower a)
                  /\ has_keyword PHARMA_KEYWORDS (lower a)).
Proof.
  repeat split.
  - intros a H. apply any_keyword_spec in H. unfold is_non_academic_affiliation.
    destruct (PyStr.truthy a); cbn [negb]; [now rewrite H|reflexivity].
  - intros a H. apply any_keyword_false in H. unfold is_non_academic_affiliation.
    destruct (PyStr.truthy a); cbn [negb]; [|reflexivity].
    rewrite H. now destruct (any_keyword ACADEMIC_KEYWORDS (lower a)).
  - destruct affil as [a|]; [|discriminate]. unfold is_non_academic_affiliation.
    destruct a as [|c a]; [discriminate|]. cbn [PyStr.truthy negb].
    destruct (any_keyword ACADEMIC_KEYWORDS _) eqn:Ha; [discriminate|].
    destruct (any_keyword PHARMA_KEYWORDS _) eqn:Hp; [|discriminate].
    intros _. eexists; repeat split; [discriminate| |].
    + now apply any_keyword_false.
    + now apply any_keyword_spec.
  - intros (a & -> & Hne & Ha & Hp). unfold is_non_academic_affiliation.
    destruct a as [|c a]; [congruence|]. cbn [PyStr.truthy negb].
    apply any_keyword_false in Ha. apply any_keyword_spec in Hp.
    now rewrite Ha, Hp.
Qed.

End ClassifierFacts.

(** The academic veto on a joint affiliation, and a plain commercial one. *)
Lemma is_non_academic_affiliation_spec_witness :
  is_non_academic_affiliation PyStr.ascii_lower
    (Some "Institute of Oncology and Acme Pharma Inc") = false
  /\ is_non_academic_affiliation PyStr.ascii_lower (Some "Acme Pharma Inc") = true.
Proof.
  destruct (is_non_academic_affiliation_spec PyStr.ascii_lower)
    as (_ & _ & Hveto & _ & Hiff).
  split.
  - apply Hveto. exists "institute". split; [simpl; tauto|].
    now exists "", " of oncology and acme pharma inc".
  - apply Hiff. exists "Acme Pharma Inc". repeat split; [discriminate| |].
    + apply any_keyword_false. reflexivity.
    + exists "pharma". split; [simpl; tauto|]. now exists "acme ", " inc".
Defined.

(** ** The backtracking matcher *)

Lemma try_down_some (f : nat -> option nat) (lo k r : nat) :
  Re.try_down f lo k = Some r ->
  exists j, lo <= j <= k /\ f j = Some r
            /\ forall j', j < j' <= k -> f j' = None.
Proof.
  induction k as [|k IH]; simpl.
  - destruct (Nat.ltb_spec 0 lo); [discriminate|].
    destruct (f 0) eqn:E; [|discriminate]. intros [= ->]. exists 0.
    split; [lia|]. split; [exact E|]. intros; lia.
  - destruct (Nat.ltb_spec (S k) lo); [discriminate|].
    destruct (f (S k)) eqn:E.
    + intros [= ->]. exists (S k). split; [lia|]. split; [exact E|]. intros; lia.
    + intros H'. destruct (IH H') as (j & Hj & Hf & Hnone). exists j.
      split; [lia|]. split; [exact Hf|]. intros j' Hj'.
      destruct (Nat.eq_dec j' (S k)) as [->|]; [exact E|]. apply Hnone. lia.
Qed.

Lemma try_down_none (f : nat -> option nat) (lo k : nat) :
  Re.try_down f lo k = None -> forall j, lo <= j <= k -> f j = None.
Proof.
  induction k as [|k IH]; simpl.
  - destruct (Nat.ltb_spec 0 lo); [intros; lia|].
    destruct (f 0) eqn:E; [discriminate|]. intros _ j Hj.
    assert (j = 0) as -> by lia. assumption.
  - destruct (Nat.ltb_spec (S k) lo); [intros; lia|].
    destruct (f (S k)) eqn:E; [discriminate|]. intros H' j Hj.
    destruct (Nat.eq_dec j (S k)) as [->|]; [assumption|].
    apply IH; [assumption|lia].
Qed.

(** What the matcher returns is a match. *)
Lemma match_here_sound (items : list Re.item) :
  forall s n, Re.match_here items s = Some n -> Matches items s n.
Proof.
  induction items as [|it rest IH]; intros s n; simpl.
  - intros [= <-]. constructor.
  - intros H. apply try_down_some in H as (k & Hk & Hf & _).
    destruct (Re.match_here rest (PyStr.drop k s)) as [m|] eqn:E;
      [|discriminate].
    injection Hf as <-. constructor; [lia|lia|]. now apply IH.
Qed.

(** Where there is a match, the matcher finds one. *)
Lemma match_here_complete (items : list Re.item) :
  forall s n, Matches items s n -> Re.match_here items s <> None.
Proof.
  intros s n H. induction H as [s|it rest s k n Hlo Hhi _ IH]; simpl.
  - discriminate.
  - intros Hnone. apply try_down_none with (j := k) in Hnone; [|lia].
    destruct (Re.match_here rest (PyStr.drop k s)); [discriminate|].
    now apply IH.
Qed.

Lemma search_from_some (items : list Re.item) :
  forall s pos p len,
    Re.search_from items s pos = Some (p, len) ->
    exists i, p = pos + i /\ i <= String.length s
              /\ Re.match_here items (PyStr.drop i s) = Some len
              /\ forall j, j < i -> Re.match_here items (PyStr.drop j s) = None.
Proof.
  induction s as [|c s IH]; intros pos p len; simpl.
  - destruct (Re.match_here items "") eqn:E; [|discriminate].
    intros [= <- <-]. exists 0.
    split; [lia|]. split; [simpl; lia|]. split; [exact E|]. intros; lia.
  - destruct (Re.match_here items (String c s)) eqn:E.
    + intros [= <- <-]. exists 0.
      split; [lia|]. split; [lia|]. split; [exact E|]. intros; lia.
    + intros H. apply IH in H as (i & -> & Hi & Hm & Hnone).
      exists (S i).
      split; [lia|]. split; [simpl; lia|]. split; [exact Hm|].
      intros [|j] Hj; [exact E|]. apply Hnone. lia.
Qed.

Lemma search_from_none (items : list Re.item) :
  forall s pos,
    Re.search_from items s pos = None ->
    forall i, Re.match_here items (PyStr.drop i s) = None.
Proof.
  induction s as [|c s IH]; intros pos; simpl.
  - destruct (Re.match_here items "") eqn:E; [discriminate|].
    intros _ [|i]; exact E.
  - destruct (Re.match_here items (String c s)) eqn:E; [discriminate|].
    intros H [|i]; [exact E|]. simpl. now apply (IH (S pos)).
Qed.

Lemma run_take (p : ascii -> bool) (k : nat) :
  forall s, k <= Re.run p s ->
            all_chars p (PyStr.take k s) = true
            /\ String.length (PyStr.take k s) = k.
Proof.
  induction k as [|k IH]; intros s H.
  - now destruct s.
  - destruct s as [|c s]; simpl in H; [lia|].
    destruct (p c) eqn:E; [|lia]. simpl. rewrite E.
    destruct (IH s) as [-> ->]; [lia|auto].
Qed.

Lemma run_app_ge (p : ascii -> bool) (a b : string) :
  all_chars p a = true -> String.length a <= Re.run p (a ++ b).
Proof.
  induction a as [|c a IH]; simpl; [lia|].
  intros H. apply andb_true_iff in H as [-> H]. specialize (IH H). lia.
Qed.

Lemma run_le_length (p : ascii -> bool) (s : string) :
  Re.run p s <= String.length s.
Proof. induction s as [|c s IH]; simpl; [lia|]. destruct (p c); lia. Qed.

(** A literal item takes exactly its character. *)
Lemma lit_take (c : ascii) (k : nat) (s : string) :
  1 <= k -> k <= Re.cap (Re.run (Ascii.eqb c) s) (Some 1) ->
  k = 1 /\ exists rest, s = String c rest.
Proof.
  simpl. intros H1 H2. destruct s as [|d s]; simpl in H2; [lia|].
  destruct (Ascii.eqb_spec c d) as [->|]; [|lia]. split; [lia|]. now exists s.
Qed.

(** A match of the email pattern is an email-shaped prefix. *)
Lemma Matches_EMAIL_shaped (s : string) (n : nat) :
  Matches Re.EMAIL s n ->
  exists e rest, s = e ++ rest /\ String.length e = n /\ email_shaped e.
Proof.
  unfold Re.EMAIL. intros H.
  inversion H as [|? ? ? k1 n1 Hlo1 Hhi1 H1]; subst; clear H.
  inversion H1 as [|? ? ? k2 n2 Hlo2 Hhi2 H2]; subst; clear H1.
  inversion H2 as [|? ? ? k3 n3 Hlo3 Hhi3 H3]; subst; clear H2.
  inversion H3 as [|? ? ? k4 n4 Hlo4 Hhi4 H4]; subst; clear H3.
  inversion H4 as [|? ? ? k5 n5 Hlo5 Hhi5 H5]; subst; clear H4.
  inversion H5; subst; clear H5.
  cbn [Re.rmin Re.rmax Re.cls Re.plus Re.lit Re.at_least Re.cap] in *.
  destruct (lit_take _ _ _ Hlo2 Hhi2) as [-> [r2 E2]].
  destruct (lit_take _ _ _ Hlo4 Hhi4) as [-> [r4 E4]].
  destruct (run_take _ _ _ Hhi1) as [A1 L1].
  destruct (run_take _ _ _ Hhi3) as [A3 L3].
  destruct (run_take _ _ _ Hhi5) as [A5 L5].
  set (s1 := PyStr.drop k1 s) in *.
  set (s2 := PyStr.drop 1 s1) in *.
  set (s3 := PyStr.drop k3 s2) in *.
  set (s4 := PyStr.drop 1 s3) in *.
  assert (Es : s = PyStr.take k1 s ++ "@" ++ PyStr.take k3 s2 ++ "."
                   ++ PyStr.take k5 s4 ++ PyStr.drop k5 s4).
  { rewrite (take_drop k5 s4).
    assert (s3 = "." ++ s4) as <- by (subst s4; rewrite E4; reflexivity).
    rewrite (take_drop k3 s2 : _ ++ s3 = _).
    assert (s1 = "@" ++ s2) as <- by (subst s2; rewrite E2; reflexivity).
    symmetry. apply take_drop. }
  exists (PyStr.take k1 s ++ "@" ++ PyStr.take k3 s2 ++ "." ++ PyStr.take k5 s4),
         (PyStr.drop k5 s4).
  split; [|split].
  - rewrite Es at 1. now rewrite !append_assoc.
  - rewrite !length_append, L1, L3, L5. simpl. lia.
  - exists (PyStr.take k1 s), (PyStr.take k3 s2), (PyStr.take k5 s4).
    repeat split; auto.
    + intros E. rewrite E in L1. simpl in L1. lia.
    + intros E. rewrite E in L3. simpl in L3. lia.
    + lia.
Qed.

(** An email-shaped prefix is a match of the email pattern. *)
Lemma shaped_Matches_EMAIL (e rest : string) :
  email_shaped e -> Matches Re.EMAIL (e ++ rest) (String.length e).
Proof.
  intros (l & d & t & -> & Al & Nl & Ad & Nd & At & Lt).
  assert (Ll : 1 <= String.length l) by (destruct l; [congruence|simpl; lia]).
  assert (Ld : 1 <= String.length d) by (destruct d; [congruence|simpl; lia]).
  rewrite !length_append. rewrite !append_assoc.
  change (String.length "@") with 1. change (String.length ".") with 1.
  unfold Re.EMAIL.
  constructor; cbn [Re.rmin Re.rmax Re.cls Re.plus Re.cap]; auto.
  { now apply run_app_ge. }
  rewrite drop_app_length.
  constructor; cbn [Re.rmin Re.rmax Re.cls Re.lit Re.cap]; auto.
  { simpl; lia. }
  change (PyStr.drop 1 ("@" ++ d ++ "." ++ t ++ rest)) with (d ++ "." ++ t ++ rest).
  constructor; cbn [Re.rmin Re.rmax Re.cls Re.plus Re.cap]; auto.
  { now apply run_app_ge. }
  rewrite drop_app_length.
  constructor; cbn [Re.rmin Re.rmax Re.cls Re.lit Re.cap]; auto.
  { simpl; lia. }
  change (PyStr.drop 1 ("." ++ t ++ rest)) with (t ++ rest).
  replace (String.length t) with (String.length t + 0) by lia.
  constructor; cbn [Re.rmin Re.rmax Re.cls Re.at_least Re.cap]; auto.
  { now apply run_app_ge. }
  constructor.
Qed.

(** *** Greedy matching of the email pattern *)

Lemma match_here_cons (it : Re.item) (rest : list Re.item) (s : string) :
  Re.match_here (it :: rest) s
  = Re.try_down
      (fun k => option_map (Nat.add k) (Re.match_here rest (PyStr.drop k s)))
      (Re.rmin it) (Re.cap (Re.run (Re.cls it) s) (Re.rmax it)).
Proof. reflexivity. Qed.

(** A run that is followed by a character outside the class is the whole
    run. *)
Lemma run_stop (p : ascii -> bool) (k : nat) :
  forall s c r,
    k <= Re.run p s -> PyStr.drop k s = String c r -> p c = false ->
    Re.run p s = k.
Proof.
  induction k as [|k IH]; intros s c r Hk Hd Hc.
  - rewrite drop_0 in Hd. subst s. simpl. now rewrite Hc.
  - destruct s as [|d s]; simpl in Hk; [lia|].
    simpl. destruct (p d); [|lia]. f_equal. apply (IH s c r); [lia|exact Hd|exact Hc].
Qed.

Lemma drop_in_class (p : ascii -> bool) (i : nat) :
  forall t rest,
    all_chars p t = true -> i < String.length t ->
    exists c r, PyStr.drop i (t ++ rest) = String c r /\ p c = true.
Proof.
  induction i as [|i IH]; intros [|c t] rest Ha Hi; simpl in Hi; try lia.
  - simpl in Ha. apply andb_true_iff in Ha as [Hc _]. now exists c, (t ++ rest).
  - simpl in Ha. apply andb_true_iff in Ha as [_ Ha].
    apply (IH t rest Ha). lia.
Qed.

Lemma match_lit (c : ascii) (rest : list Re.item) (s : string) (n : nat) :
  Re.match_here (Re.lit c :: rest) s = Some n ->
  exists r m, s = String c r /\ Re.match_here rest r = Some m /\ n = 1 + m.
Proof.
  rewrite match_here_cons. intros H.
  apply try_down_some in H as (j & Hj & Hf & _).
  destruct Hj as [Hlo Hhi].
  destruct (lit_take c j s Hlo Hhi) as [-> [r ->]].
  change (PyStr.drop 1 (String c r)) with r in Hf.
  destruct (Re.match_here rest r) as [m|] eqn:E; [|discriminate].
  injection Hf as <-. now exists r, m.
Qed.

Lemma match_last_at_least (m : nat) (p : ascii -> bool) (s : string) (n : nat) :
  Re.match_here [Re.at_least m p] s = Some n -> n = Re.run p s.
Proof.
  rewrite match_here_cons. cbn [Re.rmin Re.rmax Re.cls Re.at_least Re.cap].
  intros H. apply try_down_some in H as (j & Hj & Hf & Hnone).
  cbn in Hf. injection Hf as <-.
  destruct (Nat.eq_dec j (Re.run p s)) as [->|Hne]; [lia|].
  specialize (Hnone (Re.run p s) ltac:(lia)). discriminate Hnone.
Qed.

(** The match found at a position is the longest email-shaped string that
    starts there. *)
Lemma match_here_EMAIL_longest (s : string) (n : nat) :
  Re.match_here Re.EMAIL s = Some n ->
  forall e rest, s = e ++ rest -> email_shaped e -> String.length e <= n.
Proof.
  unfold Re.EMAIL. intros H e rest Hs (l & d & t & -> & Al & Nl & Ad & Nd & At & Lt).
  rewrite !append_assoc in Hs.
  (* the local part *)
  rewrite match_here_cons in H. cbn [Re.rmin Re.rmax Re.cls Re.plus Re.cap] in H.
  apply try_down_some in H as (k1 & [Hlo1 Hhi1] & Hf1 & _).
  destruct (Re.match_here _ (PyStr.drop k1 s)) as [n1|] eqn:E1; [|discriminate].
  injection Hf1 as <-.
  apply match_lit in E1 as (r1 & n2 & Hd1 & E2 & ->).
  assert (Hk1 : Re.run Re.local_char s = k1)
    by (apply (run_stop _ _ _ _ _ Hhi1 Hd1); reflexivity).
  assert (Hl : Re.run Re.local_char s = String.length l).
  { apply (run_stop _ _ s "@"%char (d ++ "." ++ t ++ rest)).
    - rewrite Hs. now apply run_app_ge.
    - rewrite Hs. apply drop_app_length.
    - reflexivity. }
  assert (Ek : k1 = String.length l) by congruence. clear Hk1 Hl. subst k1.
  rewrite Hs, drop_app_length in Hd1. injection Hd1 as <-.
  (* the domain *)
  rewrite match_here_cons in E2. cbn [Re.rmin Re.rmax Re.cls Re.plus Re.cap] in E2.
  apply try_down_some in E2 as (k3 & [Hlo3 Hhi3] & Hf3 & Hnone3).
  destruct (Re.match_here _ (PyStr.drop k3 _)) as [n4|] eqn:E4; [|discriminate].
  injection Hf3 as <-.
  assert (Hd : String.length d
               <= Re.run Re.domain_char (d ++ String "." (t ++ rest)))
    by (now apply run_app_ge).
  assert (Hle : String.length d <= k3).
  { destruct (Nat.le_gt_cases (String.length d) k3) as [|Hgt]; [assumption|].
    exfalso. specialize (Hnone3 (String.length d) ltac:(lia)).
    rewrite drop_app_length in Hnone3.
    assert (Hm : Matches [Re.lit "."; Re.at_least 2 Re.alpha]
                   (String "." (t ++ rest)) (1 + (String.length t + 0))).
    { constructor; cbn [Re.rmin Re.rmax Re.cls Re.lit Re.cap]; [lia|simpl; lia|].
      change (PyStr.drop 1 (String "." (t ++ rest))) with (t ++ rest).
      constructor; cbn [Re.rmin Re.rmax Re.cls Re.at_least Re.cap];
        [lia|now apply run_app_ge|constructor]. }
    apply match_here_complete in Hm.
    destruct (Re.match_here _ (String "." (t ++ rest))); [discriminate|congruence]. }
  (* the dot and the letters *)
  apply match_lit in E4 as (r3 & n5 & Hd3 & E5 & ->).
  apply match_last_at_least in E5. subst n5.
  rewrite !length_append. change (String.length "@") with 1.
  change (String.length ".") with 1.
  destruct (Nat.eq_dec (String.length d) k3) as [Heq|Hne].
  - subst k3. rewrite drop_app_length in Hd3. injection Hd3 as <-.
    pose proof (run_app_ge Re.alpha t rest At). lia.
  - destruct (Nat.le_gt_cases k3 (String.length d + String.length t))
      as [Hin|Hout]; [exfalso|lia].
    assert (Hk3 : k3 = String.length d + (1 + (k3 - String.length d - 1))) by lia.
    rewrite Hk3, <- drop_drop, drop_app_length in Hd3.
    cbn [Nat.add PyStr.drop] in Hd3.
    destruct (drop_in_class Re.alpha (k3 - String.length d - 1) t rest At
                ltac:(lia)) as (c & r & Hc & Halpha).
    rewrite Hc in Hd3. injection Hd3 as -> _. discriminate Halpha.
Qed.

(** ** Email extractor *)

Lemma shaped_occurrence_matches (text pre e post : string) :
  email_shaped e -> text = pre ++ e ++ post ->
  Re.match_here Re.EMAIL (PyStr.drop (String.length pre) text) <> None.
Proof.
  intros He ->. rewrite drop_app_length.
  eapply match_here_complete. now apply shaped_Matches_EMAIL.
Qed.

Lemma append_inv_head (a b c : string) : a ++ b = a ++ c -> b = c.
Proof. induction a as [|x a IH]; simpl; [auto|]. intros [= H]. auto. Qed.

Lemma extract_email_some (text e : string) :
  extract_email_from_affil text = Some e ->
  email_shaped e
  /\ exists pre post,
       text = pre ++ e ++ post
       /\ (forall j, j < String.length pre ->
                     Re.match_here Re.EMAIL (PyStr.drop j text) = None)
       /\ (forall e' post',
             text = pre ++ e' ++ post' -> email_shaped e' ->
             String.length e' <= String.length e).
Proof.
  unfold extract_email_from_affil, Re.search.
  destruct (Re.search_from Re.EMAIL text 0) as [[start len]|] eqn:E;
    [|discriminate].
  intros [= <-].
  apply search_from_some in E as (i & -> & Hi & Hm & Hleft). simpl.
  pose proof (match_here_EMAIL_longest _ _ Hm) as Hlong.
  apply match_here_sound, Matches_EMAIL_shaped in Hm as (e & rest & Hd & Hl & He).
  rewrite substring_take_drop, Hd, <- Hl, take_app_length.
  split; [assumption|].
  exists (PyStr.take i text), rest. split; [|split].
  - rewrite <- Hd. symmetry. apply take_drop.
  - intros j Hj. apply Hleft. rewrite length_take in Hj; assumption.
  - intros e' post' Ht He'. rewrite Hl. apply (Hlong e' post'); [|exact He'].
    apply (append_inv_head (PyStr.take i text)). rewrite <- Ht. apply take_drop.
Qed.

(** C7. [extract_email_from_affil] returns none exactly when no
    email-shaped string occurs in the text; otherwise it returns an
    email-shaped string that occurs in the text, at the first position
    where one occurs, and the longest one at that position. *)
Theorem extract_email_first_match (text : string) :
  (extract_email_from_affil text = None <->
     ~ exists e, email_shaped e /\ substring_of e text)
  /\ ((exists e, email_shaped e /\ substring_of e text) ->
      exists e, extract_email_from_affil text = Some e)
  /\ (forall e,
        extract_email_from_affil text = Some e ->
        email_shaped e
        /\ exists pre post,
             text = pre ++ e ++ post
             /\ (forall pre' e' post',
                   email_shaped e' -> text = pre' ++ e' ++ post' ->
                   String.length pre <= String.length pre')
             /\ (forall e' post',
                   email_shaped e' -> text = pre ++ e' ++ post' ->
                   String.length e' <= String.length e)).
Proof.
  assert (Hnone : extract_email_from_affil text = None ->
                  ~ exists e, email_shaped e /\ substring_of e text).
  { unfold extract_email_from_affil, Re.search.
    destruct (Re.search_from Re.EMAIL text 0) as [[start len]|] eqn:E;
      [discriminate|].
    intros _ (e & He & pre & post & Ht).
    apply (shaped_occurrence_matches _ _ _ _ He Ht).
    eapply search_from_none. exact E. }
  split; [|split].
  - split; [exact Hnone|].
    intros Hno. destruct (extract_email_from_affil text) as [e|] eqn:E;
      [|reflexivity].
    exfalso. apply Hno. apply extract_email_some in E as (He & pre & post & Ht & _).
    exists e. split; [assumption|]. now exists pre, post.
  - intros Hex. destruct (extract_email_from_affil text) as [e|] eqn:E.
    + now exists e.
    + now apply Hnone in Hex.
  - intros e E.
    apply extract_email_some in E as (He & pre & post & Ht & Hleft & Hlong).
    split; [assumption|]. exists pre, post. split; [assumption|]. split.
    + intros pre' e' post' He' Ht'.
      destruct (Nat.le_gt_cases (String.length pre) (String.length pre'))
        as [|Hlt]; [assumption|].
      exfalso. apply (shaped_occurrence_matches _ _ _ _ He' Ht').
      now apply Hleft.
    + intros e' post' He' Ht'. now apply (Hlong e' post').
Qed.

(** The first of two addresses is returned; a text without one gives none. *)
Lemma extract_email_first_match_witness :
  extract_email_from_affil "Acme Inc (jane@acme.com, joe@acme.org)"
    = Some "jane@acme.com"
  /\ email_shaped "jane@acme.com"
  /\ extract_email_from_affil "Acme Inc, Basel" = None
  /\ ~ (exists e, email_shaped e /\ substring_of e "Acme Inc, Basel").
Proof.
  pose proof (extract_email_first_match "Acme Inc (jane@acme.com, joe@acme.org)")
    as (_ & _ & Hsome).
  pose proof (extract_email_first_match "Acme Inc, Basel") as (Hnone & _ & _).
  split; [reflexivity|]. split; [apply (Hsome _ eq_refl)|].
  split; [reflexivity|]. apply Hnone. reflexivity.
Defined.

(** ** The author loop *)

Lemma email_shaped_truthy (e : string) : email_shaped e -> PyStr.truthy e = true.
Proof.
  intros (l & d & t & -> & _ & Hl & _). destruct l; [congruence|reflexivity].
Qed.

Lemma extract_email_truthy (affil e : string) :
  extract_email_from_affil affil = Some e -> PyStr.truthy e = true.
Proof.
  intros H. apply extract_email_some in H as [H _]. now apply email_shaped_truthy.
Qed.

Section AuthorLoop.

Variable lower : string -> string.

Let classified (affil : string) : bool :=
  is_non_academic_affiliation lower (Some affil).

Lemma affil_step_fields (author : ET.Element) (st : collected) (affil : string) :
  let st' := affil_step lower author st affil in
  non_acad_authors st' =
    (non_acad_authors st
     ++ (if classified affil then [extract_author_name author] else []))%list
  /\ company_affils st' =
       (company_affils st ++ (if classified affil then [affil] else []))%list
  /\ possible_emails st' =
       (rev (affil_email lower true affil) ++ possible_emails st
        ++ affil_email lower false affil)%list.
Proof.
  unfold affil_step, affil_email, classified.
  destruct (is_non_academic_affiliation lower (Some affil)); cbn [andb].
  - destruct (extract_email_from_affil affil) as [e|] eqn:E.
    + rewrite (extract_email_truthy _ _ E).
      destruct (PyStr.contains "corresponding" (lower affil)); simpl;
        rewrite ?app_nil_r; auto.
    + destruct (PyStr.contains "corresponding" (lower affil)); simpl;
        rewrite ?app_nil_r; auto.
  - simpl. rewrite !app_nil_r. auto.
Qed.

Lemma affil_loop_fields (author : ET.Element) (affils : list string) :
  forall st,
    let st' := fold_left (affil_step lower author) affils st in
    non_acad_authors st' =
      (non_acad_authors st
       ++ map (fun _ => extract_author_name author) (filter classified affils))%list
    /\ company_affils st' = (company_affils st ++ filter classified affils)%list
    /\ possible_emails st' =
         (rev (flat_map (affil_email lower true) affils) ++ possible_emails st
          ++ flat_map (affil_email lower false) affils)%list.
Proof.
  induction affils as [|affil affils IH]; intros st.
  - simpl. rewrite !app_nil_r. auto.
  - cbn [fold_left flat_map filter].
    destruct (IH (affil_step lower author st affil)) as (Ha & Hc & He).
    destruct (affil_step_fields author st affil) as (Ha1 & Hc1 & He1).
    cbv zeta in *. rewrite Ha, Hc, He, Ha1, Hc1, He1. clear.
    rewrite rev_app_distr, <- !app_assoc.
    destruct (classified affil); simpl; rewrite <- ?app_assoc; auto.
Qed.

Lemma author_step_fields (st : collected) (author : ET.Element) :
  let st' := author_step lower st author in
  non_acad_authors st' =
    (non_acad_authors st ++ map fst (non_academic_hits lower [author]))%list
  /\ company_affils st' =
       (company_affils st ++ map snd (non_academic_hits lower [author]))%list
  /\ possible_emails st' =
       (rev (flat_map (affil_email lower true) (author_affils author))
        ++ possible_emails st ++ other_emails lower author)%list.
Proof.
  unfold author_step, non_academic_hits, other_emails, qualifying_affils.
  cbn [flat_map]. rewrite app_nil_r, !map_map. cbn [fst snd]. rewrite map_id.
  set (st1 := match embedded_email lower author with
              | Some e => if PyStr.truthy e then _ else st
              | None => st
              end).
  assert (H1 : non_acad_authors st1 = non_acad_authors st
               /\ company_affils st1 = company_affils st
               /\ possible_emails st1 =
                    (possible_emails st
                     ++ match embedded_email lower author with
                        | Some e => if PyStr.truthy e then [e] else []
                        | None => []
                        end)%list).
  { subst st1. destruct (embedded_email lower author) as [e|];
      [destruct (PyStr.truthy e)|]; simpl; rewrite ?app_nil_r; auto. }
  destruct H1 as (Ha1 & Hc1 & He1).
  destruct (affil_loop_fields author (author_affils author) st1) as (Ha & Hc & He).
  cbv zeta in *. fold classified.
  assert (Hfold : match author_affils author with
                  | [] => st1
                  | _ :: _ => fold_left (affil_step lower author)
                                (author_affils author) st1
                  end%list
                  = fold_left (affil_step lower author) (author_affils author) st1)
    by (destruct (author_affils author); reflexivity).
  rewrite Hfold, Ha, Hc, He, Ha1, Hc1, He1, <- !app_assoc. auto.
Qed.

Lemma author_loop_fields (authors : list ET.Element) :
  forall st,
    let st' := fold_left (author_step lower) authors st in
    non_acad_authors st' =
      (non_acad_authors st ++ map fst (non_academic_hits lower authors))%list
    /\ company_affils st' =
         (company_affils st ++ map snd (non_academic_hits lower authors))%list
    /\ possible_emails st' =
         (rev (corresponding_emails lower authors) ++ possible_emails st
          ++ flat_map (other_emails lower) authors)%list.
Proof.
  induction authors as [|author authors IH]; intros st.
  - simpl. rewrite !app_nil_r. auto.
  - cbn [fold_left].
    destruct (IH (author_step lower st author)) as (Ha & Hc & He).
    destruct (author_step_fields st author) as (Ha1 & Hc1 & He1).
    cbv zeta in *. rewrite Ha, Hc, He, Ha1, Hc1, He1. clear.
    unfold non_academic_hits, corresponding_emails. cbn [flat_map].
    rewrite app_nil_r, !map_app, rev_app_distr, <- !app_assoc. auto.
Qed.

(** The three lists after the whole loop. *)
Lemma collect_fields (info : ET.Element) :
  let hits := non_academic_hits lower (article_authors info) in
  non_acad_authors (collect lower info) = map fst hits
  /\ company_affils (collect lower info) = map snd hits
  /\ possible_emails (collect lower info) =
       (rev (corresponding_emails lower (article_authors info))
        ++ flat_map (other_emails lower) (article_authors info))%list.
Proof.
  destruct (author_loop_fields (article_authors info) empty_collected)
    as (Ha & Hc & He).
  cbv zeta in *. unfold collect. rewrite Ha, Hc, He. auto.
Qed.

End AuthorLoop.

(** ** External email resolvers *)

Section ResolverFacts.

Variable service : Eff.remote.

Lemma crossref_run (doi : string) (tr : Eff.trace) :
  get_email_from_crossref service doi tr =
    (inr (resolver_answer crossref_scan (service tr (Eff.CrossRef doi))),
     (tr ++ [Eff.Get (Eff.CrossRef doi)])%list).
Proof.
  unfold get_email_from_crossref, Eff.try_except, Eff.bind, http_get,
    resolver_answer.
  destruct (service tr (Eff.CrossRef doi)) as [resp|]; [|reflexivity].
  destruct (Eff.status_code resp =? 200)%Z; [|reflexivity].
  cbn [negb]. unfold Eff.lift, Eff.ret.
  destruct (crossref_scan resp); reflexivity.
Qed.

Lemma europepmc_run (pmid : string) (tr : Eff.trace) :
  get_email_from_europepmc service pmid tr =
    (inr (resolver_answer europepmc_scan (service tr (Eff.EuropePMCSearch pmid))),
     (tr ++ [Eff.Get (Eff.EuropePMCSearch pmid)])%list).
Proof.
  unfold get_email_from_europepmc, Eff.try_except, Eff.bind, http_get,
    resolver_answer.
  destruct (service tr (Eff.EuropePMCSearch pmid)) as [resp|]; [|reflexivity].
  destruct (Eff.status_code resp =? 200)%Z; [|reflexivity].
  cbn [negb]. unfold Eff.lift, Eff.ret.
  destruct (europepmc_scan resp); reflexivity.
Qed.

Lemma emails_run (pmid : string) (tr : Eff.trace) :
  get_email_from_europepmc_emails_endpoint service pmid tr =
    (inr (resolver_answer emails_scan (service tr (Eff.EuropePMCEmails pmid))),
     (tr ++ [Eff.Get (Eff.EuropePMCEmails pmid)])%list).
Proof.
  unfold get_email_from_europepmc_emails_endpoint, Eff.try_except, Eff.bind,
    http_get, resolver_answer.
  destruct (service tr (Eff.EuropePMCEmails pmid)) as [resp|]; [|reflexivity].
  destruct (Eff.status_code resp =? 200)%Z; [|reflexivity].
  cbn [negb]. unfold Eff.lift, Eff.ret.
  destruct (emails_scan resp); reflexivity.
Qed.

(** A resolver answers none when the service does not answer, answers with
    a status other than 200, sends a body that is not JSON, or sends JSON
    on which the scan raises. *)
Lemma resolver_answer_none (scan : Eff.response -> Py.result Py.value)
  (answer : option Eff.response) :
  (forall resp, Eff.json resp = inl Py.ValueError -> scan resp = inl Py.ValueError) ->
  (answer = None -> resolver_answer scan answer = Py.JNull)
  /\ (forall resp, answer = Some resp -> Eff.status_code resp <> 200%Z ->
        resolver_answer scan answer = Py.JNull)
  /\ (forall resp, answer = Some resp ->
        (forall v, Eff.content resp <> Eff.Json v) ->
        resolver_answer scan answer = Py.JNull)
  /\ (forall resp e, answer = Some resp -> scan resp = inl e ->
        resolver_answer scan answer = Py.JNull).
Proof.
  intros Hscan. repeat split.
  - now intros ->.
  - intros resp -> H. unfold resolver_answer.
    destruct (Z.eqb_spec (Eff.status_code resp) 200); [contradiction|reflexivity].
  - intros resp -> H. unfold resolver_answer.
    destruct (Eff.status_code resp =? 200)%Z; [|reflexivity].
    rewrite Hscan; [reflexivity|]. unfold Eff.json.
    destruct (Eff.content resp) as [v| |]; [now destruct (H v)| |]; reflexivity.
  - intros resp e -> H. unfold resolver_answer. rewrite H.
    now destruct (Eff.status_code resp =? 200)%Z.
Qed.

Lemma crossref_scan_undecodable (resp : Eff.response) :
  Eff.json resp = inl Py.ValueError -> crossref_scan resp = inl Py.ValueError.
Proof. unfold crossref_scan. now intros ->. Qed.

Lemma europepmc_scan_undecodable (resp : Eff.response) :
  Eff.json resp = inl Py.ValueError -> europepmc_scan resp = inl Py.ValueError.
Proof. unfold europepmc_scan. now intros ->. Qed.

Lemma emails_scan_undecodable (resp : Eff.response) :
  Eff.json resp = inl Py.ValueError -> emails_scan resp = inl Py.ValueError.
Proof. unfold emails_scan. now intros ->. Qed.

End ResolverFacts.

(** C5. Whatever the service does, each of the three resolvers returns a
    value and never raises; a network error, a status other than 200, an
    undecodable body and a body of the wrong shape all give none. *)
Theorem resolvers_absorb_failures (service : Eff.remote) (id : string) :
  absorbs_failures service (get_email_from_crossref service id)
    (Eff.CrossRef id) crossref_scan
  /\ absorbs_failures service (get_email_from_europepmc service id)
       (Eff.EuropePMCSearch id) europepmc_scan
  /\ absorbs_failures service (get_email_from_europepmc_emails_endpoint service id)
       (Eff.EuropePMCEmails id) emails_scan.
Proof.
  repeat split; intros tr.
  - exists (resolver_answer crossref_scan (service tr (Eff.CrossRef id))).
    split; [apply crossref_run|].
    apply resolver_answer_none, crossref_scan_undecodable.
  - exists (resolver_answer europepmc_scan (service tr (Eff.EuropePMCSearch id))).
    split; [apply europepmc_run|].
    apply resolver_answer_none, europepmc_scan_undecodable.
  - exists (resolver_answer emails_scan (service tr (Eff.EuropePMCEmails id))).
    split; [apply emails_run|].
    apply resolver_answer_none, emails_scan_undecodable.
Qed.

(** The three resolvers against a service without connection, one that
    answers 500 and one that answers JSON of the wrong shape. *)
Lemma resolvers_absorb_failures_witness :
  get_email_from_crossref Sample.offline "10.1000/xyz" []
    = (inr Py.JNull, [Eff.Get (Eff.CrossRef "10.1000/xyz")])
  /\ get_email_from_europepmc Sample.failing "42" []
     = (inr Py.JNull, [Eff.Get (Eff.EuropePMCSearch "42")])
  /\ get_email_from_europepmc_emails_endpoint Sample.misshapen "42" []
     = (inr Py.JNull, [Eff.Get (Eff.EuropePMCEmails "42")]).
Proof.
  destruct (resolvers_absorb_failures Sample.offline "10.1000/xyz") as (H1 & _ & _).
  destruct (resolvers_absorb_failures Sample.failing "42") as (_ & H2 & _).
  destruct (resolvers_absorb_failures Sample.misshapen "42") as (_ & _ & H3).
  destruct (H1 []) as (v1 & E1 & N1 & _).
  destruct (H2 []) as (v2 & E2 & _ & N2 & _).
  destruct (H3 []) as (v3 & E3 & _ & _ & _ & N3).
  rewrite E1, E2, E3.
  rewrite (N1 eq_refl).
  rewrite (N2 _ eq_refl ltac:(discriminate)).
  rewrite (N3 _ Py.AttributeError eq_refl eq_refl).
  repeat split.
Defined.

(** ** The resolver cascade *)

Section CascadeFacts.

Variables lower strip : string -> string.
Variable service : Eff.remote.

Lemma requests_app (a b : Eff.trace) :
  Eff.requests (a ++ b)%list = (Eff.requests a ++ Eff.requests b)%list.
Proof. unfold Eff.requests. apply flat_map_app. Qed.

Lemma stage_events_cons (s : stage) (stages : list stage) :
  stage_events (s :: stages)
  = ([Eff.Get (fst s); Eff.Sleep RESOLVER_DELAY] ++ stage_events stages)%list.
Proof. reflexivity. Qed.

Lemma requests_stage_events (stages : list stage) :
  Eff.requests (stage_events stages) = map fst stages.
Proof.
  induction stages as [|s stages IH]; [reflexivity|].
  simpl. now rewrite <- IH.
Qed.

Ltac cascade_simpl :=
  unfold Eff.bind, Eff.ret, Eff.sleep;
  cbv beta iota zeta;
  cbn [negb andb Py.truthy fst snd olist option_map spec_cascade app];
  cbv beta iota zeta;
  rewrite ?crossref_run, ?europepmc_run, ?emails_run, <- ?app_assoc;
  cbn [app]; cbv beta iota zeta.

(** The code's cascade and the specification's: the same trace, and the
    same email once [or ""] is applied. *)
Lemma resolve_email_refines (article medline : ET.Element) (tr : Eff.trace) :
  let stages :=
    resolver_stages (present (get_doi_from_pubmed_xml lower strip article))
                    (present (ET.findtext "PMID" medline)) in
  exists v,
    resolve_email lower strip service article medline tr
      = (inr v, snd (spec_cascade service stages tr))
    /\ or_empty v = or_empty (fst (spec_cascade service stages tr)).
Proof.
  unfold resolve_email, resolver_stages, present, or_empty.
  destruct (get_doi_from_pubmed_xml lower strip article) as [d|];
    [destruct (PyStr.truthy d)|];
    (destruct (ET.findtext "PMID" medline) as [p|];
     [destruct (PyStr.truthy p)|]);
    repeat (cascade_simpl;
            first [ match goal with
                    | H : Py.truthy ?x = _ |- context [Py.truthy ?x] =>
                        rewrite H
                    end
                  | match goal with
                    | |- context [Py.truthy (resolver_answer ?s ?a)] =>
                        destruct (Py.truthy (resolver_answer s a)) eqn:?
                    end ]);
    cascade_simpl; eexists; (split; [reflexivity|]);
    repeat match goal with
           | H : Py.truthy ?x = _ |- context [Py.truthy ?x] => rewrite H
           end; reflexivity.
Qed.

(** The cascade runs a prefix of its stages: it stops after the first stage
    with a non-empty answer, which is then its result, and goes on to the
    next stage after an empty one. *)
Lemma spec_cascade_stops (stages : list stage) :
  forall tr,
    exists n,
      n <= List.length stages
      /\ snd (spec_cascade service stages tr)
         = (tr ++ stage_events (firstn n stages))%list
      /\ (stages <> [] -> 0 < n)
      /\ forall k req scan,
           nth_error stages k = Some (req, scan) -> k < n ->
           let v := resolver_answer scan
                      (service (tr ++ stage_events (firstn k stages))%list req) in
           (Py.truthy v = true ->
              n = S k /\ fst (spec_cascade service stages tr) = v)
           /\ (Py.truthy v = false -> S k < List.length stages -> S k < n).
Proof.
  induction stages as [|[req scan] rest IH]; intros tr.
  - exists 0. split; [simpl; lia|]. split; [simpl; now rewrite app_nil_r|].
    split; [congruence|]. intros; lia.
  - cbn [spec_cascade].
    destruct (Py.truthy (resolver_answer scan (service tr req))) eqn:Ev.
    + exists 1. split; [simpl; lia|]. split; [reflexivity|]. split; [lia|].
      intros k req' scan' Hk Hlt. assert (k = 0) as -> by lia.
      injection Hk as <- <-. cbn [firstn stage_events flat_map].
      rewrite app_nil_r. split; [auto|congruence].
    + destruct (IH (tr ++ [Eff.Get req; Eff.Sleep RESOLVER_DELAY])%list)
        as (n & Hn & Htr & Hpos & Hk).
      exists (S n). split; [simpl; lia|]. split.
      { rewrite Htr. cbn [firstn stage_events flat_map fst].
        now rewrite <- app_assoc. }
      split; [lia|].
      intros [|k] req' scan' Hnth Hlt.
      * injection Hnth as <- <-. cbn [firstn stage_events flat_map].
        rewrite app_nil_r. split; [congruence|].
        intros _ Hlen. simpl in Hlen.
        assert (rest <> []) by (destruct rest; [simpl in Hlen; lia|discriminate]).
        specialize (Hpos H). lia.
      * cbn [nth_error] in Hnth.
        specialize (Hk k req' scan' Hnth ltac:(lia)).
        rewrite firstn_cons, stage_events_cons. cbn [fst]. rewrite app_assoc.
        cbv zeta in Hk. destruct Hk as [Ht Hf]. split.
        -- intros Hv. destruct (Ht Hv) as [-> Hfst]. split; [reflexivity|exact Hfst].
        -- intros Hv Hlen. simpl in Hlen. specialize (Hf Hv ltac:(lia)). lia.
Qed.

(** [parse_pubmed_article], case by case. *)
Lemma parse_run (article : ET.Element) (tr : Eff.trace) :
  parse_pubmed_article lower strip service article tr =
    match ET.find ["MedlineCitation"]%list article with
    | None => (inr None, tr)
    | Some medline =>
        match ET.find ["Article"]%list medline with
        | None => (inr None, tr)
        | Some info =>
            match non_acad_authors (collect lower info) with
            | [] => (inr None, tr)
            | _ :: _ =>
                match possible_emails (collect lower info) with
                | first :: _ =>
                    (inr (Some (make_record lower strip medline info (Py.JStr first))), tr)
                | [] =>
                    let '(r, tr') := resolve_email lower strip service article medline tr in
                    match r with
                    | inl e => (inl e, tr')
                    | inr v => (inr (Some (make_record lower strip medline info v)), tr')
                    end
                end
            end
        end
    end%list.
Proof.
  unfold parse_pubmed_article, make_record, or_empty, Eff.bind, Eff.ret.
  destruct (ET.find ["MedlineCitation"]%list article) as [medline|]; [|reflexivity].
  destruct (ET.find ["Article"]%list medline) as [info|]; [|reflexivity].
  destruct (non_acad_authors (collect lower info)); [reflexivity|].
  destruct (possible_emails (collect lower info)); [|reflexivity].
  destruct (resolve_email lower strip service article medline tr) as [[e|v] tr'];
    reflexivity.
Qed.

End CascadeFacts.

(** ** The article parser *)

Section ParserFacts.

Variables lower strip : string -> string.
Variable service : Eff.remote.

Lemma in_author_affils (author : ET.Element) (a : string) :
  In a (author_affils author) <->
  exists affil,
    In affil (ET.findall ["AffiliationInfo"; "Affiliation"]%list author)
    /\ ET.text affil = Some a /\ PyStr.truthy a = true.
Proof.
  unfold author_affils. rewrite in_flat_map. split.
  - intros (affil & Hin & Ha). exists affil. split; [assumption|].
    unfold ET.text_fragment in Ha. destruct (ET.text affil) as [t|]; [|easy].
    destruct (PyStr.truthy t) eqn:E; [|easy].
    destruct Ha as [->|[]]. auto.
  - intros (affil & Hin & Ht & Ha). exists affil. split; [assumption|].
    unfold ET.text_fragment. rewrite Ht, Ha. now left.
Qed.

Lemma classified_text (o : option string) :
  is_non_academic_affiliation lower o = true ->
  exists a, o = Some a /\ PyStr.truthy a = true.
Proof.
  destruct o as [a|]; [|discriminate]. unfold is_non_academic_affiliation.
  destruct (PyStr.truthy a) eqn:E; cbn [negb]; [|discriminate].
  intros _. now exists a.
Qed.

Lemma in_non_academic_hits (authors : list ET.Element) (name a : string) :
  In (name, a) (non_academic_hits lower authors) <->
  exists author,
    In author authors /\ name = extract_author_name author
    /\ In a (author_affils author)
    /\ is_non_academic_affiliation lower (Some a) = true.
Proof.
  unfold non_academic_hits, qualifying_affils. rewrite in_flat_map. split.
  - intros (author & Hin & H). apply in_map_iff in H as (a' & [= <- <-] & H).
    apply filter_In in H as [H1 H2]. now exists author.
  - intros (author & Hin & -> & H1 & H2). exists author. split; [assumption|].
    apply in_map. now apply filter_In.
Qed.

(** The loop records a name exactly when the article has a non-academic
    author. *)
Lemma non_acad_authors_nonempty (article medline info : ET.Element) :
  ET.find ["MedlineCitation"]%list article = Some medline ->
  ET.find ["Article"]%list medline = Some info ->
  (non_acad_authors (collect lower info) <> [] <->
   has_non_academic_author lower article).
Proof.
  intros Hm Hi. destruct (collect_fields lower info) as (-> & _ & _).
  unfold has_non_academic_author, article_info_of. rewrite Hm, Hi. split.
  - intros H. destruct (non_academic_hits lower (article_authors info))
      as [|[name a] hits] eqn:E; [contradiction|].
    assert (Hin : In (name, a) (non_academic_hits lower (article_authors info)))
      by (rewrite E; now left).
    apply in_non_academic_hits in Hin as (author & Hin & _ & Ha & Hc).
    apply in_author_affils in Ha as (affil & Haff & Ht & _).
    exists info, author, affil. rewrite Ht. auto.
  - intros (info' & author & affil & [= <-] & Hin & Haff & Hc).
    destruct (classified_text _ Hc) as (a & Ht & Ha).
    assert (H : In (extract_author_name author, a)
                   (non_academic_hits lower (article_authors info))).
    { apply in_non_academic_hits. exists author. repeat split; auto.
      - apply in_author_affils. now exists affil.
      - now rewrite <- Ht. }
    destruct (non_academic_hits lower (article_authors info)); [contradiction|].
    discriminate.
Qed.

(** A record comes from an article with a citation, an article element
    and at least one recorded name. *)
Lemma parse_some (article : ET.Element) (tr tr' : Eff.trace) (rec : ParsedRecord) :
  parse_pubmed_article lower strip service article tr = (inr (Some rec), tr') ->
  exists medline info email,
    ET.find ["MedlineCitation"]%list article = Some medline
    /\ ET.find ["Article"]%list medline = Some info
    /\ non_acad_authors (collect lower info) <> []
    /\ rec = make_record lower strip medline info email.
Proof.
  rewrite parse_run.
  destruct (ET.find ["MedlineCitation"]%list article) as [medline|] eqn:Em;
    [|discriminate].
  destruct (ET.find ["Article"]%list medline) as [info|] eqn:Ei; [|discriminate].
  destruct (non_acad_authors (collect lower info)) eqn:Ea; [discriminate|].
  assert (Hne : non_acad_authors (collect lower info) <> []) by congruence.
  destruct (possible_emails (collect lower info)).
  - destruct (resolve_email lower strip service article medline tr) as [[e|v] tr1];
      [discriminate|].
    intros [= <- <-]. exists medline, info, v. auto.
  - intros [= <- <-]. eexists medline, info, _. auto.
Qed.

(** C10. In an emitted record the author names and the company
    affiliations are the "; "-joins of two lists of equal length that are
    index-parallel: paired up, they are, author by author in document
    order, the author's name with each of the author's affiliations the
    classifier accepts, so an author with k such affiliations gives k
    entries. *)
Theorem names_and_affiliations_parallel (article : ET.Element)
  (tr tr' : Eff.trace) (rec : ParsedRecord) :
  parse_pubmed_article lower strip service article tr = (inr (Some rec), tr') ->
  exists info,
    article_info_of article = Some info
    /\ NonAcademicAuthors rec = PyStr.join "; " (non_acad_authors (collect lower info))
    /\ CompanyAffiliations rec = PyStr.join "; " (company_affils (collect lower info))
    /\ List.length (non_acad_authors (collect lower info))
       = List.length (company_affils (collect lower info))
    /\ combine (non_acad_authors (collect lower info))
               (company_affils (collect lower info))
       = flat_map (fun author =>
                     map (pair (extract_author_name author))
                         (qualifying_affils lower author))
                  (article_authors info)
    /\ forall author,
         List.length (map (pair (extract_author_name author))
                          (qualifying_affils lower author))
         = List.length (qualifying_affils lower author).
Proof.
  intros H. apply parse_some in H as (medline & info & email & Hm & Hi & _ & ->).
  exists info. unfold article_info_of. rewrite Hm. split; [assumption|].
  split; [reflexivity|]. split; [reflexivity|].
  destruct (collect_fields lower info) as (-> & -> & _).
  fold (non_academic_hits lower (article_authors info)).
  split; [now rewrite !length_map|]. split.
  - generalize (non_academic_hits lower (article_authors info)).
    intros l; induction l as [|[x y] l IH]; simpl; [reflexivity|now rewrite IH].
  - intros author. apply length_map.
Qed.

End ParserFacts.

(** An author with two accepted affiliations appears twice. *)
Lemma names_and_affiliations_parallel_witness :
  exists info,
    article_info_of (Sample.article "123" [] Sample.three_authors) = Some info
    /\ non_acad_authors (collect PyStr.ascii_lower info)
       = ["Doe, J"; "Poe, E"; "Poe, E"]%list
    /\ company_affils (collect PyStr.ascii_lower info)
       = [Sample.acme_corresponding; Sample.beta_corresponding; "Gamma LLC"]%list.
Proof.
  destruct (names_and_affiliations_parallel PyStr.ascii_lower PyStr.ascii_strip
              Sample.offline (Sample.article "123" [] Sample.three_authors)
              [] []
              (make_record PyStr.ascii_lower PyStr.ascii_strip
                 (Sample.medline "123" Sample.three_authors)
                 (Sample.info Sample.three_authors) (Py.JStr "c@beta.com"))
              eq_refl)
    as (info & Hinfo & _).
  exists info. split; [exact Hinfo|].
  injection Hinfo as <-. split; reflexivity.
Defined.

(** ** Embedded emails *)

(** A loop that overwrites its variable at every element that passes a
    test leaves the value of the last such element. *)
Lemma fold_left_overwrite {A B : Type} (p : A -> bool) (g : A -> B) (l : list A) :
  forall acc,
    fold_left (fun acc x => if p x then g x else acc) l acc
    = match rev (filter p l) with
      | x :: _ => g x
      | [] => acc
      end%list.
Proof.
  induction l as [|x l IH]; intros acc; [reflexivity|].
  cbn [fold_left filter]. rewrite IH. destruct (p x); [|reflexivity].
  cbn [rev]. destruct (rev (filter p l)); reflexivity.
Qed.

Section EmbeddedEmail.

Variable lower : string -> string.

Lemma embedded_email_last (author : ET.Element) :
  embedded_email lower author
  = match rev (electronic_addresses author) with
    | addr :: _ => ET.text addr
    | [] => match rev (email_identifiers lower author) with
            | identifier :: _ => ET.text identifier
            | [] => None
            end
    end%list.
Proof.
  unfold embedded_email, electronic_addresses, email_identifiers.
  rewrite (fold_left_overwrite (fun e => PyStr.otruthy (ET.text e)) ET.text).
  destruct (rev (filter _ (ET.findall ["ElectronicAddress"]%list author)));
    [|reflexivity].
  apply (fold_left_overwrite
           (fun e => String.eqb (lower (ET.attrib_get (ET.attrib e) "Source" "")) "email"
                     && PyStr.otruthy (ET.text e))
           ET.text).
Qed.

(** An embedded email is never empty. *)
Lemma embedded_email_truthy (author : ET.Element) (e : string) :
  embedded_email lower author = Some e -> PyStr.truthy e = true.
Proof.
  rewrite embedded_email_last.
  destruct (rev (electronic_addresses author)) as [|addr l] eqn:E.
  - destruct (rev (email_identifiers lower author)) as [|i l] eqn:E';
      [discriminate|].
    assert (Hin : In i (email_identifiers lower author))
      by (apply in_rev; rewrite E'; now left).
    apply filter_In in Hin as [_ H]. apply andb_true_iff in H as [_ H].
    intros Ht. now rewrite Ht in H.
  - assert (Hin : In addr (electronic_addresses author))
      by (apply in_rev; rewrite E; now left).
    apply filter_In in Hin as [_ H]. intros Ht. now rewrite Ht in H.
Qed.

(** C8. When an author carries electronic addresses with text, the
    embedded email is the text of the last of them, whatever "email"
    identifiers the author also carries; and the embedded email of every
    author of the list is among the candidates, whether or not the author
    is classified non-academic. *)
Theorem electronic_address_wins_and_is_collected :
  (forall author addrs addr,
     electronic_addresses author = (addrs ++ [addr])%list ->
     embedded_email lower author = ET.text addr
     /\ PyStr.otruthy (ET.text addr) = true)
  /\ (forall author identifiers identifier,
        electronic_addresses author = [] ->
        email_identifiers lower author = (identifiers ++ [identifier])%list ->
        embedded_email lower author = ET.text identifier)
  /\ (forall info author email,
        In author (article_authors info) ->
        embedded_email lower author = Some email ->
        In email (possible_emails (collect lower info))).
Proof.
  split; [|split].
  - intros author addrs addr H. rewrite embedded_email_last, H, rev_app_distr.
    split; [reflexivity|].
    assert (Hin : In addr (electronic_addresses author))
      by (rewrite H; apply in_or_app; right; now left).
    now apply filter_In in Hin as [_ Hin].
  - intros author ids i Ha Hi.
    now rewrite embedded_email_last, Ha, Hi, rev_app_distr.
  - intros info author email Hin He.
    destruct (collect_fields lower info) as (_ & _ & ->).
    apply in_or_app. right. apply in_flat_map. exists author.
    split; [assumption|]. unfold other_emails. apply in_or_app. left.
    rewrite He, (embedded_email_truthy _ _ He). now left.
Qed.

End EmbeddedEmail.

(** An author with an "email" identifier, an electronic address and a
    university affiliation: the address is the embedded email, and it is a
    candidate. *)
Lemma electronic_address_wins_and_is_collected_witness :
  embedded_email PyStr.ascii_lower Sample.both_fields = Some "addr@univ.edu"
  /\ In "addr@univ.edu"
        (possible_emails (collect PyStr.ascii_lower
                            (Sample.info [Sample.both_fields]))).
Proof.
  destruct (electronic_address_wins_and_is_collected PyStr.ascii_lower)
    as (Hwins & _ & Hcollected).
  assert (He : embedded_email PyStr.ascii_lower Sample.both_fields
               = Some "addr@univ.edu").
  { apply (Hwins Sample.both_fields []
             (Sample.leaf "ElectronicAddress" "addr@univ.edu") eq_refl). }
  split; [exact He|].
  apply (Hcollected (Sample.info [Sample.both_fields]) Sample.both_fields).
  - now left.
  - exact He.
Defined.

(** ** The corresponding-author email *)

Section CorrespondingEmail.

Variables lower strip : string -> string.
Variable service : Eff.remote.

Lemma in_corresponding_emails (authors : list ET.Element) (email : string) :
  In email (corresponding_emails lower authors) <->
  exists author affil,
    In author authors /\ In affil (author_affils author)
    /\ is_non_academic_affiliation lower (Some affil) = true
    /\ PyStr.contains "corresponding" (lower affil) = true
    /\ extract_email_from_affil affil = Some email.
Proof.
  unfold corresponding_emails. rewrite in_flat_map. split.
  - intros (author & Hin & H). apply in_flat_map in H as (affil & Haff & H).
    unfold affil_email in H.
    destruct (is_non_academic_affiliation lower (Some affil)) eqn:Ec; [|easy].
    destruct (PyStr.contains "corresponding" (lower affil)) eqn:Ek; [|easy].
    destruct (extract_email_from_affil affil) as [e|] eqn:Ee; [|easy].
    destruct H as [->|[]]. now exists author, affil.
  - intros (author & affil & Hin & Haff & Hc & Hk & He).
    exists author. split; [assumption|]. apply in_flat_map. exists affil.
    split; [assumption|]. unfold affil_email. rewrite Hc, Hk, He. now left.
Qed.

(** C2, as the code has it.  The candidates are the emails of the
    "corresponding" affiliations the classifier accepts, last one first,
    followed by all the others; so when there is such an affiliation, the
    email of the last one in document order is the record's email, chosen
    over every other candidate and without any resolver call. *)
Theorem last_corresponding_email_chosen (article medline info : ET.Element)
  (earlier : list string) (email : string) (tr : Eff.trace) :
  ET.find ["MedlineCitation"]%list article = Some medline ->
  ET.find ["Article"]%list medline = Some info ->
  corresponding_emails lower (article_authors info) = (earlier ++ [email])%list ->
  possible_emails (collect lower info)
    = (email :: rev earlier
         ++ flat_map (other_emails lower) (article_authors info))%list
  /\ exists rec,
       parse_pubmed_article lower strip service article tr = (inr (Some rec), tr)
       /\ CorrespondingAuthorEmail rec = Py.JStr email.
Proof.
  intros Hm Hi Hc.
  assert (He : possible_emails (collect lower info)
               = (email :: rev earlier
                    ++ flat_map (other_emails lower) (article_authors info))%list).
  { destruct (collect_fields lower info) as (_ & _ & ->).
    now rewrite Hc, rev_app_distr. }
  split; [exact He|].
  assert (Hin : In email (corresponding_emails lower (article_authors info)))
    by (rewrite Hc; apply in_or_app; right; now left).
  apply in_corresponding_emails in Hin as (author & affil & Hau & Haff & Hcl & _ & Hex).
  assert (Hne : non_acad_authors (collect lower info) <> []).
  { destruct (collect_fields lower info) as (-> & _ & _).
    assert (H : In (extract_author_name author, affil)
                   (non_academic_hits lower (article_authors info)))
      by (apply in_non_academic_hits; now exists author).
    destruct (non_academic_hits lower (article_authors info)); [easy|discriminate]. }
  rewrite parse_run, Hm, Hi, He.
  destruct (non_acad_authors (collect lower info)); [congruence|].
  eexists. split; [reflexivity|].
  cbn [make_record CorrespondingAuthorEmail]. unfold or_empty.
  cbn [Py.truthy]. now rewrite (extract_email_truthy _ _ Hex).
Qed.

End CorrespondingEmail.

(** With the three sample authors, the email of the last "corresponding"
    company affiliation is the one of the record. *)
Lemma last_corresponding_email_chosen_witness :
  exists rec,
    parse_pubmed_article PyStr.ascii_lower PyStr.ascii_strip Sample.offline
      (Sample.article "123" [] Sample.three_authors) []
    = (inr (Some rec), [])
    /\ CorrespondingAuthorEmail rec = Py.JStr "c@beta.com".
Proof.
  apply (last_corresponding_email_chosen PyStr.ascii_lower PyStr.ascii_strip
           Sample.offline (Sample.article "123" [] Sample.three_authors)
           (Sample.medline "123" Sample.three_authors)
           (Sample.info Sample.three_authors)
           ["a@acme.com"] "c@beta.com" [] eq_refl eq_refl eq_refl).
Defined.

(** The claim as worded fails on the three sample authors: the first two
    have an affiliation that contains "corresponding" and an email, and the
    record carries neither of these emails. *)
Lemma corresponding_email_not_always_chosen :
  map author_affils (article_authors (Sample.info Sample.three_authors))
    = [[Sample.acme_corresponding]; [Sample.univ_corresponding];
       [Sample.beta_corresponding; "Gamma LLC"]]%list
  /\ PyStr.contains "corresponding" (PyStr.ascii_lower Sample.acme_corresponding) = true
  /\ extract_email_from_affil Sample.acme_corresponding = Some "a@acme.com"
  /\ PyStr.contains "corresponding" (PyStr.ascii_lower Sample.univ_corresponding) = true
  /\ extract_email_from_affil Sample.univ_corresponding = Some "r@univ.edu"
  /\ possible_emails (collect PyStr.ascii_lower (Sample.info Sample.three_authors))
     = ["c@beta.com"; "a@acme.com"]%list
  /\ exists rec,
       parse_pubmed_article PyStr.ascii_lower PyStr.ascii_strip Sample.offline
         (Sample.article "123" [] Sample.three_authors) []
       = (inr (Some rec), [])
       /\ CorrespondingAuthorEmail rec <> Py.JStr "a@acme.com"
       /\ CorrespondingAuthorEmail rec <> Py.JStr "r@univ.edu".
Proof.
  repeat (split; [reflexivity|]).
  eexists. split; [reflexivity|]. split; discriminate.
Qed.

(** ** The cascade inside the parser *)

Section CascadeInParser.

Variables lower strip : string -> string.
Variable service : Eff.remote.

(** C4. For an article with a non-academic author and no inline candidate,
    the parser runs a prefix of the stages CrossRef (present only with a
    DOI), Europe PMC search, Europe PMC emails (present only with a PMID),
    in this order, each request followed by the pause.  A stage that was
    run and answered a non-empty value is the last one run, and its answer
    is the record's email; after an empty answer the next stage is run. *)
Theorem resolver_cascade_order (article medline info : ET.Element)
  (tr : Eff.trace) :
  ET.find ["MedlineCitation"]%list article = Some medline ->
  ET.find ["Article"]%list medline = Some info ->
  non_acad_authors (collect lower info) <> [] ->
  possible_emails (collect lower info) = [] ->
  let stages :=
    resolver_stages (present (get_doi_from_pubmed_xml lower strip article))
                    (present (ET.findtext "PMID" medline)) in
  exists n rec,
    n <= List.length stages
    /\ (stages <> [] -> 0 < n)
    /\ parse_pubmed_article lower strip service article tr
       = (inr (Some rec), (tr ++ stage_events (firstn n stages))%list)
    /\ Eff.requests (stage_events (firstn n stages)) = map fst (firstn n stages)
    /\ forall k req scan,
         nth_error stages k = Some (req, scan) -> k < n ->
         let v := resolver_answer scan
                    (service (tr ++ stage_events (firstn k stages))%list req) in
         (Py.truthy v = true -> n = S k /\ CorrespondingAuthorEmail rec = v)
         /\ (Py.truthy v = false -> S k < List.length stages -> S k < n).
Proof.
  intros Hm Hi Hne He stages.
  destruct (resolve_email_refines lower strip service article medline tr)
    as (v & Hrun & Hv).
  fold stages in Hrun, Hv.
  destruct (spec_cascade_stops service stages tr) as (n & Hn & Htr & Hpos & Hk).
  exists n, (make_record lower strip medline info v).
  split; [assumption|]. split; [assumption|]. split.
  - rewrite parse_run, Hm, Hi, He, Hrun, Htr.
    destruct (non_acad_authors (collect lower info)); [congruence|reflexivity].
  - split; [apply requests_stage_events|].
    intros k req scan Hnth Hlt. specialize (Hk k req scan Hnth Hlt).
    cbv zeta in *. destruct Hk as [Ht Hf]. split; [|exact Hf].
    intros Hv'. destruct (Ht Hv') as [-> Hfst]. split; [reflexivity|].
    cbn [make_record CorrespondingAuthorEmail]. rewrite Hv, Hfst.
    unfold or_empty. now rewrite Hv'.
Qed.

End CascadeInParser.

(** CrossRef answers with an email: one request, then the pause, and the
    Europe PMC resolvers are not called. *)
Lemma resolver_cascade_order_witness :
  exists rec,
    parse_pubmed_article PyStr.ascii_lower PyStr.ascii_strip Sample.crossref_answers
      (Sample.article "42" [Sample.doi_id " 10.1000/xyz "] Sample.no_inline_email) []
    = (inr (Some rec), [Eff.Get (Eff.CrossRef "10.1000/xyz"); Eff.Sleep 200])
    /\ CorrespondingAuthorEmail rec = Py.JStr "jane@acme.com".
Proof.
  destruct (resolver_cascade_order PyStr.ascii_lower PyStr.ascii_strip
              Sample.crossref_answers
              (Sample.article "42" [Sample.doi_id " 10.1000/xyz "] Sample.no_inline_email)
              (Sample.medline "42" Sample.no_inline_email)
              (Sample.info Sample.no_inline_email)
              [] eq_refl eq_refl ltac:(discriminate) eq_refl)
    as (n & rec & Hn & Hpos & Hrun & _ & Hk).
  destruct (Hk 0 (Eff.CrossRef "10.1000/xyz") crossref_scan eq_refl
              (Hpos ltac:(discriminate))) as [Hstop _].
  destruct (Hstop eq_refl) as [-> Hemail].
  exists rec. split; [exact Hrun|exact Hemail].
Defined.

(** ** The detail fetch *)

Section DetailsFacts.

Variables lower strip : string -> string.
Variable service : Eff.remote.

Let parse := parse_pubmed_article lower strip service.

Lemma efetch_ids_app (a b : Eff.trace) :
  efetch_ids (a ++ b)%list = (efetch_ids a ++ efetch_ids b)%list.
Proof. unfold efetch_ids. now rewrite requests_app, flat_map_app. Qed.

Lemma efetch_ids_stages (doi pmid : option string) (n : nat) :
  efetch_ids (stage_events (firstn n (resolver_stages doi pmid))) = [].
Proof.
  destruct doi, pmid; destruct n as [|[|[|[|n]]]]; reflexivity.
Qed.

(** The parser returns, extends the trace, and sends no detail request. *)
Lemma parse_extends (article : ET.Element) (tr : Eff.trace) :
  exists result new,
    parse article tr = (inr result, (tr ++ new)%list) /\ efetch_ids new = [].
Proof.
  unfold parse. rewrite parse_run.
  destruct (ET.find ["MedlineCitation"]%list article) as [medline|];
    [|exists None, []; now rewrite app_nil_r].
  destruct (ET.find ["Article"]%list medline) as [info|];
    [|exists None, []; now rewrite app_nil_r].
  destruct (non_acad_authors (collect lower info));
    [exists None, []; now rewrite app_nil_r|].
  destruct (possible_emails (collect lower info)).
  - destruct (resolve_email_refines lower strip service article medline tr)
      as (v & -> & _).
    set (stages := resolver_stages _ _).
    destruct (spec_cascade_stops service stages tr) as (n & _ & -> & _).
    eexists _, _. split; [reflexivity|]. apply efetch_ids_stages.
  - eexists _, []. now rewrite app_nil_r.
Qed.

Lemma parse_all_extends (articles : list ET.Element) :
  forall tr,
    exists records new,
      parse_all lower strip service articles tr = (inr records, (tr ++ new)%list)
      /\ efetch_ids new = []
      /\ forall rec, In rec records ->
           exists article t1 t2,
             In article articles /\ parse article t1 = (inr (Some rec), t2).
Proof.
  induction articles as [|article rest IH]; intros tr.
  - exists [], []. cbn. rewrite app_nil_r. repeat split. intros rec [].
  - cbn [parse_all]. unfold Eff.bind, Eff.ret.
    destruct (parse_extends article tr) as (result & new1 & Hp & He1).
    fold parse. rewrite Hp.
    destruct (IH (tr ++ new1)%list) as (records & new2 & Hr & He2 & Hin).
    rewrite Hr. exists (olist result ++ records)%list, (new1 ++ new2)%list.
    rewrite app_assoc. split; [reflexivity|]. split.
    + now rewrite efetch_ids_app, He1, He2.
    + intros rec H. apply in_app_or in H as [H|H].
      * destruct result as [r|]; [|destruct H]. destruct H as [->|[]].
        exists article, tr, (tr ++ new1)%list. split; [now left|assumption].
      * destruct (Hin rec H) as (a & t1 & t2 & Ha & Hpa).
        exists a, t1, t2. split; [now right|assumption].
Qed.

(** The inner loop with its accumulator is [parse_all]. *)
Lemma parse_articles_eq (articles : list ET.Element) :
  forall acc tr,
    parse_articles lower strip service articles acc tr
    = Eff.fmap (app acc) (parse_all lower strip service articles) tr.
Proof.
  unfold parse_articles, Eff.fmap.
  induction articles as [|article rest IH]; intros acc tr.
  - cbn. now rewrite app_nil_r.
  - cbn [Eff.for_each parse_all]. unfold Eff.bind at 1 2 4. unfold Eff.bind at 2.
    unfold Eff.ret at 1.
    destruct (parse_pubmed_article lower strip service article tr) as [[e|r] tr1];
      [reflexivity|].
    rewrite IH. unfold Eff.bind, Eff.ret.
    destruct (parse_all lower strip service rest tr1) as [[e|rs] tr2];
      [reflexivity|].
    destruct r as [r|]; cbn [olist app]; [|reflexivity].
    now rewrite <- app_assoc.
Qed.

(** One iteration of the batch loop is one batch request. *)
Lemma fetch_batch_eq (pubmed_ids : list string) (acc : list ParsedRecord)
  (i : nat) (tr : Eff.trace) :
  fetch_batch lower strip service pubmed_ids acc i tr
  = Eff.fmap (app acc)
      (request_batch lower strip service (batch_at pubmed_ids i)
         (i + BATCH_SIZE <? List.length pubmed_ids)%nat) tr.
Proof.
  unfold fetch_batch, request_batch, batch_at, Eff.fmap, Eff.bind.
  destruct (http_get service _ tr) as [[e|resp] tr1]; [reflexivity|].
  unfold Eff.lift.
  destruct (Eff.raise_for_status resp) as [e|[]]; [reflexivity|].
  destruct ((if (i + BATCH_SIZE <? List.length pubmed_ids)%nat
             then Eff.sleep THROTTLE_SECONDS else Eff.ret tt) tr1)
    as [[e|[]] tr2]; [reflexivity|].
  destruct (Eff.fromstring resp) as [e|root]; [reflexivity|].
  apply parse_articles_eq.
Qed.

(** The batch loop from chunk [s] on, with [n] chunks to go. *)
Lemma batch_loop_eq (pubmed_ids : list string) (n : nat) :
  forall s acc tr,
    (forall k, k < n ->
       ((s + k) * BATCH_SIZE + BATCH_SIZE <? List.length pubmed_ids)%nat
       = negb (S k =? n)%nat) ->
    Eff.for_each (map (fun k => k * BATCH_SIZE) (seq s n))
      (fetch_batch lower strip service pubmed_ids) acc tr
    = Eff.fmap (app acc)
        (spec_details lower strip service
           (map (batch_at pubmed_ids) (map (fun k => k * BATCH_SIZE) (seq s n))))
        tr.
Proof.
  induction n as [|n IH]; intros s acc tr Hflag.
  - cbn. unfold Eff.fmap, Eff.ret. now rewrite app_nil_r.
  - cbn [seq map Eff.for_each spec_details].
    unfold Eff.bind at 1. rewrite fetch_batch_eq.
    pose proof (Hflag 0 ltac:(lia)) as H0. rewrite Nat.add_0_r in H0.
    rewrite H0.
    assert (Hmore : match map (batch_at pubmed_ids)
                            (map (fun k => k * BATCH_SIZE) (seq (S s) n)) with
                    | [] => false
                    | _ :: _ => true
                    end%list = negb (1 =? S n)%nat)
      by (destruct n; reflexivity).
    rewrite Hmore. unfold Eff.fmap at 1 2. unfold Eff.bind at 1.
    destruct (request_batch lower strip service _ _ tr) as [[e|rs] tr1];
      [reflexivity|].
    rewrite IH.
    + unfold Eff.fmap, Eff.bind, Eff.ret.
      destruct (spec_details lower strip service _ tr1) as [[e|more] tr2];
        [reflexivity|].
      now rewrite app_assoc.
    + intros k Hk. specialize (Hflag (S k) ltac:(lia)).
      rewrite Nat.add_succ_r in Hflag. exact Hflag.
Qed.

End DetailsFacts.

(** ** Batches *)

Lemma batch_count_flag (len k : nat) :
  k < (len + BATCH_SIZE - 1) / BATCH_SIZE ->
  (k * BATCH_SIZE + BATCH_SIZE <? len)%nat
  = negb (S k =? (len + BATCH_SIZE - 1) / BATCH_SIZE)%nat.
Proof.
  unfold BATCH_SIZE. intros Hk.
  set (m := (len + 100 - 1) / 100) in *.
  assert (Hm : 100 * m <= len + 100 - 1 < 100 * S m).
  { split; [apply Nat.Div0.mul_div_le|apply Nat.mul_succ_div_gt; lia]. }
  destruct (Nat.ltb_spec (k * 100 + 100) len);
    destruct (Nat.eqb_spec (S k) m); simpl; try reflexivity; nia.
Qed.

Lemma firstn_plus {A : Type} (a b : nat) (l : list A) :
  firstn (a + b) l = (firstn a l ++ firstn b (skipn a l))%list.
Proof.
  revert l; induction a as [|a IH]; intros l; [reflexivity|].
  destruct l as [|x l]; simpl; [now rewrite firstn_nil|now rewrite IH].
Qed.

Lemma skipn_plus {A : Type} (a b : nat) (l : list A) :
  skipn (a + b) l = skipn b (skipn a l).
Proof.
  revert l; induction a as [|a IH]; intros l; [reflexivity|].
  destruct l as [|x l]; simpl; [now rewrite skipn_nil|apply IH].
Qed.

(** The chunks [s], [s+1], ..., [s+n-1] laid end to end are the [n * 100]
    identifiers after the first [s * 100]. *)
Lemma concat_batches (pubmed_ids : list string) (n : nat) :
  forall s,
    List.concat (map (batch_at pubmed_ids) (map (fun k => k * BATCH_SIZE) (seq s n)))
    = firstn (n * BATCH_SIZE) (skipn (s * BATCH_SIZE) pubmed_ids).
Proof.
  induction n as [|n IH]; intros s; [reflexivity|].
  cbn [seq map List.concat]. rewrite IH. unfold batch_at.
  change (S n * BATCH_SIZE) with (BATCH_SIZE + n * BATCH_SIZE).
  rewrite firstn_plus.
  change (S s * BATCH_SIZE) with (BATCH_SIZE + s * BATCH_SIZE).
  now rewrite (Nat.add_comm BATCH_SIZE (s * BATCH_SIZE)), skipn_plus.
Qed.

(** The split: the batches are consecutive pieces of the ID list, each
    of 1 to 100 identifiers, all but the last of exactly 100. *)
Lemma id_batches_partition (pubmed_ids : list string) :
  List.concat (id_batches pubmed_ids) = pubmed_ids
  /\ Forall (fun batch => 1 <= List.length batch <= BATCH_SIZE)
            (id_batches pubmed_ids)
  /\ forall k, S k < List.length (id_batches pubmed_ids) ->
               List.length (nth k (id_batches pubmed_ids) []) = BATCH_SIZE.
Proof.
  unfold id_batches, range_step.
  set (len := List.length pubmed_ids).
  set (m := (len + BATCH_SIZE - 1) / BATCH_SIZE).
  assert (Hm : BATCH_SIZE * m <= len + BATCH_SIZE - 1 < BATCH_SIZE * S m).
  { unfold m, BATCH_SIZE.
    split; [apply Nat.Div0.mul_div_le|apply Nat.mul_succ_div_gt; lia]. }
  unfold BATCH_SIZE in Hm.
  split; [|split].
  - rewrite concat_batches. cbn [Nat.mul skipn].
    apply firstn_all2. fold len. unfold BATCH_SIZE. lia.
  - apply Forall_forall. intros batch Hin.
    apply in_map_iff in Hin as (i & <- & Hin).
    apply in_map_iff in Hin as (k & <- & Hin). apply in_seq in Hin.
    unfold batch_at. rewrite length_firstn, length_skipn. fold len.
    unfold BATCH_SIZE. lia.
  - rewrite !length_map, length_seq. intros k Hk.
    rewrite map_map.
    rewrite (nth_indep _ [] ((fun k => batch_at pubmed_ids (k * BATCH_SIZE)) 0))
      by (rewrite length_map, length_seq; lia).
    rewrite (map_nth (fun k => batch_at pubmed_ids (k * BATCH_SIZE))).
    rewrite seq_nth by lia. unfold batch_at.
    rewrite length_firstn, length_skipn. fold len. unfold BATCH_SIZE. lia.
Qed.

Section DetailsRefinement.

Variables lower strip : string -> string.
Variable service : Eff.remote.

(** The loop: the accumulating loops of [fetch_pubmed_details] compute
    what the specification words. *)
Lemma fetch_details_refines (pubmed_ids : list string) (tr : Eff.trace) :
  fetch_pubmed_details lower strip service pubmed_ids tr
  = spec_details lower strip service (id_batches pubmed_ids) tr.
Proof.
  unfold fetch_pubmed_details, id_batches, range_step.
  destruct pubmed_ids as [|id ids] eqn:E; [reflexivity|]. rewrite <- E.
  rewrite batch_loop_eq.
  - unfold Eff.fmap.
    destruct (spec_details lower strip service _ tr) as [[e|rs] tr1]; reflexivity.
  - intros k Hk. apply batch_count_flag. exact Hk.
Qed.

(** A run of the specification's loop: the detail requests are one per
    batch, in order, and every record comes from the parser. *)
Lemma spec_details_run (batches : list (list string)) :
  forall tr records tr',
    spec_details lower strip service batches tr = (inr records, tr') ->
    exists new,
      tr' = (tr ++ new)%list
      /\ efetch_ids new = map (PyStr.join ",") batches
      /\ forall rec, In rec records ->
           exists article t1 t2,
             parse_pubmed_article lower strip service article t1
             = (inr (Some rec), t2).
Proof.
  induction batches as [|batch rest IH]; intros tr records tr'.
  - cbn. intros [= <- <-]. exists []. rewrite app_nil_r. repeat split.
    intros rec [].
  - cbn [spec_details]. unfold Eff.bind at 1. unfold request_batch.
    unfold Eff.bind at 1. unfold http_get at 1.
    destruct (service tr _) as [resp|]; [|discriminate].
    unfold Eff.bind at 1. unfold Eff.lift at 1.
    destruct (Eff.raise_for_status resp) as [e|[]]; [discriminate|].
    unfold Eff.bind at 1.
    set (more := match rest with [] => false | _ => true end%list).
    set (tr1 := (tr ++ [Eff.Get (Eff.EFetch (PyStr.join "," batch))])%list).
    assert (Hs : exists pause,
               (if more then Eff.sleep THROTTLE_SECONDS else Eff.ret tt) tr1
               = (inr tt, (tr1 ++ pause)%list) /\ efetch_ids pause = []).
    { destruct more; [exists [Eff.Sleep THROTTLE_SECONDS]|exists []]; cbn;
        rewrite ?app_nil_r; auto. }
    destruct Hs as (pause & -> & Hpause).
    unfold Eff.bind at 1. unfold Eff.lift at 1.
    destruct (Eff.fromstring resp) as [e|root]; [discriminate|].
    destruct (parse_all_extends lower strip service
                (ET.findall_desc "PubmedArticle" root) (tr1 ++ pause)%list)
      as (rs & new1 & -> & He1 & Hin1).
    unfold Eff.bind, Eff.ret.
    destruct (spec_details lower strip service rest _) as [[e|more_rs] tr2] eqn:Er;
      [discriminate|].
    intros [= <- <-].
    destruct (IH _ _ _ Er) as (new2 & -> & He2 & Hin2).
    exists ([Eff.Get (Eff.EFetch (PyStr.join "," batch))] ++ pause ++ new1 ++ new2)%list.
    split; [subst tr1; now rewrite <- !app_assoc|]. split.
    + rewrite !efetch_ids_app, Hpause, He1, He2. reflexivity.
    + intros rec H. apply in_app_or in H as [H|H]; [|now apply Hin2].
      destruct (Hin1 rec H) as (a & t1 & t2 & _ & Hp). now exists a, t1, t2.
Qed.

(** With the detail service available, the specification's loop returns. *)
Lemma spec_details_returns (batches : list (list string)) :
  efetch_available service ->
  forall tr, exists records tr',
    spec_details lower strip service batches tr = (inr records, tr').
Proof.
  intros Hav. induction batches as [|batch rest IH]; intros tr.
  - now exists [], tr.
  - cbn [spec_details]. unfold Eff.bind at 1. unfold request_batch.
    unfold Eff.bind at 1. unfold http_get at 1.
    destruct (Hav tr (PyStr.join "," batch)) as (status & root & -> & Hst).
    unfold Eff.bind at 1. unfold Eff.lift at 1, Eff.raise_for_status.
    cbn [Eff.status_code]. rewrite Hst.
    unfold Eff.bind at 1.
    set (tr1 := (tr ++ [Eff.Get (Eff.EFetch (PyStr.join "," batch))])%list).
    assert (Hs : exists tr2,
               (if match rest with [] => false | _ => true end%list
                then Eff.sleep THROTTLE_SECONDS else Eff.ret tt) tr1
               = (inr tt, tr2)).
    { destruct rest; eexists; reflexivity. }
    destruct Hs as (tr2 & ->).
    unfold Eff.bind at 1. unfold Eff.lift at 1, Eff.fromstring.
    cbn [Eff.content].
    destruct (parse_all_extends lower strip service
                (ET.findall_desc "PubmedArticle" root) tr2)
      as (rs & new1 & -> & _).
    unfold Eff.bind, Eff.ret.
    destruct (IH (tr2 ++ new1)%list) as (more & tr3 & ->).
    now eexists _, _.
Qed.

End DetailsRefinement.

Section Orchestrator.

Variables lower strip : string -> string.
Variable service : Eff.remote.

(** C9. [fetch_pubmed_details] computes what the specification words over
    the batches of the ID list: these are consecutive pieces of the list of
    1 to 100 identifiers; a run that returns has sent one detail request
    per batch, in order; the records are, batch after batch and article
    after article in document order, the non-none results of the parser;
    and with the detail service available the run does return. *)
Theorem fetch_details_in_batches (pubmed_ids : list string) (tr : Eff.trace) :
  fetch_pubmed_details lower strip service pubmed_ids tr
    = spec_details lower strip service (id_batches pubmed_ids) tr
  /\ List.concat (id_batches pubmed_ids) = pubmed_ids
  /\ Forall (fun batch => 1 <= List.length batch <= BATCH_SIZE)
            (id_batches pubmed_ids)
  /\ (forall records tr',
        fetch_pubmed_details lower strip service pubmed_ids tr = (inr records, tr') ->
        exists new,
          tr' = (tr ++ new)%list
          /\ efetch_ids new = map (PyStr.join ",") (id_batches pubmed_ids))
  /\ (efetch_available service ->
      exists records tr',
        fetch_pubmed_details lower strip service pubmed_ids tr = (inr records, tr')).
Proof.
  split; [apply fetch_details_refines|].
  destruct (id_batches_partition pubmed_ids) as (Hc & Hl & _).
  split; [exact Hc|]. split; [exact Hl|]. split.
  - intros records tr'. rewrite fetch_details_refines. intros H.
    apply spec_details_run in H as (new & Htr & Hids & _). now exists new.
  - intros Hav.
    destruct (spec_details_returns lower strip service (id_batches pubmed_ids) Hav tr)
      as (records & tr' & H).
    exists records, tr'. now rewrite fetch_details_refines.
Qed.

(** C1. Without an author whose affiliation is classified non-academic the
    parser returns none, from any trace and without touching it; a record
    is returned only for an article with such an author; and every record
    [fetch_pubmed_details] returns is the parser's record of an article
    with such an author. *)
Theorem record_only_with_non_academic_author :
  (forall article tr,
     ~ has_non_academic_author lower article ->
     parse_pubmed_article lower strip service article tr = (inr None, tr))
  /\ (forall article tr rec tr',
        parse_pubmed_article lower strip service article tr = (inr (Some rec), tr') ->
        has_non_academic_author lower article)
  /\ (forall pubmed_ids tr records tr' rec,
        fetch_pubmed_details lower strip service pubmed_ids tr = (inr records, tr') ->
        In rec records ->
        exists article t1 t2,
          parse_pubmed_article lower strip service article t1 = (inr (Some rec), t2)
          /\ has_non_academic_author lower article).
Proof.
  assert (Hsome : forall article tr rec tr',
             parse_pubmed_article lower strip service article tr
             = (inr (Some rec), tr') ->
             has_non_academic_author lower article).
  { intros article tr rec tr' H.
    apply parse_some in H as (medline & info & email & Hm & Hi & Hne & _).
    now apply (non_acad_authors_nonempty lower article medline info Hm Hi). }
  split; [|split].
  - intros article tr Hno. rewrite parse_run.
    destruct (ET.find ["MedlineCitation"]%list article) as [medline|] eqn:Hm;
      [|reflexivity].
    destruct (ET.find ["Article"]%list medline) as [info|] eqn:Hi; [|reflexivity].
    destruct (non_acad_authors (collect lower info)) eqn:Ea; [reflexivity|].
    exfalso. apply Hno.
    apply (non_acad_authors_nonempty lower article medline info Hm Hi). congruence.
  - exact Hsome.
  - intros pubmed_ids tr records tr' rec. rewrite fetch_details_refines.
    intros H Hin. apply spec_details_run in H as (new & _ & _ & Hrec).
    destruct (Hrec rec Hin) as (article & t1 & t2 & Hp).
    exists article, t1, t2. split; [exact Hp|]. now apply Hsome in Hp.
Qed.

End Orchestrator.

(** Two identifiers, one batch, one request; of the two returned articles
    only the one with company authors gives a record. *)
Lemma fetch_details_in_batches_witness :
  exists rec,
    fetch_pubmed_details PyStr.ascii_lower PyStr.ascii_strip Sample.pubmed
      ["123"; "7"]%list []
    = (inr [rec]%list, [Eff.Get (Eff.EFetch "123,7")]%list)
    /\ PubmedID rec = Some "123".
Proof.
  destruct (fetch_details_in_batches PyStr.ascii_lower PyStr.ascii_strip
              Sample.pubmed ["123"; "7"]%list [])
    as (Hspec & _ & _ & _ & Hret).
  destruct Hret as (records & tr' & Hrun).
  { intros tr id. exists 200%Z. eexists. split; reflexivity. }
  rewrite Hspec. eexists. split; reflexivity.
Defined.

(** 250 identifiers are cut into batches of 100, 100 and 50. *)
Example id_batches_250 :
  map (@List.length string) (id_batches (repeat "1" 250)) = [100; 100; 50]%list.
Proof. reflexivity. Qed.

(** The academic-only sample article gives no record. *)
Lemma record_only_with_non_academic_author_witness :
  parse_pubmed_article PyStr.ascii_lower PyStr.ascii_strip Sample.offline
    (Sample.article "7" [] [Sample.both_fields]) []
  = (inr None, []).
Proof.
  destruct (record_only_with_non_academic_author PyStr.ascii_lower
              PyStr.ascii_strip Sample.offline) as (Hnone & _ & _).
  apply Hnone.
  intros (info & author & affil & Hinfo & Hau & Haff & Hc).
  injection Hinfo as <-.
  destruct Hau as [<-|[]].
  destruct Haff as [<-|[]].
  discriminate Hc.
Defined.

(** ** The paginated search *)

Lemma pages_needed_spec (total retmax : Z) (j : nat) :
  (0 < retmax)%Z -> 1 <= j ->
  ((total <= Z.of_nat j * retmax)%Z <-> pages_needed total retmax <= j).
Proof.
  intros Hr Hj. unfold pages_needed.
  set (q := ((total + retmax - 1) / retmax)%Z).
  assert (H1 : (retmax * q <= total + retmax - 1)%Z)
    by (apply Z.mul_div_le; lia).
  assert (H2 : (total + retmax - 1 < retmax * Z.succ q)%Z)
    by (apply Z.mul_succ_div_gt; lia).
  split; intros H.
  - assert (q <= Z.of_nat j)%Z by nia. lia.
  - assert (q <= Z.of_nat j)%Z by lia. nia.
Qed.

Lemma page_events_S (query : string) (retmax : Z) (k : nat) :
  page_events query retmax (S k)
  = (page_events query retmax k
     ++ [Eff.Get (Eff.ESearch query retmax (page_offset retmax k));
         Eff.Sleep THROTTLE_SECONDS])%list.
Proof.
  unfold page_events. rewrite seq_S, flat_map_app. cbn [flat_map Nat.add].
  now rewrite app_nil_r.
Qed.

Lemma requests_page_events (query : string) (retmax : Z) (n : nat) :
  Eff.requests (page_events query retmax n)
  = map (fun k => Eff.ESearch query retmax (page_offset retmax k)) (seq 0 n).
Proof.
  unfold page_events. generalize (seq 0 n). intros l.
  induction l as [|k l IH]; [reflexivity|].
  cbn [flat_map map]. rewrite requests_app, IH. reflexivity.
Qed.

Section Pagination.

Variable strip : string -> string.
Variable py_int : Py.value -> Py.result Z.
Variable service : Eff.remote.

Variables (query : string) (retmax total : Z).
Variable ids_of : nat -> list Py.value.
Variable tr : Eff.trace.

Hypothesis retmax_positive : (0 < retmax)%Z.

(** The service answers page [k], asked after the [k] pages before it, with
    the identifiers [ids_of k]; the first page reports the total. *)
Hypothesis pages_served :
  forall k,
    k < pages_needed total retmax ->
    exists resp,
      service (tr ++ page_events query retmax k)%list
              (Eff.ESearch query retmax (page_offset retmax k))
      = Some resp
      /\ page_ids resp (ids_of k)
      /\ (k = 0 -> page_count py_int resp total).

(** The loop from page [k] on, with [j] pages to go. *)
Lemma fetch_pages_run (j : nat) :
  forall k fuel acc,
    k + j = pages_needed total retmax -> 0 < j -> j <= fuel ->
    fetch_pages py_int service fuel query retmax acc (page_offset retmax k)
      (if (k =? 0)%nat then None else Some total)
      (tr ++ page_events query retmax k)%list
    = (inr (Some (acc ++ flat_map ids_of (seq k j))%list),
       (tr ++ page_events query retmax (pages_needed total retmax))%list).
Proof.
  induction j as [|j IH]; intros k fuel acc Hk Hj Hfuel; [lia|].
  destruct fuel as [|fuel]; [lia|].
  destruct (pages_served k ltac:(lia)) as (resp & Hresp & Hids & Hcount).
  destruct Hids as (Hstatus & data & result & idlist & Hjson & Hres & Hlist & Hiter).
  cbn [fetch_pages]. unfold Eff.bind at 1. unfold http_get at 1. rewrite Hresp.
  unfold Eff.bind at 1. unfold Eff.lift at 1. rewrite Hstatus.
  unfold Eff.bind at 1. unfold Eff.sleep at 1.
  rewrite <- app_assoc. cbn [app]. rewrite <- app_assoc, <- page_events_S.
  unfold Eff.bind at 1. unfold Eff.lift at 1. rewrite Hjson.
  assert (Htotal :
            match (if (k =? 0)%nat then None else Some total) with
            | None =>
                Eff.lift (let? result := Py.getitem data "esearchresult" in
                          let? count := Py.getitem result "count" in
                          py_int count)
            | Some t => Eff.ret t
            end (tr ++ page_events query retmax (S k))%list
            = (inr total, (tr ++ page_events query retmax (S k))%list)).
  { destruct (Nat.eqb_spec k 0) as [E|E]; [|reflexivity].
    destruct (Hcount E) as (data' & result' & count & Hjson' & Hres' & Hcnt & Hint).
    rewrite Hjson in Hjson'. injection Hjson' as <-.
    unfold Eff.lift. now rewrite Hres', Hcnt, Hint. }
  unfold Eff.bind at 1. rewrite Htotal.
  unfold Eff.bind at 1. unfold Eff.lift at 1. rewrite Hres, Hlist, Hiter.
  change (page_offset retmax k + retmax)%Z with (Z.of_nat k * retmax + retmax)%Z.
  replace (Z.of_nat k * retmax + retmax)%Z with (page_offset retmax (S k))
    by (unfold page_offset; lia).
  destruct j as [|j].
  - assert (Hstop : (page_offset retmax (S k) >=? total)%Z = true).
    { apply Z.geb_le. unfold page_offset.
      apply (pages_needed_spec total retmax (S k)); lia. }
    rewrite Hstop. unfold Eff.ret. cbn [seq flat_map]. rewrite app_nil_r.
    replace (pages_needed total retmax) with (S k) by lia. reflexivity.
  - assert (Hgo : (page_offset retmax (S k) >=? total)%Z = false).
    { destruct (Z.geb_spec (page_offset retmax (S k)) total) as [H|H];
        [|reflexivity].
      unfold page_offset in H.
      apply (pages_needed_spec total retmax (S k)) in H; lia. }
    rewrite Hgo.
    specialize (IH (S k) fuel (acc ++ ids_of k)%list ltac:(lia) ltac:(lia) ltac:(lia)).
    cbn [Nat.eqb] in IH. rewrite IH. cbn [seq flat_map].
    now rewrite <- app_assoc.
Qed.

End Pagination.

(** C6. With a positive page size and a service that serves the pages,
    [fetch_pubmed_ids] sends exactly [pages_needed total retmax] requests,
    at the offsets 0, retmax, 2 retmax, ..., the total being read from the
    first page only, and returns the identifier lists of the pages
    concatenated in order.  The number of pages is the first count, at
    least one, at which the offset has reached the total; for a total of
    250 and pages of 100 it is 3, with the offsets 0, 100 and 200. *)
Theorem fetch_ids_pagination (strip : string -> string)
  (py_int : Py.value -> Py.result Z) (service : Eff.remote)
  (query : string) (retmax total : Z) (ids_of : nat -> list Py.value)
  (tr : Eff.trace) (fuel : nat) :
  (0 < retmax)%Z ->
  let q := clean_query strip query in
  let n := pages_needed total retmax in
  (forall k,
     k < n ->
     exists resp,
       service (tr ++ page_events q retmax k)%list
               (Eff.ESearch q retmax (page_offset retmax k))
       = Some resp
       /\ page_ids resp (ids_of k)
       /\ (k = 0 -> page_count py_int resp total)) ->
  n <= fuel ->
  fetch_pubmed_ids strip py_int service fuel query retmax tr
    = (inr (Some (flat_map ids_of (seq 0 n))), (tr ++ page_events q retmax n)%list)
  /\ Eff.requests (page_events q retmax n)
     = map (fun k => Eff.ESearch q retmax (page_offset retmax k)) (seq 0 n)
  /\ 1 <= n
  /\ (forall j, 1 <= j -> ((total <= page_offset retmax j)%Z <-> n <= j))
  /\ (total = 250%Z -> retmax = 100%Z ->
      n = 3 /\ map (page_offset retmax) (seq 0 n) = [0; 100; 200]%Z).
Proof.
  intros Hr q n Hserved Hfuel.
  assert (Hn : 1 <= n) by (unfold n, pages_needed; lia).
  split; [|split; [|split; [|split]]].
  - unfold fetch_pubmed_ids. fold q.
    pose proof (fetch_pages_run py_int service q retmax total ids_of tr Hr
                  Hserved n 0 fuel [] eq_refl Hn Hfuel) as H.
    cbn [Nat.eqb page_events seq flat_map app] in H.
    rewrite app_nil_r in H. exact H.
  - apply requests_page_events.
  - exact Hn.
  - intros j Hj. now apply pages_needed_spec.
  - intros -> ->. split; reflexivity.
Qed.

(** A query with 250 results and pages of 100: three requests at the
    offsets 0, 100 and 200, each followed by the pause, and the 250
    identifiers in order. *)
Lemma fetch_ids_pagination_witness :
  fetch_pubmed_ids PyStr.ascii_strip PyInt.dec_int Sample.esearch 3 "cancer" 100 []
  = (inr (Some (Sample.id_strings 0 250)),
     [Eff.Get (Eff.ESearch "cancer" 100 0); Eff.Sleep 340;
      Eff.Get (Eff.ESearch "cancer" 100 100); Eff.Sleep 340;
      Eff.Get (Eff.ESearch "cancer" 100 200); Eff.Sleep 340]%list)
  /\ List.length (Sample.id_strings 0 250) = 250.
Proof.
  destruct (fetch_ids_pagination PyStr.ascii_strip PyInt.dec_int Sample.esearch
              "cancer" 100 250
              (fun k => Sample.id_strings (k * 100) (Nat.min 100 (250 - k * 100)))
              [] 3)
    as (Hrun & _).
  - lia.
  - intros k Hk. change (pages_needed 250 100) with 3 in Hk.
    destruct k as [|[|[|k]]]; [| | |lia];
      (eexists; split; [reflexivity|]; split;
       [ split; [reflexivity|]; eexists _, _, _; repeat split; reflexivity
       | intros E; try discriminate E;
         eexists _, _, _; repeat split; reflexivity ]).
  - change (pages_needed 250 100) with 3. lia.
  - split; [exact Hrun|reflexivity].
Defined.

(** ** The examples of the specification *)

(** An author of "Acme Pharma Inc, contact: jane@acme.com": classified
    non-academic, the email taken from the affiliation, no request sent;
    the title is the concatenation of the text fragments. *)
Example acme_example :
  parse_pubmed_article PyStr.ascii_lower PyStr.ascii_strip Sample.offline
    (Sample.article "99" []
       [Sample.author "Doe" "J" [] ["Acme Pharma Inc, contact: jane@acme.com"]])
    []
  = (inr (Some {| PubmedID := Some "99";
                  Title := "Effects of X on Y";
                  PublicationDate := "";
                  NonAcademicAuthors := "Doe, J";
                  CompanyAffiliations := "Acme Pharma Inc, contact: jane@acme.com";
                  CorrespondingAuthorEmail := Py.JStr "jane@acme.com" |}),
     []).
Proof. reflexivity. Qed.

(** With nothing inline and no service reachable, the three resolvers are
    tried in order and the email stays empty. *)
Example offline_example :
  parse_pubmed_article PyStr.ascii_lower PyStr.ascii_strip Sample.offline
    (Sample.article "42" [Sample.doi_id " 10.1000/xyz "] Sample.no_inline_email) []
  = (inr (Some {| PubmedID := Some "42";
                  Title := "Effects of X on Y";
                  PublicationDate := "";
                  NonAcademicAuthors := "Doe, J";
                  CompanyAffiliations := "Acme Pharma Inc";
                  CorrespondingAuthorEmail := Py.JStr "" |}),
     [Eff.Get (Eff.CrossRef "10.1000/xyz"); Eff.Sleep 200;
      Eff.Get (Eff.EuropePMCSearch "42"); Eff.Sleep 200;
      Eff.Get (Eff.EuropePMCEmails "42"); Eff.Sleep 200]%list).
Proof. reflexivity. Qed.

(** * Part III: further properties of the code *)

(** ** The email extractor, again *)

Lemma extract_email_none (text : string) :
  extract_email_from_affil text = None ->
  forall i, Re.match_here Re.EMAIL (PyStr.drop i text) = None.
Proof.
  unfold extract_email_from_affil, Re.search.
  destruct (Re.search_from Re.EMAIL text 0) as [[start len]|] eqn:E;
    [discriminate|].
  intros _. now apply (search_from_none _ _ _ E).
Qed.

Lemma length_zero_empty (s : string) : String.length s = 0 -> s = "".
Proof. destruct s; [reflexivity|discriminate]. Qed.

(** X1. An email-shaped string is extracted whole from itself; so what the
    extractor returns for a text is a fixed point: extracting from the
    result gives the result again. *)
Theorem extract_email_idempotent :
  (forall e, email_shaped e -> extract_email_from_affil e = Some e)
  /\ (forall text e,
        extract_email_from_affil text = Some e ->
        extract_email_from_affil e = Some e).
Proof.
  assert (Hfix : forall e, email_shaped e -> extract_email_from_affil e = Some e).
  { intros e He.
    assert (Hocc : Re.match_here Re.EMAIL (PyStr.drop 0 e) <> None).
    { apply (shaped_occurrence_matches e "" e "" He). simpl.
      now rewrite append_nil_r. }
    destruct (extract_email_from_affil e) as [e'|] eqn:E.
    - apply extract_email_some in E as (_ & pre & post & Ht & Hleft & Hlong).
      assert (Hpre : pre = "").
      { apply length_zero_empty.
        destruct (String.length pre) eqn:L; [reflexivity|].
        exfalso. apply Hocc. apply Hleft. lia. }
      subst pre. simpl in Ht.
      assert (Hlen : String.length e <= String.length e').
      { apply (Hlong e ""); [|exact He]. simpl. now rewrite append_nil_r. }
      assert (Hpost : post = "").
      { apply length_zero_empty.
        assert (L : String.length e = String.length e' + String.length post)
          by (rewrite Ht at 1; apply length_append).
        lia. }
      subst post. rewrite append_nil_r in Ht. now subst e'.
    - exfalso. apply Hocc. now apply extract_email_none. }
  split; [exact Hfix|].
  intros text e H. apply Hfix. now apply extract_email_some in H as [H _].
Qed.

Lemma extract_email_idempotent_witness :
  extract_email_from_affil "jane.doe@acme-pharma.com" = Some "jane.doe@acme-pharma.com".
Proof.
  destruct extract_email_idempotent as [Hfix _]. apply Hfix.
  exists "jane.doe", "acme-pharma", "com".
  repeat split; try reflexivity; try discriminate. simpl; lia.
Defined.

Lemma all_chars_app (p : ascii -> bool) (a b : string) :
  all_chars p (a ++ b) = all_chars p a && all_chars p b.
Proof.
  induction a as [|c a IH]; simpl; [reflexivity|].
  now rewrite IH, andb_assoc.
Qed.

Lemma all_chars_weaken (p q : ascii -> bool) (s : string) :
  (forall c, p c = true -> q c = true) ->
  all_chars p s = true -> all_chars q s = true.
Proof.
  intros Hpq. induction s as [|c s IH]; simpl; [reflexivity|].
  intros H. apply andb_true_iff in H as [Hc Hs]. now rewrite (Hpq c Hc), IH.
Qed.

Lemma alpha_local (c : ascii) : Re.alpha c = true -> Re.local_char c = true.
Proof. unfold Re.local_char. now intros ->. Qed.

Lemma domain_local (c : ascii) :
  Re.domain_char c = true -> Re.local_char c = true.
Proof.
  unfold Re.domain_char, Re.local_char, Re.one_of.
  destruct (Re.alpha c), (PyStr.is_digit c); try reflexivity.
  cbn [orb list_ascii_of_string existsb].
  destruct (Ascii.eqb c "."), (Ascii.eqb c "-"); cbn [orb];
    rewrite ?orb_true_r; auto; discriminate.
Qed.

(** X2. An extracted address has at least six characters, and each of them
    is an ASCII letter, a digit or one of [._%+-@]: no blank, bracket,
    quote or non-ASCII byte of the surrounding text gets in. *)
Theorem extracted_email_characters (text e : string) :
  extract_email_from_affil text = Some e ->
  all_chars email_char e = true
  /\ 6 <= String.length e
  /\ PyStr.contains "@" e = true.
Proof.
  intros H. apply extract_email_some in H as [H _].
  destruct H as (l & d & t & -> & Al & Nl & Ad & Nd & At & Lt).
  assert (Hl : forall c, Re.local_char c = true -> email_char c = true)
    by (intros c Hc; unfold email_char; now rewrite Hc).
  split; [|split].
  - rewrite !all_chars_app.
    rewrite (all_chars_weaken _ _ _ Hl Al).
    rewrite (all_chars_weaken _ _ d (fun c Hc => Hl c (domain_local c Hc)) Ad).
    rewrite (all_chars_weaken _ _ t (fun c Hc => Hl c (alpha_local c Hc)) At).
    reflexivity.
  - rewrite !length_append. simpl.
    destruct l; [congruence|]. destruct d; [congruence|]. simpl. lia.
  - apply contains_spec. now exists l, (d ++ "." ++ t).
Qed.

Lemma extracted_email_characters_witness :
  all_chars email_char "jane@acme.com" = true
  /\ 6 <= String.length "jane@acme.com".
Proof.
  destruct (extracted_email_characters
              "Acme Pharma Inc <jane@acme.com>; phone 555" "jane@acme.com" eq_refl)
    as (H1 & H2 & _).
  split; [exact H1|exact H2].
Defined.

(** ** Field extraction *)

Lemma truthy_app (a b : string) :
  PyStr.truthy a = true -> PyStr.truthy (a ++ b) = true.
Proof. destruct a; [discriminate|reflexivity]. Qed.

Lemma present_some (o : option string) (s : string) :
  present o = Some s -> o = Some s /\ PyStr.truthy s = true.
Proof.
  unfold present. destruct o as [t|]; [|discriminate].
  destruct (PyStr.truthy t) eqn:E; [|discriminate]. intros [= <-]. auto.
Qed.

Lemma present_none (o : option string) :
  present o = None -> o = None \/ o = Some "".
Proof.
  unfold present. destruct o as [[|c t]|]; auto; discriminate.
Qed.

Lemma extract_author_name_truthy (author : ET.Element) :
  PyStr.truthy (extract_author_name author) = true.
Proof.
  unfold extract_author_name.
  destruct (ET.findtext "LastName" author) as [l|]; [|reflexivity].
  destruct (ET.findtext "Initials" author) as [i|].
  - destruct (PyStr.truthy l) eqn:El; [|reflexivity].
    destruct (PyStr.truthy i); cbn [andb]; [now apply truthy_app|exact El].
  - destruct (PyStr.truthy l) eqn:El; [exact El|reflexivity].
Qed.

(** X3. The author name is never empty: it is "Unknown" when the last name
    is missing or empty (whatever the initials), the last name alone when
    only the initials are missing or empty, and "Last, Initials" when both
    are there. *)
Theorem extract_author_name_cases (author : ET.Element) :
  PyStr.truthy (extract_author_name author) = true
  /\ (present (ET.findtext "LastName" author) = None ->
      extract_author_name author = "Unknown")
  /\ (forall l,
        present (ET.findtext "LastName" author) = Some l ->
        present (ET.findtext "Initials" author) = None ->
        extract_author_name author = l)
  /\ (forall l i,
        present (ET.findtext "LastName" author) = Some l ->
        present (ET.findtext "Initials" author) = Some i ->
        extract_author_name author = l ++ ", " ++ i).
Proof.
  split; [apply extract_author_name_truthy|]. unfold extract_author_name.
  split; [|split].
  - intros H. apply present_none in H as [-> | ->]; [reflexivity|].
    now destruct (ET.findtext "Initials" author).
  - intros l Hl Hi. apply present_some in Hl as [-> Hl].
    apply present_none in Hi as [-> | ->]; now rewrite Hl.
  - intros l i Hl Hi. apply present_some in Hl as [-> Hl].
    apply present_some in Hi as [-> Hi]. now rewrite Hl, Hi.
Qed.

Lemma extract_author_name_cases_witness :
  extract_author_name
    (Sample.node "Author" [Sample.leaf "LastName" ""; Sample.leaf "Initials" "J"])
  = "Unknown"
  /\ extract_author_name (Sample.node "Author" [Sample.leaf "LastName" "Doe"])
     = "Doe"
  /\ extract_author_name (Sample.author "Doe" "J" [] []) = "Doe, J".
Proof.
  split; [|split].
  - destruct (extract_author_name_cases
                (Sample.node "Author"
                   [Sample.leaf "LastName" ""; Sample.leaf "Initials" "J"]))
      as (_ & H & _).
    apply H. reflexivity.
  - destruct (extract_author_name_cases
                (Sample.node "Author" [Sample.leaf "LastName" "Doe"]))
      as (_ & _ & H & _).
    apply H; reflexivity.
  - destruct (extract_author_name_cases (Sample.author "Doe" "J" [] []))
      as (_ & _ & _ & H).
    apply (H "Doe" "J"); reflexivity.
Defined.

(** X4. The publication date is the non-empty ones of [Year], [Month] and
    [Day], in this order, joined by "-", so a missing component leaves no
    dangling separator; it is empty exactly when the article has no
    [PubDate] or none of the three has text. *)
Theorem extract_pub_date_cases (info : ET.Element) :
  match ET.find ["Journal"; "JournalIssue"; "PubDate"]%list info with
  | None => extract_pub_date info = ""
  | Some date =>
      let year := present (ET.findtext "Year" date) in
      let month := present (ET.findtext "Month" date) in
      let day := present (ET.findtext "Day" date) in
      extract_pub_date info
        = PyStr.join "-" (olist year ++ olist month ++ olist day)%list
      /\ (extract_pub_date info = "" <->
          year = None /\ month = None /\ day = None)
      /\ (forall y m d, year = Some y -> month = Some m -> day = Some d ->
            extract_pub_date info = y ++ "-" ++ m ++ "-" ++ d)
  end.
Proof.
  unfold extract_pub_date.
  destruct (ET.find ["Journal"; "JournalIssue"; "PubDate"]%list info) as [date|];
    [|reflexivity].
  assert (Hfrag : forall o,
             match o with
             | Some t => if PyStr.truthy t then [t] else []
             | None => []
             end%list = olist (present o)).
  { intros [t|]; [|reflexivity]. unfold present. now destruct (PyStr.truthy t). }
  cbn [flat_map]. rewrite !Hfrag, app_nil_r. cbv zeta.
  split; [reflexivity|]. split.
  - destruct (present (ET.findtext "Year" date)) as [y|] eqn:Ey;
      destruct (present (ET.findtext "Month" date)) as [m|] eqn:Em;
      destruct (present (ET.findtext "Day" date)) as [d|] eqn:Ed;
      cbn [olist app PyStr.join String.concat];
      try (apply present_some in Ey as [_ Ey]);
      try (apply present_some in Em as [_ Em]);
      try (apply present_some in Ed as [_ Ed]);
      (split; [intros H|intros (H1 & H2 & H3); try discriminate; reflexivity]);
      try (exfalso;
           match goal with
           | Ht : PyStr.truthy ?x = true, H : ?x ++ ?r = "" |- _ =>
               apply (truthy_app x r) in Ht; rewrite H in Ht; discriminate Ht
           | Ht : PyStr.truthy ?x = true, H : ?x = "" |- _ =>
               rewrite H in Ht; discriminate Ht
           end);
      auto.
  - intros y m d -> -> ->. reflexivity.
Qed.

Lemma extract_pub_date_cases_witness :
  extract_pub_date
    (Sample.node "Article"
       [Sample.node "Journal"
          [Sample.node "JournalIssue"
             [Sample.node "PubDate"
                [Sample.leaf "Year" "2024"; Sample.leaf "Day" "07"]]]])
  = "2024-07"
  /\ extract_pub_date (Sample.info []) = "".
Proof.
  split.
  - apply (extract_pub_date_cases
             (Sample.node "Article"
                [Sample.node "Journal"
                   [Sample.node "JournalIssue"
                      [Sample.node "PubDate"
                         [Sample.leaf "Year" "2024"; Sample.leaf "Day" "07"]]]])).
  - apply (extract_pub_date_cases (Sample.info [])).
Defined.

Lemma find_first {A : Type} (p : A -> bool) (l : list A) :
  match List.find p l with
  | Some x =>
      exists pre post,
        l = (pre ++ x :: post)%list /\ p x = true
        /\ Forall (fun y => p y = false) pre
  | None => Forall (fun y => p y = false) l
  end.
Proof.
  induction l as [|y l IH]; cbn [List.find]; [constructor|].
  destruct (p y) eqn:E.
  - exists [], l. repeat split; [assumption|constructor].
  - destruct (List.find p l) as [x|].
    + destruct IH as (pre & post & -> & Hx & Hpre).
      exists (y :: pre), post. repeat split; [assumption|now constructor].
    + now constructor.
Qed.

(** X5. The DOI is that of the first [ArticleId], in document order and
    anywhere below the article, whose type is "doi" in any letter case and
    which has text; the text is returned stripped.  Without such an
    element there is no DOI. *)
Theorem get_doi_first_match (lower strip : string -> string)
  (article : ET.Element) :
  (get_doi_from_pubmed_xml lower strip article = None <->
     Forall (fun aid => is_doi_id lower aid = false)
            (ET.findall_desc "ArticleId" article))
  /\ (forall doi,
        get_doi_from_pubmed_xml lower strip article = Some doi ->
        exists pre aid post t,
          ET.findall_desc "ArticleId" article = (pre ++ aid :: post)%list
          /\ Forall (fun a => is_doi_id lower a = false) pre
          /\ lower (ET.attrib_get (ET.attrib aid) "IdType" "") = "doi"
          /\ ET.text aid = Some t /\ t <> ""
          /\ doi = strip t).
Proof.
  unfold get_doi_from_pubmed_xml. fold (is_doi_id lower).
  pose proof (find_first (is_doi_id lower) (ET.findall_desc "ArticleId" article))
    as H.
  destruct (List.find (is_doi_id lower) (ET.findall_desc "ArticleId" article))
    as [aid|].
  - destruct H as (pre & post & Hl & Haid & Hpre).
    unfold is_doi_id in Haid. apply andb_true_iff in Haid as [Htype Htext].
    apply String.eqb_eq in Htype.
    destruct (ET.text aid) as [t|] eqn:Et; [|discriminate].
    split.
    + split; [discriminate|]. intros Hall. exfalso.
      rewrite Hl in Hall. apply Forall_app in Hall as [_ Hall].
      inversion Hall as [|? ? Hno _]. unfold is_doi_id in Hno.
      rewrite Htype, Et, Htext in Hno. discriminate.
    + intros doi [= <-]. exists pre, aid, post, t.
      repeat split; auto. intros ->. discriminate.
  - split; [tauto|discriminate].
Qed.

Lemma get_doi_first_match_witness :
  get_doi_from_pubmed_xml PyStr.ascii_lower PyStr.ascii_strip
    (Sample.article "42"
       [ET.Elem "ArticleId" [("IdType", "pii")] (Some "S0140") None [];
        ET.Elem "ArticleId" [("IdType", "DOI")] (Some " 10.1000/xyz ") None [];
        Sample.doi_id "10.1000/other"]
       Sample.no_inline_email)
  = Some "10.1000/xyz"
  /\ get_doi_from_pubmed_xml PyStr.ascii_lower PyStr.ascii_strip
       (Sample.article "42" [] Sample.no_inline_email) = None.
Proof.
  split.
  - destruct (get_doi_first_match PyStr.ascii_lower PyStr.ascii_strip
                (Sample.article "42"
                   [ET.Elem "ArticleId" [("IdType", "pii")] (Some "S0140") None [];
                    ET.Elem "ArticleId" [("IdType", "DOI")] (Some " 10.1000/xyz ") None [];
                    Sample.doi_id "10.1000/other"]
                   Sample.no_inline_email)) as [_ H].
    destruct (H _ eq_refl) as (pre & aid & post & t & _).
    reflexivity.
  - apply get_doi_first_match. constructor.
Defined.

(** ** The search query *)



(** ** The records of the parser *)

Lemma join_truthy (sep first : string) (rest : list string) :
  PyStr.truthy first = true -> PyStr.truthy (PyStr.join sep (first :: rest)) = true.
Proof.
  intros H. unfold PyStr.join. cbn [String.concat].
  destruct rest; [exact H|now apply truthy_app].
Qed.

Section RecordFacts.

Variables lower strip : string -> string.
Variable service : Eff.remote.

Lemma affil_email_truthy (kind : bool) (affil e : string) :
  In e (affil_email lower kind affil) ->
  PyStr.truthy e = true
  /\ is_non_academic_affiliation lower (Some affil) = true
  /\ extract_email_from_affil affil = Some e.
Proof.
  unfold affil_email.
  destruct (is_non_academic_affiliation lower (Some affil)); [|intros []].
  destruct (Bool.eqb _ kind); cbn [andb]; [|intros []].
  destruct (extract_email_from_affil affil) as [e'|] eqn:E; [|intros []].
  intros [<-|[]]. split; [now apply (extract_email_truthy affil)|auto].
Qed.

(** Every candidate is a non-empty string. *)
Lemma possible_emails_truthy (info : ET.Element) (e : string) :
  In e (possible_emails (collect lower info)) -> PyStr.truthy e = true.
Proof.
  destruct (collect_fields lower info) as (_ & _ & ->).
  intros H. apply in_app_or in H as [H|H].
  - apply in_rev in H. unfold corresponding_emails in H.
    apply in_flat_map in H as (author & _ & H).
    apply in_flat_map in H as (affil & _ & H).
    now apply affil_email_truthy in H.
  - apply in_flat_map in H as (author & _ & H). unfold other_emails in H.
    apply in_app_or in H as [H|H].
    + destruct (embedded_email lower author) as [x|] eqn:Ex; [|destruct H].
      destruct (PyStr.truthy x) eqn:Et; [|destruct H].
      now destruct H as [<-|[]].
    + apply in_flat_map in H as (affil & _ & H).
      now apply affil_email_truthy in H.
Qed.

(** An email in an accepted affiliation is a candidate. *)
Lemma affiliation_email_candidate (info author : ET.Element) (affil e : string) :
  In author (article_authors info) ->
  In affil (qualifying_affils lower author) ->
  extract_email_from_affil affil = Some e ->
  In e (possible_emails (collect lower info)).
Proof.
  intros Hau Haff He. apply filter_In in Haff as [Haff Hc].
  destruct (collect_fields lower info) as (_ & _ & ->).
  apply in_or_app.
  destruct (PyStr.contains "corresponding" (lower affil)) eqn:Ek.
  - left. apply in_rev. rewrite rev_involutive.
    apply in_corresponding_emails. now exists author, affil.
  - right. apply in_flat_map. exists author. split; [assumption|].
    unfold other_emails. apply in_or_app. right.
    apply in_flat_map. exists affil. split; [assumption|].
    unfold affil_email. rewrite Hc, Ek, He. now left.
Qed.

(** X7. When an accepted affiliation of the article holds an email, the
    parser fills the record's email from the article alone: the trace is
    left as it was, so no resolver is called, and the email is a non-empty
    candidate string. *)
Theorem inline_email_needs_no_lookup (article medline info author : ET.Element)
  (affil e : string) (tr : Eff.trace) :
  ET.find ["MedlineCitation"]%list article = Some medline ->
  ET.find ["Article"]%list medline = Some info ->
  In author (article_authors info) ->
  In affil (qualifying_affils lower author) ->
  extract_email_from_affil affil = Some e ->
  exists rec email,
    parse_pubmed_article lower strip service article tr = (inr (Some rec), tr)
    /\ CorrespondingAuthorEmail rec = Py.JStr email
    /\ email <> ""
    /\ hd_error (possible_emails (collect lower info)) = Some email.
Proof.
  intros Hm Hi Hau Haff He.
  pose proof (affiliation_email_candidate info author affil e Hau Haff He) as Hin.
  assert (Hne : non_acad_authors (collect lower info) <> []).
  { destruct (collect_fields lower info) as (-> & _ & _).
    apply filter_In in Haff as [Haff Hc].
    assert (H : In (extract_author_name author, affil)
                   (non_academic_hits lower (article_authors info)))
      by (apply in_non_academic_hits; now exists author).
    destruct (non_academic_hits lower (article_authors info)); [easy|discriminate]. }
  rewrite parse_run, Hm, Hi.
  destruct (non_acad_authors (collect lower info)); [congruence|].
  destruct (possible_emails (collect lower info)) as [|first rest] eqn:Ep;
    [destruct Hin|].
  assert (Ht : PyStr.truthy first = true)
    by (apply (possible_emails_truthy info); rewrite Ep; now left).
  eexists _, first. split; [reflexivity|].
  cbn [make_record CorrespondingAuthorEmail hd_error]. unfold or_empty.
  cbn [Py.truthy]. rewrite Ht. repeat split. intros ->. discriminate.
Qed.

(** X8. Without a "corresponding" affiliation the candidates keep the
    document order: the record's email is the first, author by author, of
    the author's embedded email followed by the emails of the author's
    accepted affiliations; it is found without any resolver call. *)
Theorem first_candidate_in_document_order (article medline info : ET.Element)
  (first : string) (rest : list string) (tr : Eff.trace) :
  ET.find ["MedlineCitation"]%list article = Some medline ->
  ET.find ["Article"]%list medline = Some info ->
  non_acad_authors (collect lower info) <> [] ->
  corresponding_emails lower (article_authors info) = [] ->
  flat_map (other_emails lower) (article_authors info) = (first :: rest)%list ->
  exists rec,
    parse_pubmed_article lower strip service article tr = (inr (Some rec), tr)
    /\ CorrespondingAuthorEmail rec = Py.JStr first.
Proof.
  intros Hm Hi Hne Hc Ho.
  assert (Hp : possible_emails (collect lower info) = (first :: rest)%list).
  { destruct (collect_fields lower info) as (_ & _ & ->). now rewrite Hc, Ho. }
  rewrite parse_run, Hm, Hi, Hp.
  destruct (non_acad_authors (collect lower info)); [congruence|].
  eexists. split; [reflexivity|].
  cbn [make_record CorrespondingAuthorEmail]. unfold or_empty. cbn [Py.truthy].
  destruct (PyStr.truthy first) eqn:E; [reflexivity|].
  now destruct first.
Qed.

(** X9. In every record the parser returns, the author field and the
    affiliation field are non-empty, and the email field is never none: it
    is the empty string or a value that counts as true. *)
Theorem record_fields_filled (article : ET.Element) (tr tr' : Eff.trace)
  (rec : ParsedRecord) :
  parse_pubmed_article lower strip service article tr = (inr (Some rec), tr') ->
  PyStr.truthy (NonAcademicAuthors rec) = true
  /\ PyStr.truthy (CompanyAffiliations rec) = true
  /\ CorrespondingAuthorEmail rec <> Py.JNull
  /\ (CorrespondingAuthorEmail rec = Py.JStr ""
      \/ Py.truthy (CorrespondingAuthorEmail rec) = true).
Proof.
  intros H. apply parse_some in H as (medline & info & email & _ & _ & Hne & ->).
  cbn [make_record NonAcademicAuthors CompanyAffiliations CorrespondingAuthorEmail].
  destruct (collect_fields lower info) as (Ha & Hc & _).
  rewrite Ha in Hne. rewrite Ha, Hc.
  destruct (non_academic_hits lower (article_authors info)) as [|[name a] hits] eqn:E;
    [exfalso; apply Hne; reflexivity|].
  assert (Hin : In (name, a) (non_academic_hits lower (article_authors info)))
    by (rewrite E; now left).
  apply in_non_academic_hits in Hin as (author & _ & -> & Haff & _).
  apply in_author_affils in Haff as (_ & _ & _ & Ht).
  cbn [map fst snd]. split; [|split; [|split]].
  - apply join_truthy, extract_author_name_truthy.
  - now apply join_truthy.
  - unfold or_empty. destruct (Py.truthy email) eqn:Et; [|discriminate].
    intros ->. discriminate.
  - unfold or_empty. destruct (Py.truthy email) eqn:Et; auto.
Qed.

(** X10. Every affiliation the author loop lists as a company affiliation
    passed the classifier: it is a non-empty affiliation text of an author
    of the article whose lowered form holds a commercial keyword and no
    academic one. *)
Theorem company_affils_classified (info : ET.Element) (affil : string) :
  In affil (company_affils (collect lower info)) ->
  affil <> ""
  /\ (exists author,
        In author (article_authors info) /\ In affil (author_affils author))
  /\ ~ has_keyword ACADEMIC_KEYWORDS (lower affil)
  /\ has_keyword PHARMA_KEYWORDS (lower affil).
Proof.
  destruct (collect_fields lower info) as (_ & -> & _).
  intros H. apply in_map_iff in H as ([name a] & Ha & H). cbn [snd] in Ha. subst a.
  apply in_non_academic_hits in H as (author & Hau & _ & Haff & Hc).
  pose proof Haff as Haff'.
  apply in_author_affils in Haff' as (_ & _ & _ & Ht).
  unfold is_non_academic_affiliation in Hc. rewrite Ht in Hc. cbn [negb] in Hc.
  destruct (any_keyword ACADEMIC_KEYWORDS (lower affil)) eqn:Eac; [discriminate|].
  destruct (any_keyword PHARMA_KEYWORDS (lower affil)) eqn:Eph; [|discriminate].
  split; [intros ->; discriminate|]. split; [now exists author|]. split.
  - now apply any_keyword_false.
  - now apply any_keyword_spec.
Qed.

End RecordFacts.

Lemma inline_email_needs_no_lookup_witness :
  exists rec email,
    parse_pubmed_article PyStr.ascii_lower PyStr.ascii_strip Sample.crossref_answers
      (Sample.article "123" [Sample.doi_id "10.1000/xyz"] Sample.three_authors) []
    = (inr (Some rec), [])
    /\ CorrespondingAuthorEmail rec = Py.JStr email
    /\ email <> ""
    /\ hd_error (possible_emails
                   (collect PyStr.ascii_lower (Sample.info Sample.three_authors)))
       = Some email.
Proof.
  apply (inline_email_needs_no_lookup PyStr.ascii_lower PyStr.ascii_strip
           Sample.crossref_answers
           (Sample.article "123" [Sample.doi_id "10.1000/xyz"] Sample.three_authors)
           (Sample.medline "123" Sample.three_authors)
           (Sample.info Sample.three_authors)
           (Sample.author "Doe" "J" [] [Sample.acme_corresponding])
           Sample.acme_corresponding "a@acme.com" [] eq_refl eq_refl).
  - now left.
  - now left.
  - reflexivity.
Defined.

(** An academic author's electronic address comes first in the document
    and is the record's email, ahead of the email in the company
    affiliation of the second author. *)
Lemma first_candidate_in_document_order_witness :
  exists rec,
    parse_pubmed_article PyStr.ascii_lower PyStr.ascii_strip Sample.offline
      (Sample.article "8" []
         [Sample.both_fields;
          Sample.author "Doe" "J" [] ["Acme Pharma Inc, contact: jane@acme.com"]])
      []
    = (inr (Some rec), [])
    /\ CorrespondingAuthorEmail rec = Py.JStr "addr@univ.edu".
Proof.
  apply (first_candidate_in_document_order PyStr.ascii_lower PyStr.ascii_strip
           Sample.offline
           (Sample.article "8" []
              [Sample.both_fields;
               Sample.author "Doe" "J" [] ["Acme Pharma Inc, contact: jane@acme.com"]])
           (Sample.medline "8"
              [Sample.both_fields;
               Sample.author "Doe" "J" [] ["Acme Pharma Inc, contact: jane@acme.com"]])
           (Sample.info
              [Sample.both_fields;
               Sample.author "Doe" "J" [] ["Acme Pharma Inc, contact: jane@acme.com"]])
           "addr@univ.edu" ["jane@acme.com"] [] eq_refl eq_refl
           ltac:(discriminate) eq_refl eq_refl).
Defined.

Lemma record_fields_filled_witness :
  CorrespondingAuthorEmail
    (make_record PyStr.ascii_lower PyStr.ascii_strip
       (Sample.medline "42" Sample.no_inline_email)
       (Sample.info Sample.no_inline_email) Py.JNull)
  <> Py.JNull.
Proof.
  apply (record_fields_filled PyStr.ascii_lower PyStr.ascii_strip Sample.offline
           (Sample.article "42" [] Sample.no_inline_email) []
           [Eff.Get (Eff.EuropePMCSearch "42"); Eff.Sleep 200;
            Eff.Get (Eff.EuropePMCEmails "42"); Eff.Sleep 200]%list
           _ eq_refl).
Defined.

Lemma company_affils_classified_witness :
  Sample.beta_corresponding <> ""
  /\ has_keyword PHARMA_KEYWORDS (PyStr.ascii_lower Sample.beta_corresponding).
Proof.
  destruct (company_affils_classified PyStr.ascii_lower
              (Sample.info Sample.three_authors) Sample.beta_corresponding)
    as (H1 & _ & _ & H2).
  - right. now left.
  - split; assumption.
Defined.

(** ** The requests of the parser *)

Lemma stage_events_requests (stages : list stage) :
  stage_events stages = resolver_events (map fst stages).
Proof.
  unfold stage_events, resolver_events.
  induction stages as [|st stages IH]; [reflexivity|].
  cbn [flat_map map]. now rewrite IH.
Qed.

Lemma resolver_stages_bound (doi pmid : option string) :
  List.length (resolver_stages doi pmid) <= 3
  /\ forallb is_resolver_request (map fst (resolver_stages doi pmid)) = true.
Proof. destruct doi, pmid; cbn; split; auto; lia. Qed.

Lemma forallb_firstn {A : Type} (p : A -> bool) (n : nat) (l : list A) :
  forallb p l = true -> forallb p (firstn n l) = true.
Proof.
  revert l; induction n as [|n IH]; intros [|x l]; simpl; auto.
  intros H. apply andb_true_iff in H as [-> H]. now apply IH.
Qed.

(** Resolver traffic holds no detail request and no throttle pause. *)
Lemma resolver_events_quiet (reqs : list Eff.request) :
  forallb is_resolver_request reqs = true ->
  efetch_ids (resolver_events reqs) = []
  /\ throttle_pauses (resolver_events reqs) = 0.
Proof.
  induction reqs as [|r reqs IH]; [split; reflexivity|].
  cbn [forallb]. intros H. apply andb_true_iff in H as [Hr H].
  destruct (IH H) as [He Ht]. split.
  - change (resolver_events (r :: reqs))
      with ([Eff.Get r; Eff.Sleep RESOLVER_DELAY] ++ resolver_events reqs)%list.
    rewrite efetch_ids_app, He. now destruct r.
  - unfold throttle_pauses in *. cbn [resolver_events flat_map app filter].
    fold (resolver_events reqs). exact Ht.
Qed.

Section ParserRequests.

Variables lower strip : string -> string.
Variable service : Eff.remote.

(** What one run of the parser adds to the trace. *)
Lemma parse_events (article : ET.Element) (tr : Eff.trace) :
  exists result reqs,
    parse_pubmed_article lower strip service article tr
      = (inr result, (tr ++ resolver_events reqs)%list)
    /\ List.length reqs <= 3
    /\ forallb is_resolver_request reqs = true.
Proof.
  rewrite parse_run.
  destruct (ET.find ["MedlineCitation"]%list article) as [medline|];
    [|exists None, []; cbn; rewrite app_nil_r; repeat split; lia].
  destruct (ET.find ["Article"]%list medline) as [info|];
    [|exists None, []; cbn; rewrite app_nil_r; repeat split; lia].
  destruct (non_acad_authors (collect lower info));
    [exists None, []; cbn; rewrite app_nil_r; repeat split; lia|].
  destruct (possible_emails (collect lower info)).
  - destruct (resolve_email_refines lower strip service article medline tr)
      as (v & -> & _).
    set (stages := resolver_stages _ _).
    destruct (spec_cascade_stops service stages tr) as (n & Hn & -> & _).
    destruct (resolver_stages_bound
                (present (get_doi_from_pubmed_xml lower strip article))
                (present (ET.findtext "PMID" medline))) as [Hlen Hres].
    fold stages in Hlen, Hres.
    eexists _, (map fst (firstn n stages)).
    rewrite stage_events_requests. split; [reflexivity|]. split.
    + rewrite length_map, length_firstn. lia.
    + rewrite <- firstn_map. now apply forallb_firstn.
  - eexists _, []. cbn. rewrite app_nil_r. repeat split; lia.
Qed.

(** X11. The parser never raises, whatever the article and the services.
    It only adds to the trace, and what it adds is at most three resolver
    requests, each followed by the 0.2 s pause: it sends no search and no
    detail request. *)
Theorem parse_never_raises (article : ET.Element) (tr : Eff.trace) :
  exists result reqs,
    parse_pubmed_article lower strip service article tr
      = (inr result, (tr ++ resolver_events reqs)%list)
    /\ List.length reqs <= 3
    /\ forallb is_resolver_request reqs = true
    /\ Eff.requests (resolver_events reqs) = reqs
    /\ efetch_ids (resolver_events reqs) = [].
Proof.
  destruct (parse_events article tr) as (result & reqs & Hrun & Hlen & Hres).
  exists result, reqs. split; [exact Hrun|]. split; [exact Hlen|].
  split; [exact Hres|]. split.
  - clear. induction reqs as [|r reqs IH]; [reflexivity|].
    cbn [resolver_events flat_map]. rewrite requests_app.
    fold (resolver_events reqs). now rewrite IH.
  - now apply resolver_events_quiet.
Qed.

(** X12. Without a PMID (missing or empty) the two Europe PMC resolvers
    are never called, also when CrossRef finds nothing: the only request
    is the CrossRef one, sent when the article has a DOI, and without a
    DOI either no request is sent and the email is empty. *)
Theorem no_pmid_no_europepmc (article medline info : ET.Element)
  (tr : Eff.trace) :
  ET.find ["MedlineCitation"]%list article = Some medline ->
  ET.find ["Article"]%list medline = Some info ->
  non_acad_authors (collect lower info) <> [] ->
  possible_emails (collect lower info) = [] ->
  present (ET.findtext "PMID" medline) = None ->
  exists rec,
    parse_pubmed_article lower strip service article tr
      = (inr (Some rec),
         (tr ++ resolver_events
                  (olist (option_map Eff.CrossRef
                            (present (get_doi_from_pubmed_xml lower strip article)))))%list)
    /\ (present (get_doi_from_pubmed_xml lower strip article) = None ->
        CorrespondingAuthorEmail rec = Py.JStr "").
Proof.
  intros Hm Hi Hne Hp Hpmid.
  destruct (resolve_email_refines lower strip service article medline tr)
    as (v & Hrun & Hv).
  rewrite Hpmid in Hrun, Hv.
  rewrite parse_run, Hm, Hi, Hp, Hrun.
  destruct (non_acad_authors (collect lower info)); [congruence|].
  eexists. split.
  - f_equal.
    destruct (present (get_doi_from_pubmed_xml lower strip article)) as [d|];
      cbn [resolver_stages olist option_map app spec_cascade];
      [|cbn; now rewrite app_nil_r].
    destruct (Py.truthy (resolver_answer crossref_scan (service tr (Eff.CrossRef d))));
      reflexivity.
  - intros Hd. rewrite Hd in Hv.
    cbn [make_record CorrespondingAuthorEmail]. rewrite Hv. reflexivity.
Qed.

End ParserRequests.

Lemma no_pmid_no_europepmc_witness :
  exists rec,
    parse_pubmed_article PyStr.ascii_lower PyStr.ascii_strip Sample.offline
      (Sample.article "" [Sample.doi_id "10.1000/xyz"] Sample.no_inline_email) []
    = (inr (Some rec), [Eff.Get (Eff.CrossRef "10.1000/xyz"); Eff.Sleep 200]%list).
Proof.
  destruct (no_pmid_no_europepmc PyStr.ascii_lower PyStr.ascii_strip Sample.offline
              (Sample.article "" [Sample.doi_id "10.1000/xyz"] Sample.no_inline_email)
              (Sample.medline "" Sample.no_inline_email)
              (Sample.info Sample.no_inline_email) []
              eq_refl eq_refl ltac:(discriminate) eq_refl eq_refl)
    as (rec & Hrun & _).
  exists rec. exact Hrun.
Defined.

(** ** Errors and pauses of the detail fetch *)

Lemma throttle_pauses_app (a b : Eff.trace) :
  throttle_pauses (a ++ b)%list = throttle_pauses a + throttle_pauses b.
Proof. unfold throttle_pauses. now rewrite filter_app, length_app. Qed.

Section DetailsErrors.

Variables lower strip : string -> string.
Variable service : Eff.remote.

Lemma parse_all_events (articles : list ET.Element) :
  forall tr,
    exists records new,
      parse_all lower strip service articles tr = (inr records, (tr ++ new)%list)
      /\ throttle_pauses new = 0.
Proof.
  induction articles as [|article rest IH]; intros tr.
  - exists [], []. cbn. now rewrite app_nil_r.
  - cbn [parse_all]. unfold Eff.bind, Eff.ret.
    destruct (parse_events lower strip service article tr)
      as (result & reqs & -> & _ & Hres).
    destruct (IH (tr ++ resolver_events reqs)%list) as (records & new & -> & Hnew).
    eexists _, (resolver_events reqs ++ new)%list.
    rewrite app_assoc. split; [reflexivity|].
    rewrite throttle_pauses_app, Hnew.
    now destruct (resolver_events_quiet reqs Hres) as [_ ->].
Qed.


Lemma spec_details_pauses (batches : list (list string)) :
  forall tr records tr',
    spec_details lower strip service batches tr = (inr records, tr') ->
    exists new,
      tr' = (tr ++ new)%list
      /\ throttle_pauses new = Nat.pred (List.length batches).
Proof.
  induction batches as [|batch rest IH]; intros tr records tr'.
  - cbn. intros [= <- <-]. exists []. now rewrite app_nil_r.
  - cbn [spec_details]. unfold Eff.bind at 1. unfold request_batch.
    unfold Eff.bind at 1. unfold http_get at 1.
    destruct (service tr _) as [resp|]; [|discriminate].
    unfold Eff.bind at 1. unfold Eff.lift at 1.
    destruct (Eff.raise_for_status resp) as [e|[]]; [discriminate|].
    unfold Eff.bind at 1.
    set (tr1 := (tr ++ [Eff.Get (Eff.EFetch (PyStr.join "," batch))])%list).
    assert (Hs : exists pause,
               (if match rest with [] => false | _ => true end%list
                then Eff.sleep THROTTLE_SECONDS else Eff.ret tt) tr1
               = (inr tt, (tr1 ++ pause)%list)
               /\ throttle_pauses pause
                  = match rest with [] => 0 | _ => 1 end%list).
    { destruct rest; [exists []|exists [Eff.Sleep THROTTLE_SECONDS]]; cbn;
        rewrite ?app_nil_r; auto. }
    destruct Hs as (pause & -> & Hpause).
    unfold Eff.bind at 1. unfold Eff.lift at 1.
    destruct (Eff.fromstring resp) as [e|root]; [discriminate|].
    destruct (parse_all_events (ET.findall_desc "PubmedArticle" root)
                (tr1 ++ pause)%list) as (rs & new1 & -> & Hnew1).
    unfold Eff.bind, Eff.ret.
    destruct (spec_details lower strip service rest _) as [[e|more_rs] tr2] eqn:Er;
      [discriminate|].
    intros [= <- <-].
    destruct (IH _ _ _ Er) as (new2 & -> & Hnew2).
    exists ([Eff.Get (Eff.EFetch (PyStr.join "," batch))] ++ pause ++ new1 ++ new2)%list.
    split; [subst tr1; now rewrite <- !app_assoc|].
    rewrite !throttle_pauses_app, Hpause, Hnew1, Hnew2.
    destruct rest; reflexivity.
Qed.


(** X14. A run of [fetch_pubmed_details] that returns has made one request
    per started hundred of identifiers and has paused for the throttle
    interval once less: between the batches, not after the last.  For the
    empty list it does nothing at all. *)
Theorem fetch_details_pauses (pubmed_ids : list string) (tr tr' : Eff.trace)
  (records : list ParsedRecord) :
  fetch_pubmed_details lower strip service pubmed_ids tr = (inr records, tr') ->
  exists new,
    tr' = (tr ++ new)%list
    /\ List.length (efetch_ids new) = (List.length pubmed_ids + 99) / 100
    /\ throttle_pauses new = Nat.pred ((List.length pubmed_ids + 99) / 100)
    /\ (pubmed_ids = [] -> new = [] /\ records = []).
Proof.
  intros H.
  assert (Hn : List.length (id_batches pubmed_ids)
               = (List.length pubmed_ids + 99) / 100).
  { unfold id_batches, range_step, BATCH_SIZE.
    rewrite !length_map, length_seq. f_equal. lia. }
  pose proof H as H0. pose proof H as H'.
  rewrite fetch_details_refines in H, H'.
  apply spec_details_run in H as (new & -> & Hids & _).
  apply spec_details_pauses in H' as (new' & Heq & Hp).
  apply app_inv_head in Heq. subst new'.
  exists new. split; [reflexivity|]. split; [|split].
  - now rewrite Hids, length_map.
  - now rewrite Hp, Hn.
  - intros ->. cbn in H0. injection H0 as <- Heq.
    split; [|reflexivity].
    apply (app_inv_head tr). now rewrite app_nil_r.
Qed.

End DetailsErrors.


(** 150 identifiers: two requests and one pause. *)
Lemma fetch_details_pauses_witness :
  exists records new,
    fetch_pubmed_details PyStr.ascii_lower PyStr.ascii_strip Sample.pubmed
      (repeat "1" 150) []
    = (inr records, new)
    /\ List.length (efetch_ids new) = 2
    /\ throttle_pauses new = 1.
Proof.
  destruct (fetch_details_pauses PyStr.ascii_lower PyStr.ascii_strip Sample.pubmed
              (repeat "1" 150) [] _ _ eq_refl)
    as (new & Htr & Hreq & Hp & _).
  change (([] ++ new)%list) with new in Htr. subst new.
  eexists _, _. split; [reflexivity|]. split; assumption.
Defined.

(** ** Edge behaviour of the paginated search *)

Section SearchEdges.

Variable strip : string -> string.
Variable py_int : Py.value -> Py.result Z.
Variable service : Eff.remote.

(** X15. A failure on the first page ends [fetch_pubmed_ids] with the
    error of its cause: a failed connection and a 4xx/5xx status raise
    before the pause, a body that is not JSON raises [ValueError] after it,
    and a decoded object without the "esearchresult" key raises
    [KeyError]. *)
Theorem fetch_ids_first_page_errors (fuel : nat) (query : string) (retmax : Z)
  (tr : Eff.trace) :
  let q := clean_query strip query in
  let asked := (tr ++ [Eff.Get (Eff.ESearch q retmax 0)])%list in
  let run := fetch_pubmed_ids strip py_int service (S fuel) query retmax tr in
  (service tr (Eff.ESearch q retmax 0) = None ->
   run = (inl Py.RequestException, asked))
  /\ (forall resp,
        service tr (Eff.ESearch q retmax 0) = Some resp ->
        (400 <= Eff.status_code resp < 600)%Z ->
        run = (inl Py.HTTPError, asked))
  /\ (forall resp,
        service tr (Eff.ESearch q retmax 0) = Some resp ->
        (Eff.status_code resp < 400 \/ 600 <= Eff.status_code resp)%Z ->
        (forall v, Eff.content resp <> Eff.Json v) ->
        run = (inl Py.ValueError, (asked ++ [Eff.Sleep THROTTLE_SECONDS])%list))
  /\ (forall resp m,
        service tr (Eff.ESearch q retmax 0) = Some resp ->
        (Eff.status_code resp < 400 \/ 600 <= Eff.status_code resp)%Z ->
        Eff.content resp = Eff.Json (Py.JObj m) ->
        Py.lookup m "esearchresult" = None ->
        run = (inl Py.KeyError, (asked ++ [Eff.Sleep THROTTLE_SECONDS])%list)).
Proof.
  intros q asked run. subst run asked q.
  assert (Hok : forall resp,
             (Eff.status_code resp < 400 \/ 600 <= Eff.status_code resp)%Z ->
             Eff.raise_for_status resp = inr tt).
  { intros resp H. unfold Eff.raise_for_status.
    destruct (Z.leb_spec 400 (Eff.status_code resp));
      destruct (Z.ltb_spec (Eff.status_code resp) 600); cbn [andb];
      try reflexivity; lia. }
  unfold fetch_pubmed_ids. cbn [fetch_pages].
  unfold Eff.bind, http_get, Eff.lift, Eff.sleep.
  split; [|split; [|split]].
  - intros ->. reflexivity.
  - intros resp -> [Hlo Hhi]. unfold Eff.raise_for_status.
    apply Z.leb_le in Hlo. apply Z.ltb_lt in Hhi. now rewrite Hlo, Hhi.
  - intros resp -> Hst Hc. rewrite (Hok resp Hst). unfold Eff.json.
    destruct (Eff.content resp) as [v| |]; [now destruct (Hc v)| |]; reflexivity.
  - intros resp m -> Hst Hc Hm. rewrite (Hok resp Hst). unfold Eff.json.
    rewrite Hc. cbn [Py.getitem]. rewrite Hm. reflexivity.
Qed.

(** The loop with a page size that is not positive and a positive total:
    the offset never reaches the total. *)
Lemma fetch_pages_never_breaks (query : string) (retmax total : Z) :
  esearch_always py_int service query retmax total ->
  (retmax <= 0)%Z -> (0 < total)%Z ->
  forall fuel acc retstart known tr,
    (retstart <= 0)%Z -> known = None \/ known = Some total ->
    exists new,
      fetch_pages py_int service fuel query retmax acc retstart known tr
      = (inr None, (tr ++ new)%list)
      /\ List.length (Eff.requests new) = fuel.
Proof.
  intros Hsvc Hr Ht. induction fuel as [|fuel IH]; intros acc retstart known tr Hs Hk.
  - exists []. cbn. now rewrite app_nil_r.
  - destruct (Hsvc tr retstart) as (resp & ids & Hresp & Hids & Hcount).
    destruct Hids as (Hstatus & data & result & idlist & Hjson & Hres & Hlist & Hiter).
    destruct Hcount as (data' & result' & count & Hjson' & Hres' & Hcnt & Hint).
    rewrite Hjson in Hjson'. injection Hjson' as <-.
    rewrite Hres in Hres'. injection Hres' as <-.
    cbn [fetch_pages]. unfold Eff.bind at 1. unfold http_get at 1. rewrite Hresp.
    unfold Eff.bind at 1. unfold Eff.lift at 1. rewrite Hstatus.
    unfold Eff.bind at 1. unfold Eff.sleep at 1.
    unfold Eff.bind at 1. unfold Eff.lift at 1. rewrite Hjson.
    set (tr1 := ((tr ++ [Eff.Get (Eff.ESearch query retmax retstart)])
                   ++ [Eff.Sleep THROTTLE_SECONDS])%list).
    assert (Htotal :
              match known with
              | None =>
                  Eff.lift (let? result := Py.getitem data "esearchresult" in
                            let? count := Py.getitem result "count" in
                            py_int count)
              | Some t => Eff.ret t
              end tr1 = (inr total, tr1)).
    { destruct Hk as [-> | ->]; [|reflexivity].
      unfold Eff.lift. now rewrite Hres, Hcnt, Hint. }
    unfold Eff.bind at 1. rewrite Htotal.
    unfold Eff.bind at 1. unfold Eff.lift at 1. rewrite Hres, Hlist, Hiter.
    assert (Hgo : (retstart + retmax >=? total)%Z = false).
    { destruct (Z.geb_spec (retstart + retmax) total); [lia|reflexivity]. }
    rewrite Hgo.
    destruct (IH (acc ++ ids)%list (retstart + retmax)%Z (Some total) tr1
                ltac:(lia) ltac:(auto)) as (new & -> & Hlen).
    exists ([Eff.Get (Eff.ESearch query retmax retstart);
             Eff.Sleep THROTTLE_SECONDS] ++ new)%list.
    split; [subst tr1; now rewrite <- !app_assoc|].
    rewrite requests_app. cbn. now rewrite Hlen.
Qed.

(** X16. With a page size of zero or less and a search that reports a
    positive total, the loop of [fetch_pubmed_ids] never stops: whatever
    the number of iterations allowed, it has used them all, sending one
    request in each, without returning. *)
Theorem fetch_ids_never_returns (query : string) (retmax total : Z)
  (fuel : nat) (tr : Eff.trace) :
  esearch_always py_int service (clean_query strip query) retmax total ->
  (retmax <= 0)%Z -> (0 < total)%Z ->
  exists new,
    fetch_pubmed_ids strip py_int service fuel query retmax tr
    = (inr None, (tr ++ new)%list)
    /\ List.length (Eff.requests new) = fuel.
Proof.
  intros Hsvc Hr Ht. unfold fetch_pubmed_ids.
  apply (fetch_pages_never_breaks _ retmax total Hsvc Hr Ht); [lia|now left].
Qed.

(** X17. When the first page reports a total that is not above the page
    size, also zero, [fetch_pubmed_ids] sends this one request, pauses,
    and returns the identifiers of the page. *)
Theorem fetch_ids_single_page (query : string) (retmax total : Z)
  (resp : Eff.response) (ids : list Py.value) (fuel : nat) (tr : Eff.trace) :
  (0 < retmax)%Z -> (total <= retmax)%Z ->
  let q := clean_query strip query in
  service tr (Eff.ESearch q retmax 0) = Some resp ->
  page_ids resp ids ->
  page_count py_int resp total ->
  fetch_pubmed_ids strip py_int service (S fuel) query retmax tr
  = (inr (Some ids),
     (tr ++ [Eff.Get (Eff.ESearch q retmax 0); Eff.Sleep THROTTLE_SECONDS])%list).
Proof.
  intros Hr Ht q Hresp Hids Hcount.
  assert (Hn : pages_needed total retmax = 1).
  { assert (H1 : pages_needed total retmax <= 1)
      by (apply (pages_needed_spec total retmax 1); lia).
    assert (H2 : 1 <= pages_needed total retmax)
      by (unfold pages_needed; lia).
    lia. }
  unfold fetch_pubmed_ids. fold q.
  pose proof (fetch_pages_run py_int service q retmax total (fun _ => ids) tr Hr)
    as Hrun.
  rewrite Hn in Hrun.
  specialize (Hrun
    ltac:(intros k Hk; assert (k = 0) as -> by lia;
          exists resp; cbn; rewrite app_nil_r; auto)
    1 0 (S fuel) [] eq_refl ltac:(lia) ltac:(lia)).
  cbn [Nat.eqb page_events seq flat_map app page_offset] in Hrun.
  rewrite !app_nil_r in Hrun. cbn [Z.of_nat Z.mul] in Hrun. exact Hrun.
Qed.

End SearchEdges.

Lemma fetch_ids_first_page_errors_witness :
  fetch_pubmed_ids PyStr.ascii_strip PyInt.dec_int Sample.failing 3 "cancer" 100 []
  = (inl Py.HTTPError, [Eff.Get (Eff.ESearch "cancer" 100 0)]%list)
  /\ fetch_pubmed_ids PyStr.ascii_strip PyInt.dec_int Sample.offline 3 "cancer" 100 []
     = (inl Py.RequestException, [Eff.Get (Eff.ESearch "cancer" 100 0)]%list).
Proof.
  split.
  - destruct (fetch_ids_first_page_errors PyStr.ascii_strip PyInt.dec_int
                Sample.failing 2 "cancer" 100 []) as (_ & H & _).
    apply (H (Eff.Response 500 Eff.Garbled) eq_refl). cbn. lia.
  - destruct (fetch_ids_first_page_errors PyStr.ascii_strip PyInt.dec_int
                Sample.offline 2 "cancer" 100 []) as (H & _).
    apply (H eq_refl).
Defined.

(** A page size of zero: five iterations allowed, five requests sent, no
    result. *)
Lemma fetch_ids_never_returns_witness :
  exists new,
    fetch_pubmed_ids PyStr.ascii_strip PyInt.dec_int Sample.esearch_empty_pages
      5 "cancer" 0 []
    = (inr None, new)
    /\ List.length (Eff.requests new) = 5.
Proof.
  destruct (fetch_ids_never_returns PyStr.ascii_strip PyInt.dec_int
              Sample.esearch_empty_pages "cancer" 0 250 5 [])
    as (new & Hrun & Hlen).
  - intros tr retstart. eexists _, []. split; [reflexivity|]. split.
    + split; [reflexivity|]. eexists _, _, _. repeat split; reflexivity.
    + eexists _, _, _. repeat split; reflexivity.
  - lia.
  - lia.
  - exists new. split; [exact Hrun|exact Hlen].
Defined.

(** 250 results and a page size of 500: one request. *)
Lemma fetch_ids_single_page_witness :
  fetch_pubmed_ids PyStr.ascii_strip PyInt.dec_int Sample.esearch 1 "cancer" 500 []
  = (inr (Some (Sample.id_strings 0 250)),
     [Eff.Get (Eff.ESearch "cancer" 500 0); Eff.Sleep 340]%list).
Proof.
  eapply (fetch_ids_single_page PyStr.ascii_strip PyInt.dec_int Sample.esearch
            "cancer" 500 250 _ (Sample.id_strings 0 250) 0 []).
  - lia.
  - lia.
  - reflexivity.
  - split; [reflexivity|]. eexists _, _, _. repeat split; reflexivity.
  - eexists _, _, _. repeat split; reflexivity.
Defined.

(** ** What the resolvers find *)

Lemma crossref_author_email_first (pre post : list Py.value)
  (a : list (string * Py.value)) (v : Py.value) :
  Forall no_direct_email pre ->
  Py.lookup a "email" = Some v -> Py.truthy v = true ->
  crossref_author_email (pre ++ Py.JObj a :: post)
  = if Py.is_str v then inr (Some v)
    else let? first := Py.index0 v in inr (Some first).
Proof.
  intros Hpre Ha Hv. induction Hpre as [|p pre (m & -> & Hm) _ IH].
  - cbn [app crossref_author_email Py.get]. now rewrite Ha, Hv.
  - cbn [app crossref_author_email Py.get]. now rewrite Hm.
Qed.

Section ResolverResults.

Variable service : Eff.remote.

(** X18. In a CrossRef answer, the first author whose [email] field counts
    as true decides the result, and neither the later authors nor any
    "mailto:" link are looked at: a string is returned as it is, a list
    gives its first element, and any other value (a number, an object)
    gives none. *)
Theorem crossref_first_email_decides (doi : string) (tr : Eff.trace)
  (resp : Eff.response) (data message : Py.value)
  (pre post : list Py.value) (a : list (string * Py.value)) (v : Py.value) :
  service tr (Eff.CrossRef doi) = Some resp ->
  Eff.status_code resp = 200%Z ->
  Eff.json resp = inr data ->
  Py.get data "message" (Py.JObj []) = inr message ->
  Py.get message "author" (Py.JArr []) = inr (Py.JArr (pre ++ Py.JObj a :: post)) ->
  Forall no_direct_email pre ->
  Py.lookup a "email" = Some v ->
  Py.truthy v = true ->
  get_email_from_crossref service doi tr
  = (inr (match v with
          | Py.JStr _ => v
          | Py.JArr (first :: _) => first
          | _ => Py.JNull
          end),
     (tr ++ [Eff.Get (Eff.CrossRef doi)])%list).
Proof.
  intros Hresp Hst Hjson Hmsg Hauth Hpre Ha Hv.
  rewrite crossref_run, Hresp. unfold resolver_answer. rewrite Hst.
  cbn [Z.eqb Pos.eqb]. unfold crossref_scan. rewrite Hjson, Hmsg, Hauth.
  cbn [Py.iter]. rewrite (crossref_author_email_first pre post a v Hpre Ha Hv).
  destruct v as [| b | n | s | [|x l] | [|kv m]]; try discriminate Hv;
    reflexivity.
Qed.

End ResolverResults.

Lemma crossref_first_email_decides_witness :
  get_email_from_crossref Sample.crossref_answers "10.1000/xyz" []
  = (inr (Py.JStr "jane@acme.com"), [Eff.Get (Eff.CrossRef "10.1000/xyz")]%list).
Proof.
  eapply (crossref_first_email_decides Sample.crossref_answers "10.1000/xyz" []
            _ _ _ [Py.JObj [("family", Py.JStr "Doe")]] []
            [("email", Py.JStr "jane@acme.com")] (Py.JStr "jane@acme.com")
            eq_refl eq_refl eq_refl eq_refl eq_refl).
  - constructor; [|constructor]. now eexists.
  - reflexivity.
  - reflexivity.
Defined.




Lemma europepmc_author_email_first (pre post : list Py.value)
  (a : list (string * Py.value)) (v : Py.value) :
  Forall no_email_key pre ->
  Py.lookup a "email" = Some v ->
  europepmc_author_email (pre ++ Py.JObj a :: post) = inr (Some v).
Proof.
  intros Hpre Ha. induction Hpre as [|p pre (m & -> & Hm) _ IH].
  - cbn [app europepmc_author_email Py.contains Py.getitem]. now rewrite Ha.
  - cbn [app europepmc_author_email Py.contains]. now rewrite Hm.
Qed.

Section EuropePMCResults.

Variable service : Eff.remote.

(** X20. In a Europe PMC search answer whose first result has an author
    list, the first author with an [email] key gives the result, whatever
    the value under the key, also an empty one; the affiliation text and
    the other results are not looked at. *)
Theorem europepmc_first_author_email (pmid : string) (tr : Eff.trace)
  (resp : Eff.response) (data result_list author_list : Py.value)
  (r : list (string * Py.value)) (others pre post : list Py.value)
  (a : list (string * Py.value)) (v : Py.value) :
  service tr (Eff.EuropePMCSearch pmid) = Some resp ->
  Eff.status_code resp = 200%Z ->
  Eff.json resp = inr data ->
  Py.get data "resultList" (Py.JObj []) = inr result_list ->
  Py.get result_list "result" (Py.JArr []) = inr (Py.JArr (Py.JObj r :: others)) ->
  Py.lookup r "authorList" = Some author_list ->
  Py.getitem author_list "author" = inr (Py.JArr (pre ++ Py.JObj a :: post)) ->
  Forall no_email_key pre ->
  Py.lookup a "email" = Some v ->
  get_email_from_europepmc service pmid tr
  = (inr v, (tr ++ [Eff.Get (Eff.EuropePMCSearch pmid)])%list).
Proof.
  intros Hresp Hst Hjson Hrl Hres Hal Hau Hpre Ha.
  rewrite europepmc_run, Hresp. unfold resolver_answer. rewrite Hst.
  cbn [Z.eqb Pos.eqb]. unfold europepmc_scan. rewrite Hjson, Hrl, Hres.
  cbn [Py.truthy negb Py.iter europepmc_results Py.contains Py.getitem].
  rewrite Hal, Hau. cbn [Py.iter].
  now rewrite (europepmc_author_email_first pre post a v Hpre Ha).
Qed.

(** X21. The emails endpoint gives the first entry of "emailList.email"
    when this is a non-empty list, and none when "emailList" or "email" is
    missing or the list is empty; when "email" is a single non-empty
    string the result is its first character only. *)
Theorem emails_endpoint_result (pmid : string) (tr : Eff.trace)
  (resp : Eff.response) (m : list (string * Py.value)) :
  service tr (Eff.EuropePMCEmails pmid) = Some resp ->
  Eff.status_code resp = 200%Z ->
  Eff.content resp = Eff.Json (Py.JObj m) ->
  let result := fst (get_email_from_europepmc_emails_endpoint service pmid tr) in
  (Py.lookup m "emailList" = None -> result = inr Py.JNull)
  /\ (forall el,
        Py.lookup m "emailList" = Some (Py.JObj el) ->
        (Py.lookup el "email" = None -> result = inr Py.JNull)
        /\ (Py.lookup el "email" = Some (Py.JArr []) -> result = inr Py.JNull)
        /\ (forall x rest,
              Py.lookup el "email" = Some (Py.JArr (x :: rest)) ->
              result = inr x)
        /\ (forall s c rest,
              Py.lookup el "email" = Some (Py.JStr s) ->
              PyStr.chars s = (c :: rest)%list ->
              result = inr (Py.JStr c))).
Proof.
  intros Hresp Hst Hc result. subst result.
  rewrite emails_run, Hresp. cbn [fst]. unfold resolver_answer. rewrite Hst.
  cbn [Z.eqb Pos.eqb]. unfold emails_scan, Eff.json. rewrite Hc.
  cbn [Py.get]. split.
  - intros ->. reflexivity.
  - intros el ->. cbn [Py.get]. split; [|split; [|split]].
    + intros ->. reflexivity.
    + intros ->. reflexivity.
    + intros x rest ->. reflexivity.
    + intros s c rest -> Hs. cbn [Py.truthy Py.index0].
      destruct s as [|c0 s]; [discriminate Hs|]. cbn [PyStr.truthy].
      now rewrite Hs.
Qed.

End EuropePMCResults.

Lemma europepmc_first_author_email_witness :
  get_email_from_europepmc Sample.europepmc_answers "42" []
  = (inr (Py.JStr "doe@acme.com"), [Eff.Get (Eff.EuropePMCSearch "42")]%list).
Proof.
  eapply (europepmc_first_author_email Sample.europepmc_answers "42" []
            _ _ _ _ _ [] [Py.JObj [("fullName", Py.JStr "Roe R")]] []
            [("fullName", Py.JStr "Doe J"); ("email", Py.JStr "doe@acme.com")]
            (Py.JStr "doe@acme.com")
            eq_refl eq_refl eq_refl eq_refl eq_refl eq_refl eq_refl).
  - constructor; [|constructor]. now eexists.
  - reflexivity.
Defined.

(** A single string under "email": the first character comes back. *)
Lemma emails_endpoint_result_witness :
  get_email_from_europepmc_emails_endpoint Sample.europepmc_answers "42" []
  = (inr (Py.JStr "d"), [Eff.Get (Eff.EuropePMCEmails "42")]%list)
  /\ fst (get_email_from_europepmc_emails_endpoint Sample.europepmc_answers "42" [])
     = inr (Py.JStr "d").
Proof.
  split; [reflexivity|].
  destruct (emails_endpoint_result Sample.europepmc_answers "42" [] _
              [("emailList", Py.JObj [("email", Py.JStr "doe@acme.com")])]
              eq_refl eq_refl eq_refl) as (_ & H).
  destruct (H _ eq_refl) as (_ & _ & _ & Hstr).
  apply (Hstr "doe@acme.com" "d" _ eq_refl eq_refl).
Defined.
